(** * desafio_poo.py: accounts, transactions, history and the menu loop

    A shallow embedding of [src/desafio_poo.py] and the properties of its
    bookkeeping: the balance rules of [Conta] and [ContaCorrente], the
    history written by [Saque.registrar] and [Deposito.registrar], the
    customer list of [criar_cliente] and the account numbers handed out by
    [main].

    Modelling choices.
    - Amounts are Python floats: the menu reads every amount with
      [float(input(...))], l.312 and l.335.  The model takes them in
      Rocq's primitive binary64 floats, whose comparisons, sum and
      difference are those of IEEE 754 with rounding to nearest even, as
      CPython's are; [+ infinity] and [nan] are amounts like the others.
      The initial balance [0] and the default limit [500] are Python ints;
      they stand here as the floats of the same value, from which no
      comparison, sum, difference or [:.2f] of the program tells them
      apart.  The number of withdrawals and the account numbers are ints
      and stay in [Z].
    - The text that [:.2f] writes for a float (l.369, l.372) and the floats
      that [float] and [int] read from a line are parameters of the menu.
    - Python objects that are mutated in place and reached through several
      references (the accounts: [cliente.contas] and the list [contas] of
      [main] hold the same objects) live in a heap, addressed by position.
      Customers are held by value in the list [clientes], the only place the
      program stores them; a customer is named by its position there.
    - [print], [input] and [datetime.now] act on a [World]: the lines still
      to be read, the messages printed so far, the clock and the heap.
      [input] on an exhausted input raises [EOFError], as Python does.
      Prompts of [input] are not recorded. *)

From Stdlib Require Import ZArith Lia Floats.
From stdpp Require Import base list strings.

Open Scope Z_scope.

(* ===================================================================== *)
(** ** Domain classes: the data *)
(* ===================================================================== *)

(** The dict appended by [Historico.adicionar_transacao]. *)
Record Registro : Type := mkRegistro {
  tipo : string;     (* transacao.__class__.__name__ *)
  valor : PrimFloat.float;   (* transacao.valor *)
  data : string      (* datetime.now().strftime(...) *)
}.

(** class Historico *)
Record Historico : Type := mkHistorico {
  _transacoes : list Registro
}.

(** class Conta *)
Record Conta : Type := mkConta {
  _saldo : PrimFloat.float;
  _numero : Z;
  _agencia : string;
  _cliente : nat;            (* the owner, by position in [clientes] *)
  _historico : Historico
}.

(** class ContaCorrente(Conta): the inherited fields and its own two. *)
Record ContaCorrente : Type := mkContaCorrente {
  super : Conta;
  _limite : PrimFloat.float;
  _limite_saques : Z
}.

(** An account object of either class; method calls dispatch on the
    constructor. *)
Inductive Objeto : Type :=
  | DeConta (c : Conta)
  | DeContaCorrente (cc : ContaCorrente).

(** class Transacao and its two concrete subclasses. *)
Inductive Transacao : Type :=
  | Saque (_valor : PrimFloat.float)
  | Deposito (_valor : PrimFloat.float).

(** transacao.valor *)
Definition Transacao_valor (t : Transacao) : PrimFloat.float :=
  match t with Saque v => v | Deposito v => v end.

(** transacao.__class__.__name__ *)
Definition class_name (t : Transacao) : string :=
  match t with Saque _ => "Saque"%string | Deposito _ => "Deposito"%string end.

(** class PessoaFisica(Cliente) *)
Record PessoaFisica : Type := mkPessoaFisica {
  endereco : string;
  contas : list nat;         (* references into the heap *)
  nome : string;
  data_nascimento : string;
  cpf : string
}.

(* ===================================================================== *)
(** ** Messages printed by the program *)
(* ===================================================================== *)

(** One constructor per [print] call of the source; the comment gives the
    line of the call. *)
Inductive Message : Type :=
  | MsgSaldoInsuficiente      (* l.116 "Operacao falhou! Voce nao tem saldo suficiente." *)
  | MsgSaqueSucesso           (* l.119 "Saque realizado com sucesso!" *)
  | MsgValorInvalido          (* l.122, l.132 "Operacao falhou! O valor informado e invalido." *)
  | MsgDepositoSucesso        (* l.129 "Deposito realizado com sucesso!" *)
  | MsgExcedeuLimite          (* l.165 "Operacao falhou! O valor do saque excede o limite." *)
  | MsgExcedeuSaques          (* l.167 "Operacao falhou! Numero maximo de saques excedido." *)
  | MsgClienteSemConta        (* l.278 "Cliente nao possui conta!" *)
  | MsgEscolhaConta             (* l.286 *)
  | MsgOpcaoConta (i : Z) (numero : Z)  (* l.288 *)
  | MsgOpcaoInvalida          (* l.296 *)
  | MsgEntradaInvalida        (* l.298 *)
  | MsgClienteNaoEncontrado   (* l.308, l.331, l.354, l.401 *)
  | MsgDepositoCancelado      (* l.315 *)
  | MsgSaqueCancelado         (* l.338 *)
  | MsgExtrato (linhas : list (string * string * string)) (saldo : string)
      (* l.361-373: the header, the text [extrato] (for each entry its type,
         its amount as [:.2f] writes it and its date; no line when there is
         no entry), the balance as [:.2f] writes it, the closing line *)
  | MsgClienteJaExiste        (* l.382 "Ja existe cliente com esse CPF!" *)
  | MsgClienteCriado          (* l.392 *)
  | MsgContaCriada            (* l.407 *)
  | MsgNenhumaConta           (* l.414 *)
  | MsgConta (agencia : string) (numero : Z) (titular : nat)  (* l.418-419 str(conta), the holder by reference *)
  | MsgSaindo                 (* l.451 *)
  | MsgOperacaoInvalida.      (* l.454 *)

(** The messages that report a failed withdrawal or deposit. *)
Definition falha (m : Message) : bool :=
  match m with
  | MsgSaldoInsuficiente | MsgValorInvalido | MsgExcedeuLimite | MsgExcedeuSaques => true
  | _ => false
  end.

(* ===================================================================== *)
(** ** The world and the monad of effects *)
(* ===================================================================== *)

Record World : Type := mkWorld {
  stdin : list string;       (* lines not yet read *)
  stdout : list Message;     (* messages printed, oldest first *)
  relogio : nat -> string;   (* the next readings of the formatted clock *)
  heap : list Objeto         (* the account objects, by address *)
}.

Inductive Excecao : Type := EOFError.

Inductive Resultado (A : Type) : Type :=
  | Retorna (a : A) (w : World)
  | Levanta (e : Excecao) (w : World).
Arguments Retorna {A} a w.
Arguments Levanta {A} e w.

Definition IO (A : Type) : Type := World -> Resultado A.

#[global] Instance IO_ret : MRet IO := fun A (a : A) w => Retorna a w.

#[global] Instance IO_bind : MBind IO := fun A B (k : A -> IO B) (m : IO A) w =>
  match m w with
  | Retorna a w' => k a w'
  | Levanta e w' => Levanta e w'
  end.

Definition ret {A} (a : A) : IO A := mret a.

(** print(...) *)
Definition imprime (m : Message) (w : World) : World :=
  mkWorld (stdin w) (stdout w ++ [m]) (relogio w) (heap w).

Definition print (m : Message) : IO unit :=
  fun w => Retorna tt (imprime m w).

(** input(...) *)
Definition input : IO string :=
  fun w => match stdin w with
           | [] => Levanta EOFError w
           | linha :: resto =>
               Retorna linha (mkWorld resto (stdout w) (relogio w) (heap w))
           end.

(** datetime.now().strftime("%d-%m-%Y %H:%M:%S"): the clock is read and
    moves on to its next reading. *)
Definition tique (w : World) : World :=
  mkWorld (stdin w) (stdout w) (fun n => relogio w (S n)) (heap w).

Definition datetime_now : IO string :=
  fun w => Retorna (relogio w 0%nat) (tique w).

(** Allocation of a new account object; its address is returned. *)
Definition novo_objeto (o : Objeto) : IO nat :=
  fun w => Retorna (length (heap w))
             (mkWorld (stdin w) (stdout w) (relogio w) (heap w ++ [o])).

(** Reading the object at an address. *)
Definition ler_objeto (r : nat) : IO (option Objeto) :=
  fun w => Retorna (heap w !! r) w.

(** Writing back the object at an address after it was mutated. *)
Definition gravar_objeto (r : nat) (o : Objeto) : IO unit :=
  fun w => Retorna tt (mkWorld (stdin w) (stdout w) (relogio w) (<[r := o]> (heap w))).

(* ===================================================================== *)
(** ** Domain classes: the methods *)
(* ===================================================================== *)

(** A method that mutates [self] returns its result together with the new
    [self]. *)

Definition com_saldo (s : PrimFloat.float) (self : Conta) : Conta :=
  mkConta s (_numero self) (_agencia self) (_cliente self) (_historico self).

Definition com_historico (h : Historico) (self : Conta) : Conta :=
  mkConta (_saldo self) (_numero self) (_agencia self) (_cliente self) h.

(** Conta.__init__; [_saldo = 0]. *)
Definition Conta_init (numero : Z) (cliente : nat) : Conta :=
  mkConta 0 numero "0001" cliente (mkHistorico []).

(** Conta.sacar.  [valor > saldo] is [saldo <? valor], and [valor > 0] is
    [0 <? valor]: both are false when either side is nan. *)
Definition Conta_sacar (self : Conta) (valor : PrimFloat.float) : IO (bool * Conta) :=
  let saldo := _saldo self in
  let excedeu_saldo := (saldo <? valor)%float in
  if excedeu_saldo then
    print MsgSaldoInsuficiente;;
    ret (false, self)
  else if (0 <? valor)%float then
    let self := com_saldo (_saldo self - valor)%float self in
    print MsgSaqueSucesso;;
    ret (true, self)
  else
    print MsgValorInvalido;;
    ret (false, self).

(** Conta.depositar *)
Definition Conta_depositar (self : Conta) (valor : PrimFloat.float) : IO (bool * Conta) :=
  if (0 <? valor)%float then
    let self := com_saldo (_saldo self + valor)%float self in
    print MsgDepositoSucesso;;
    ret (true, self)
  else
    print MsgValorInvalido;;
    ret (false, self).

(** ContaCorrente.__init__, with its defaults limite=500, limite_saques=3
    when the arguments are absent. *)
Definition ContaCorrente_init (numero : Z) (cliente : nat)
    (limite : option PrimFloat.float) (limite_saques : option Z) : ContaCorrente :=
  mkContaCorrente (Conta_init numero cliente)
    (default 500%float limite) (default 3 limite_saques).

(** ContaCorrente.nova_conta: the classmethod inherited from Conta, [cls]
    being ContaCorrente. *)
Definition ContaCorrente_nova_conta (cliente : nat) (numero : Z) : ContaCorrente :=
  ContaCorrente_init numero cliente None None.

(** The withdrawals recorded in a history: the list comprehension of
    ContaCorrente.sacar. *)
Definition saques_registrados (h : Historico) : list Registro :=
  filter (fun transacao => tipo transacao = class_name (Saque 0)) (_transacoes h).

(** ContaCorrente.sacar *)
Definition ContaCorrente_sacar (self : ContaCorrente) (valor : PrimFloat.float)
    : IO (bool * ContaCorrente) :=
  let numero_saques := Z.of_nat (length (saques_registrados (_historico (super self)))) in
  let excedeu_limite := (_limite self <? valor)%float in
  let excedeu_saques := _limite_saques self <=? numero_saques in
  if excedeu_limite then
    print MsgExcedeuLimite;;
    ret (false, self)
  else if excedeu_saques then
    print MsgExcedeuSaques;;
    ret (false, self)
  else
    '(r, c) ← Conta_sacar (super self) valor;
    ret (r, mkContaCorrente c (_limite self) (_limite_saques self)).

(** Historico.adicionar_transacao *)
Definition adicionar_transacao (self : Historico) (transacao : Transacao)
    : IO Historico :=
  agora ← datetime_now;
  ret (mkHistorico (_transacoes self ++
         [mkRegistro (class_name transacao) (Transacao_valor transacao) agora])).

(** Attribute access and method dispatch on an account object. *)
Definition base (conta : Objeto) : Conta :=
  match conta with DeConta c => c | DeContaCorrente cc => super cc end.

Definition com_base (c : Conta) (conta : Objeto) : Objeto :=
  match conta with
  | DeConta _ => DeConta c
  | DeContaCorrente cc => DeContaCorrente (mkContaCorrente c (_limite cc) (_limite_saques cc))
  end.

Definition saldo (conta : Objeto) : PrimFloat.float := _saldo (base conta).
Definition numero (conta : Objeto) : Z := _numero (base conta).
Definition agencia (conta : Objeto) : string := _agencia (base conta).
Definition cliente (conta : Objeto) : nat := _cliente (base conta).
Definition historico (conta : Objeto) : Historico := _historico (base conta).
Definition transacoes (conta : Objeto) : list Registro := _transacoes (historico conta).

(** conta.sacar(valor) *)
Definition conta_sacar (conta : Objeto) (valor : PrimFloat.float) : IO (bool * Objeto) :=
  match conta with
  | DeConta c =>
      '(r, c') ← Conta_sacar c valor; ret (r, DeConta c')
  | DeContaCorrente cc =>
      '(r, cc') ← ContaCorrente_sacar cc valor; ret (r, DeContaCorrente cc')
  end.

(** conta.depositar(valor): ContaCorrente inherits Conta.depositar. *)
Definition conta_depositar (conta : Objeto) (valor : PrimFloat.float) : IO (bool * Objeto) :=
  '(r, c') ← Conta_depositar (base conta) valor;
  ret (r, com_base c' conta).

(** Saque.registrar and Deposito.registrar.  The Python methods return
    None; the model returns the account as the call leaves it. *)
Definition registrar (self : Transacao) (conta : Objeto) : IO Objeto :=
  match self with
  | Saque _ =>
      '(sucesso_transacao, conta) ← conta_sacar conta (Transacao_valor self);
      if (sucesso_transacao : bool) then
        h ← adicionar_transacao (historico conta) self;
        ret (com_base (com_historico h (base conta)) conta)
      else ret conta
  | Deposito _ =>
      '(sucesso_transacao, conta) ← conta_depositar conta (Transacao_valor self);
      if (sucesso_transacao : bool) then
        h ← adicionar_transacao (historico conta) self;
        ret (com_base (com_historico h (base conta)) conta)
      else ret conta
  end.

(** Cliente.realizar_transacao: [conta] is a reference; the object it
    names is mutated in place.  Every reference the program holds names an
    allocated object, so the second branch is never taken. *)
Definition realizar_transacao (conta : nat) (transacao : Transacao) : IO unit :=
  o ← ler_objeto conta;
  match o with
  | Some obj => obj' ← registrar transacao obj; gravar_objeto conta obj'
  | None => ret tt
  end.

(** Cliente.adicionar_conta *)
Definition adicionar_conta (self : PessoaFisica) (conta : nat) : PessoaFisica :=
  mkPessoaFisica (endereco self) (contas self ++ [conta]) (nome self)
    (data_nascimento self) (cpf self).

(** PessoaFisica.__init__ *)
Definition PessoaFisica_init (nome data_nascimento cpf endereco : string) : PessoaFisica :=
  mkPessoaFisica endereco [] nome data_nascimento cpf.

(* ===================================================================== *)
(** ** The functions of the menu *)
(* ===================================================================== *)

(** The list comprehension of filtrar_cliente, each customer with its
    position in [clientes]. *)
Definition clientes_filtrados (cpf' : string) (clientes : list PessoaFisica)
    : list (nat * PessoaFisica) :=
  filter (fun ic => cpf ic.2 = cpf') (imap pair clientes).

(** filtrar_cliente *)
Definition filtrar_cliente (cpf' : string) (clientes : list PessoaFisica)
    : option (nat * PessoaFisica) :=
  head (clientes_filtrados cpf' clientes).

(** criar_cliente: the list [clientes] as the call leaves it. *)
Definition criar_cliente (clientes : list PessoaFisica) : IO (list PessoaFisica) :=
  cpf ← input;
  match filtrar_cliente cpf clientes with
  | Some _ =>
      print MsgClienteJaExiste;;
      ret clientes
  | None =>
      nome ← input;
      data_nascimento ← input;
      endereco ← input;
      let cliente := PessoaFisica_init nome data_nascimento cpf endereco in
      let clientes := clientes ++ [cliente] in
      print MsgClienteCriado;;
      ret clientes
  end.

(** criar_conta: the returned account (None when the customer is not
    found) and the list [clientes] as the call leaves it. *)
Definition criar_conta (numero_conta : Z) (clientes : list PessoaFisica)
    : IO (option nat * list PessoaFisica) :=
  cpf ← input;
  match filtrar_cliente cpf clientes with
  | None =>
      print MsgClienteNaoEncontrado;;
      ret (None, clientes)
  | Some (i, cliente) =>
      conta ← novo_objeto (DeContaCorrente (ContaCorrente_nova_conta i numero_conta));
      let clientes := <[i := adicionar_conta cliente conta]> clientes in
      print MsgContaCriada;;
      ret (Some conta, clientes)
  end.

(** listar_contas *)
Fixpoint listar_cada (contas : list nat) : IO unit :=
  match contas with
  | [] => ret tt
  | conta :: resto =>
      o ← ler_objeto conta;
      match o with
      | Some obj => print (MsgConta (agencia obj) (numero obj) (cliente obj))
      | None => ret tt
      end;;
      listar_cada resto
  end.

Definition listar_contas (contas : list nat) : IO unit :=
  match contas with
  | [] => print MsgNenhumaConta
  | _ => listar_cada contas
  end.

(** menu *)
Definition menu : IO string := input.

Section Menu.

(** [float(...)] and [int(...)] on a line of input; [None] is ValueError.
    Python's [float] reads decimal numbers and also the words for infinity
    and nan.  Every property below holds whatever these two parsers
    accept. *)
Variable float : string -> option PrimFloat.float.
Variable int : string -> option Z.

(** The text of a float under the format [:.2f], l.369 and l.372. *)
Variable formato_2f : PrimFloat.float -> string.

(** The [for] loop of recuperar_conta_cliente, l.287-288. *)
Fixpoint imprimir_opcoes (i : Z) (contas : list nat) : IO unit :=
  match contas with
  | [] => ret tt
  | conta :: resto =>
      o ← ler_objeto conta;
      match o with
      | Some obj => print (MsgOpcaoConta (i + 1) (numero obj))
      | None => ret tt
      end;;
      imprimir_opcoes (i + 1) resto
  end.

(** The [while True] loop of recuperar_conta_cliente, l.290-298: one turn
    for each line read, until a line names an account of the list. *)
Fixpoint escolher_conta (contas : list nat) (entrada : list string) (w : World)
    : Resultado (option nat) :=
  match entrada with
  | [] => Levanta EOFError w
  | linha :: resto =>
      let w := mkWorld resto (stdout w) (relogio w) (heap w) in
      match int linha with
      | Some escolha =>
          if (1 <=? escolha) && (escolha <=? Z.of_nat (length contas)) then
            Retorna (contas !! Z.to_nat (escolha - 1)) w
          else
            escolher_conta contas resto (imprime MsgOpcaoInvalida w)
      | None =>
          escolher_conta contas resto (imprime MsgEntradaInvalida w)
      end
  end.

Definition ler_escolha (contas : list nat) : IO (option nat) :=
  fun w => escolher_conta contas (stdin w) w.

(** recuperar_conta_cliente *)
Definition recuperar_conta_cliente (cliente : PessoaFisica) : IO (option nat) :=
  match contas cliente with
  | [] =>
      print MsgClienteSemConta;;
      ret None
  | [conta] => ret (Some conta)
  | _ =>
      print MsgEscolhaConta;;
      imprimir_opcoes 0 (contas cliente);;
      ler_escolha (contas cliente)
  end.

(** depositar(clientes) *)
Definition depositar (clientes : list PessoaFisica) : IO unit :=
  cpf ← input;
  match filtrar_cliente cpf clientes with
  | None => print MsgClienteNaoEncontrado
  | Some (_, cliente) =>
      linha ← input;
      match float linha with
      | None => print MsgDepositoCancelado
      | Some valor =>
          let transacao := Deposito valor in
          conta ← recuperar_conta_cliente cliente;
          match conta with
          | None => ret tt
          | Some conta => realizar_transacao conta transacao
          end
      end
  end.

(** sacar(clientes) *)
Definition sacar (clientes : list PessoaFisica) : IO unit :=
  cpf ← input;
  match filtrar_cliente cpf clientes with
  | None => print MsgClienteNaoEncontrado
  | Some (_, cliente) =>
      linha ← input;
      match float linha with
      | None => print MsgSaqueCancelado
      | Some valor =>
          let transacao := Saque valor in
          conta ← recuperar_conta_cliente cliente;
          match conta with
          | None => ret tt
          | Some conta => realizar_transacao conta transacao
          end
      end
  end.

(** One entry of the history in the text [extrato], l.369. *)
Definition linha_do_extrato (transacao : Registro) : string * string * string :=
  (tipo transacao, formato_2f (valor transacao), data transacao).

(** exibir_extrato *)
Definition exibir_extrato (clientes : list PessoaFisica) : IO unit :=
  cpf ← input;
  match filtrar_cliente cpf clientes with
  | None => print MsgClienteNaoEncontrado
  | Some (_, cliente) =>
      conta ← recuperar_conta_cliente cliente;
      match conta with
      | None => ret tt
      | Some conta =>
          o ← ler_objeto conta;
          match o with
          | Some obj =>
              print (MsgExtrato (linha_do_extrato <$> transacoes obj)
                       (formato_2f (saldo obj)))
          | None => ret tt
          end
      end
  end.

(** One turn of the [while True] loop of main, on its two lists.  The
    boolean tells whether the loop goes on ([false] is [break]). *)
Definition main_iteracao (clientes : list PessoaFisica) (contas : list nat)
    : IO (bool * list PessoaFisica * list nat) :=
  opcao ← menu;
  if decide (opcao = "d"%string) then
    depositar clientes;; ret (true, clientes, contas)
  else if decide (opcao = "s"%string) then
    sacar clientes;; ret (true, clientes, contas)
  else if decide (opcao = "e"%string) then
    exibir_extrato clientes;; ret (true, clientes, contas)
  else if decide (opcao = "nu"%string) then
    clientes ← criar_cliente clientes;
    ret (true, clientes, contas)
  else if decide (opcao = "nc"%string) then
    let numero_conta := Z.of_nat (length contas) + 1 in
    '(nova_conta, clientes) ← criar_conta numero_conta clientes;
    match nova_conta with
    | Some nova_conta => ret (true, clientes, contas ++ [nova_conta])
    | None => ret (true, clientes, contas)
    end
  else if decide (opcao = "lc"%string) then
    listar_contas contas;; ret (true, clientes, contas)
  else if decide (opcao = "q"%string) then
    print MsgSaindo;; ret (false, clientes, contas)
  else
    print MsgOperacaoInvalida;; ret (true, clientes, contas).

(** Where a run of main stands. *)
Inductive Andamento : Type :=
  | Rodando (clientes : list PessoaFisica) (contas : list nat) (w : World)
  | Saiu (clientes : list PessoaFisica) (contas : list nat) (w : World)
  | Abortou (e : Excecao) (w : World).

(** The loop of main, followed for at most [n] turns. *)
Fixpoint main_loop (n : nat) (clientes : list PessoaFisica) (contas : list nat)
    (w : World) : Andamento :=
  match n with
  | O => Rodando clientes contas w
  | S n =>
      match main_iteracao clientes contas w with
      | Retorna (true, clientes, contas) w => main_loop n clientes contas w
      | Retorna (false, clientes, contas) w => Saiu clientes contas w
      | Levanta e w => Abortou e w
      end
  end.

(** main, from the start of the process: both lists empty, nothing
    printed, no object allocated. *)
Definition main (n : nat) (entrada : list string) (relogio : nat -> string)
    : Andamento :=
  main_loop n [] [] (mkWorld entrada [] relogio []).

End Menu.

(* ===================================================================== *)
(** ** Sequences of operations on one account *)
(* ===================================================================== *)

(** What a caller can do to an account: call one of its two methods, or
    hand it to the [registrar] of a transaction. *)
Inductive Operacao : Type :=
  | Op_sacar (valor : PrimFloat.float)       (* conta.sacar(valor) *)
  | Op_depositar (valor : PrimFloat.float)   (* conta.depositar(valor) *)
  | Op_registrar (t : Transacao).            (* t.registrar(conta) *)

(** The method call that [t.registrar(conta)] makes, l.231 and l.247. *)
Definition chamada (t : Transacao) (conta : Objeto) : IO (bool * Objeto) :=
  match t with
  | Saque v => conta_sacar conta v
  | Deposito v => conta_depositar conta v
  end.

(** What a method call returns in a given world, without its effects. *)
Definition retorno {A} (m : IO (bool * A)) (w : World) : bool :=
  match m w with
  | Retorna (r, _) _ => r
  | Levanta _ _ => false
  end.

(** One operation.  Beside the account the operation leaves, the result
    holds the flag of success: the value returned by the method, and for
    [registrar], which returns None, the value of [sucesso_transacao]. *)
Definition executar (op : Operacao) (conta : Objeto) : IO (bool * Objeto) :=
  match op with
  | Op_sacar v => conta_sacar conta v
  | Op_depositar v => conta_depositar conta v
  | Op_registrar t =>
      fun w => match registrar t conta w with
               | Retorna conta' w' => Retorna (retorno (chamada t conta) w, conta') w'
               | Levanta e w' => Levanta e w'
               end
  end.

(** A sequence of operations on the same account object: for each one, its
    flag and the account just after it. *)
Fixpoint executar_todas (ops : list Operacao) (conta : Objeto)
    : IO (list (bool * Objeto)) :=
  match ops with
  | [] => ret []
  | op :: ops =>
      '(r, conta') ← executar op conta;
      passos ← executar_todas ops conta';
      ret ((r, conta') :: passos)
  end.

(** The account after the last step. *)
Definition estado_final (conta : Objeto) (passos : list (bool * Objeto)) : Objeto :=
  default conta (last passos.*2).

(** The operations of a sequence that succeeded, in order. *)
Definition sucedidas (ops : list Operacao) (passos : list (bool * Objeto))
    : list Operacao :=
  (filter (fun p => p.2.1 = true) (zip ops passos)).*1.

(** The amount of an operation. *)
Definition valor_de (op : Operacao) : PrimFloat.float :=
  match op with
  | Op_sacar v | Op_depositar v => v
  | Op_registrar t => Transacao_valor t
  end.

(** The operations that withdraw; the others deposit. *)
Definition e_saque (op : Operacao) : bool :=
  match op with
  | Op_sacar _ | Op_registrar (Saque _) => true
  | _ => false
  end.

(** The balance an operation that succeeds leaves: [self._saldo -= valor],
    l.118, or [self._saldo += valor], l.128, each one operation of
    binary64. *)
Definition novo_saldo (op : Operacao) (s : PrimFloat.float) : PrimFloat.float :=
  if e_saque op then (s - valor_de op)%float else (s + valor_de op)%float.

(** The balance after the operations of a list, applied one after the
    other from a balance [s]. *)
Definition saldo_apos (s : PrimFloat.float) (ops : list Operacao) : PrimFloat.float :=
  fold_left (fun s op => novo_saldo op s) ops s.

(** The words "sum of the deposits minus sum of the withdrawals": the
    amounts deposited and the amounts withdrawn by a list of operations,
    the sum of a list of amounts, and the difference of the two sums. *)
Definition depositos (ops : list Operacao) : list PrimFloat.float :=
  valor_de <$> filter (fun op => e_saque op = false) ops.

Definition saques (ops : list Operacao) : list PrimFloat.float :=
  valor_de <$> filter (fun op => e_saque op = true) ops.

Definition soma (l : list PrimFloat.float) : PrimFloat.float :=
  foldr PrimFloat.add 0%float l.

Definition depositos_menos_saques (ops : list Operacao) : PrimFloat.float :=
  (soma (depositos ops) - soma (saques ops))%float.

(** The transactions an operation hands to [registrar]. *)
Definition transacao_de (op : Operacao) : list Transacao :=
  match op with
  | Op_registrar t => [t]
  | _ => []
  end.

(** What a history entry says of its transaction, the time apart. *)
Definition resumo (r : Registro) : string * PrimFloat.float := (tipo r, valor r).
Definition resumo_transacao (t : Transacao) : string * PrimFloat.float :=
  (class_name t, Transacao_valor t).

(** The number of withdrawals an account has on record. *)
Definition numero_saques (conta : Objeto) : Z :=
  Z.of_nat (length (saques_registrados (historico conta))).

(** The two checks ContaCorrente.sacar makes before it calls Conta.sacar
    (neither [excedeu_limite] nor [excedeu_saques]); Conta.sacar makes
    none. *)
Definition passa_validacoes (conta : Objeto) (valor : PrimFloat.float) : bool :=
  match conta with
  | DeConta _ => true
  | DeContaCorrente cc =>
      negb (_limite cc <? valor)%float && negb (_limite_saques cc <=? numero_saques conta)
  end.

(** The account with its balance replaced, and with an entry appended to
    its history. *)
Definition com_saldo_de (s : PrimFloat.float) (conta : Objeto) : Objeto :=
  com_base (com_saldo s (base conta)) conta.

Definition com_registro (r : Registro) (conta : Objeto) : Objeto :=
  com_base (com_historico (mkHistorico (transacoes conta ++ [r])) (base conta)) conta.

(** An account as its constructor leaves it. *)
Definition recem_criada (conta : Objeto) : Prop :=
  (exists numero cliente, conta = DeConta (Conta_init numero cliente)) \/
  (exists numero cliente limite limite_saques,
      conta = DeContaCorrente (ContaCorrente_init numero cliente limite limite_saques)).

(** The transactions of a sequence that [registrar] applied with success,
    in order. *)
Definition registradas (ops : list Operacao) (passos : list (bool * Objeto))
    : list Transacao :=
  sucedidas ops passos ≫= transacao_de.

(** The entry written for a transaction at a reading of the clock. *)
Definition registro_de (t : Transacao) (d : string) : Registro :=
  mkRegistro (class_name t) (Transacao_valor t) d.

(** A checking account whose recorded withdrawals have reached its
    maximum. *)
Definition saques_esgotados (conta : Objeto) : Prop :=
  match conta with
  | DeContaCorrente cc => _limite_saques cc <= numero_saques conta
  | DeConta _ => False
  end.

(* ===================================================================== *)
(** ** One operation in closed form *)
(* ===================================================================== *)

(** Whether an operation succeeds on an account, and the account it leaves
    when it does ([d] is the reading of the clock); [executar_eq] below
    derives both from the methods. *)
Definition aceita (op : Operacao) (conta : Objeto) : bool :=
  match op with
  | Op_sacar v | Op_registrar (Saque v) =>
      passa_validacoes conta v && negb (saldo conta <? v)%float && (0 <? v)%float
  | Op_depositar v | Op_registrar (Deposito v) => (0 <? v)%float
  end.

Definition efeito (op : Operacao) (d : string) (conta : Objeto) : Objeto :=
  let conta' := com_saldo_de (novo_saldo op (saldo conta)) conta in
  match op with
  | Op_registrar t =>
      com_registro (mkRegistro (class_name t) (Transacao_valor t) d) conta'
  | _ => conta'
  end.

Definition proximo (op : Operacao) (d : string) (conta : Objeto) : Objeto :=
  if aceita op conta then efeito op d conta else conta.

(** Whether the operation reads the clock: a transaction that succeeds. *)
Definition le_relogio (op : Operacao) (conta : Objeto) : bool :=
  match op with
  | Op_registrar _ => aceita op conta
  | _ => false
  end.

Definition mundo_apos (op : Operacao) (conta : Objeto) (m : Message) (w : World) : World :=
  if le_relogio op conta then tique (imprime m w) else imprime m w.

(** A world and a fresh checking account for the concrete runs. *)
Definition mundo_vazio : World := mkWorld [] [] (fun _ => "03-11-2026 10:00:00"%string) [].

Definition conta_nova : Objeto := DeContaCorrente (ContaCorrente_nova_conta 0 1).

(** A base account with balance 100, and a checking account with balance
    970 after a deposit of 1000 and three withdrawals of 10. *)
Definition conta_de_100 : Objeto := DeConta (mkConta 100 1 "0001" 0 (mkHistorico [])).

Definition conta_com_tres_saques : ContaCorrente :=
  mkContaCorrente
    (mkConta 970 1 "0001" 0
       (mkHistorico
          [mkRegistro "Deposito" 1000 "03-11-2026 10:00:00";
           mkRegistro "Saque" 10 "03-11-2026 10:00:00";
           mkRegistro "Saque" 10 "03-11-2026 10:00:00";
           mkRegistro "Saque" 10 "03-11-2026 10:00:00"]))
    500 3.

(** Two floats where binary64 has no room for a unit: above 2^53 the
    floats are 2 apart, above 2^54 they are 4 apart. *)
Definition dois_a_53 : PrimFloat.float := 9007199254740992%float.
Definition dois_a_54 : PrimFloat.float := 18014398509481984%float.

(** A base account with balance 2^54. *)
Definition conta_de_dois_a_54 : Conta := mkConta dois_a_54 1 "0001" 0 (mkHistorico []).

(** A customer for the concrete runs of the menu. *)
Definition ana : PessoaFisica := PessoaFisica_init "Ana" "01-01-2000" "123" "Rua A".

(* ===================================================================== *)
(** ** Binary64: the sign of a float *)
(* ===================================================================== *)

(** The floats [x] with [0 <= x], with [0 < x] and with [x < infinity], read
    on the specification of binary64: neither holds of nan.  The floats
    for which [x < 0] is false are those with [0 <= x] and nan. *)
Definition nao_negativo (x : spec_float) : Prop :=
  match x with
  | S754_zero _ | S754_infinity false | S754_finite false _ _ => True
  | _ => False
  end.

Definition positivo (x : spec_float) : Prop :=
  match x with
  | S754_infinity false | S754_finite false _ _ => True
  | _ => False
  end.

Definition abaixo_de_infinito (x : spec_float) : Prop :=
  match x with
  | S754_zero _ | S754_infinity true | S754_finite _ _ _ => True
  | _ => False
  end.


(** An account whose withdrawals have a finite bound: a checking account
    with a limit below infinity (the default 500 is one). *)
Definition limite_finito (conta : Objeto) : bool :=
  match conta with
  | DeContaCorrente cc => (_limite cc <? infinity)%float
  | DeConta _ => false
  end.

(** An operation that does not ask to withdraw infinity. *)
Definition saque_finito (op : Operacao) : Prop :=
  e_saque op = true -> (valor_de op <? infinity)%float = true.

(** Whether an operation succeeds when the test of the balance is left
    out: the checks of the class and [valor > 0] for a withdrawal,
    [valor > 0] for a deposit. *)
Definition aceita_sem_saldo (op : Operacao) (conta : Objeto) : bool :=
  if e_saque op then passa_validacoes conta (valor_de op) && (0 <? valor_de op)%float
  else (0 <? valor_de op)%float.

(** A base account whose balance is nan. *)
Definition conta_de_nan : Objeto := DeConta (mkConta nan 1 "0001" 0 (mkHistorico [])).

(** Amounts each of which is within the balance that the withdrawals
    before it leave of [s]. *)
Fixpoint cabem_no_saldo (s : PrimFloat.float) (valores : list PrimFloat.float) : Prop :=
  match valores with
  | [] => True
  | v :: valores => (s <? v)%float = false /\ cabem_no_saldo (s - v)%float valores
  end.

(* ===================================================================== *)
(** ** The state of main *)
(* ===================================================================== *)

(** The heap holds, at address [i], the account numbered [i + 1]. *)
Definition heap_numerado (h : list Objeto) : Prop :=
  forall i obj, h !! i = Some obj -> numero obj = Z.of_nat i + 1.

Definition numerado (n : nat) (h : list Objeto) : Prop :=
  length h = n /\ heap_numerado h.

(** The numbers of the accounts of a list of references, in the order of
    the list; [None] if a reference names no object. *)
Definition numeros_das_contas (contas : list nat) (w : World) : option (list Z) :=
  mapM (fun r => numero <$> heap w !! r) contas.

(** A property of the two lists of main and the world, wherever the run
    stands; after an exception the process is gone and nothing is left to
    state. *)
Definition em_todo_estado (P : list PessoaFisica -> list nat -> World -> Prop)
    (a : Andamento) : Prop :=
  match a with
  | Rodando clientes contas w | Saiu clientes contas w => P clientes contas w
  | Abortou _ _ => True
  end.

(** What the loop of main keeps true. *)
Definition invariante (clientes : list PessoaFisica) (contas : list nat) (w : World) : Prop :=
  contas = seq 0 (length (heap w)) /\
  heap_numerado (heap w) /\
  NoDup (cpf <$> clientes).

(** A computation keeps a property of the heap, however it ends. *)
Definition mantem {A} (P : list Objeto -> Prop) (m : IO A) : Prop :=
  forall w, P (heap w) ->
    match m w with
    | Retorna _ w' => P (heap w')
    | Levanta _ w' => P (heap w')
    end.

(* ===================================================================== *)
(** ** Accounts under sequences of operations: what is kept *)
(* ===================================================================== *)

(** The two limits of a checking account; a base account has none. *)
Definition limites (conta : Objeto) : option (PrimFloat.float * Z) :=
  match conta with
  | DeConta _ => None
  | DeContaCorrente cc => Some (_limite cc, _limite_saques cc)
  end.

(** The fields no method assigns after construction. *)
Definition mesma_identidade (conta conta' : Objeto) : Prop :=
  numero conta' = numero conta /\
  agencia conta' = agencia conta /\
  cliente conta' = cliente conta /\
  limites conta' = limites conta.

(** What a history entry does to a balance when it is applied again: a
    Deposito adds its amount, a Saque subtracts it, each in binary64. *)
Definition lancar (s : PrimFloat.float) (r : Registro) : PrimFloat.float :=
  if decide (tipo r = "Deposito"%string) then (s + valor r)%float
  else if decide (tipo r = "Saque"%string) then (s - valor r)%float
  else s.

(** The balance that the entries of a history give when they are applied
    in their order to a balance [s]. *)
Definition liquido (s : PrimFloat.float) (h : list Registro) : PrimFloat.float :=
  fold_left lancar h s.

(** An account whose history from [h0] on accounts for its balance from
    [s0] on. *)
Definition acompanha (s0 : PrimFloat.float) (h0 : list Registro) (conta : Objeto) : Prop :=
  exists novas, transacoes conta = h0 ++ novas /\ saldo conta = liquido s0 novas.

(** The operations that go through [registrar]. *)
Definition e_registro (op : Operacao) : bool :=
  match op with
  | Op_registrar _ => true
  | _ => false
  end.

(** What every entry written by [registrar] satisfies: an amount greater
    than 0, the name of one of the two classes, and for a withdrawal of a
    checking account an amount that does not exceed the limit, which is an
    amount [<=] the limit unless the limit is nan. *)
Definition registro_regular (conta : Objeto) (r : Registro) : Prop :=
  (0 <? valor r)%float = true /\
  (tipo r = "Saque"%string \/ tipo r = "Deposito"%string) /\
  (forall l n, limites conta = Some (l, n) -> tipo r = "Saque"%string ->
     (l <? valor r)%float = false /\
     ((l =? l)%float = true -> (valor r <=? l)%float = true)).

(** A history made of such entries, with no more withdrawals than the
    maximum of a checking account. *)
Definition historico_regular (conta : Objeto) : Prop :=
  Forall (registro_regular conta) (transacoes conta) /\
  (forall l n, limites conta = Some (l, n) -> numero_saques conta <= n).

(* ===================================================================== *)
(** ** The menu: what a turn of main can do *)
(* ===================================================================== *)

(** What the choice loop of recuperar_conta_cliente answers to a line that
    names no account of a list of [n]: the message printed, or [None] when
    the line is accepted. *)
Definition recusa (int : string -> option Z) (n : nat) (linha : string) : option Message :=
  match int linha with
  | Some escolha =>
      if (1 <=? escolha) && (escolha <=? Z.of_nat n) then None else Some MsgOpcaoInvalida
  | None => Some MsgEntradaInvalida
  end.

(** The steps by which the two lists of main and the heap change: nothing;
    one account of a customer of the list replaced by what the [registrar]
    of a transaction leaves; a customer with a new CPF and no account added
    at the end; a fresh checking account allocated, numbered by the length
    of [contas] plus 1, and added at the end of [contas] and of the accounts
    of a customer of the list. *)
Inductive transicao (clientes : list PessoaFisica) (contas' : list nat) (h : list Objeto)
    : list PessoaFisica -> list nat -> list Objeto -> Prop :=
  | T_nada : transicao clientes contas' h clientes contas' h
  | T_transacao (i : nat) (c : PessoaFisica) (r : nat) (obj obj' : Objeto)
      (t : Transacao) (w w' : World) :
      clientes !! i = Some c ->
      r ∈ contas c ->
      h !! r = Some obj ->
      registrar t obj w = Retorna obj' w' ->
      transicao clientes contas' h clientes contas' (<[r := obj']> h)
  | T_cliente (c : PessoaFisica) :
      (cpf c ∉ (cpf <$> clientes)) ->
      contas c = [] ->
      transicao clientes contas' h (clientes ++ [c]) contas' h
  | T_conta (i : nat) (c : PessoaFisica) :
      clientes !! i = Some c ->
      transicao clientes contas' h
        (<[i := adicionar_conta c (length h)]> clientes)
        (contas' ++ [length h])
        (h ++ [DeContaCorrente
                 (ContaCorrente_nova_conta i (Z.of_nat (length contas') + 1))]).

(** Customers and accounts agree: every reference a customer holds names an
    allocated account whose owner is that customer, no customer holds a
    reference twice, and every allocated account is held by its owner. *)
Definition contas_e_titulares (clientes : list PessoaFisica) (h : list Objeto) : Prop :=
  (forall i c r, clientes !! i = Some c -> r ∈ contas c ->
     exists obj, h !! r = Some obj /\ cliente obj = i) /\
  (forall r obj, h !! r = Some obj ->
     exists c, clientes !! cliente obj = Some c /\ r ∈ contas c) /\
  (forall i c, clientes !! i = Some c -> NoDup (contas c)).

(** What holds of every account main creates and operates: the limits of
    the constructor, a regular history, a balance that the entries of the
    history give when applied in order from 0, and that is not below 0. *)
Definition conta_de_main (obj : Objeto) : Prop :=
  limites obj = Some (500%float, 3) /\
  agencia obj = "0001"%string /\
  historico_regular obj /\
  saldo obj = liquido 0 (transacoes obj) /\
  (0 <=? saldo obj)%float = true.

(** From one world to a later one the input is only consumed and the
    output only extended. *)
Definition avanca (w w' : World) : Prop :=
  stdin w' `suffix_of` stdin w /\ stdout w `prefix_of` stdout w'.

(** One turn of main, from its two lists and world to the next ones. *)
Definition turno (clientes : list PessoaFisica) (contas' : list nat) (w : World)
    (clientes' : list PessoaFisica) (contas'' : list nat) (w' : World) : Prop :=
  avanca w w' /\
  (length (stdin w') < length (stdin w))%nat /\
  transicao clientes contas' (heap w) clientes' contas'' (heap w').

(** A parser of account choices for the concrete runs: the digits 1, 2
    and 9. *)
Definition int_exemplo (s : string) : option Z :=
  if decide (s = "1"%string) then Some 1
  else if decide (s = "2"%string) then Some 2
  else if decide (s = "9"%string) then Some 9
  else None.

(** A statement printed by exibir_extrato for a regular history: its lines
    are those of the entries of a history, each amount greater than 0, and
    the balance it shows is the text of the balance those entries give
    when applied in order from 0; any other message. *)
Definition extrato_confere (formato_2f : PrimFloat.float -> string) (m : Message) : Prop :=
  match m with
  | MsgExtrato linhas saldo =>
      exists h,
        linhas = linha_do_extrato formato_2f <$> h /\
        saldo = formato_2f (liquido 0 h) /\
        Forall (fun r => (0 <? valor r)%float = true) h /\
        (0 <=? liquido 0 h)%float = true
  | _ => True
  end.

(** A computation keeps a property of all the messages printed. *)
Definition saida {A} (P : Message -> Prop) (m : IO A) : Prop :=
  forall w, Forall P (stdout w) ->
    match m w with
    | Retorna _ w' => Forall P (stdout w')
    | Levanta _ w' => Forall P (stdout w')
    end.

(** A parser of amounts for the concrete runs: the amounts 100, 30, 1 and
    2^54, and the two words Python's [float] reads as infinity and nan. *)
Definition float_exemplo (s : string) : option PrimFloat.float :=
  if decide (s = "100"%string) then Some 100%float
  else if decide (s = "30"%string) then Some 30%float
  else if decide (s = "1"%string) then Some 1%float
  else if decide (s = "18014398509481984"%string) then Some dois_a_54
  else if decide (s = "inf"%string) then Some infinity
  else if decide (s = "nan"%string) then Some nan
  else None.

(** The text of [:.2f] for the amounts of the concrete runs, and a question
    mark for any other. *)
Definition formato_exemplo (x : PrimFloat.float) : string :=
  if (x =? 100)%float then "100.00"
  else if (x =? 70)%float then "70.00"
  else if (x =? 30)%float then "30.00"
  else if (x =? 1)%float then "1.00"
  else if (x =? dois_a_54)%float then "18014398509481984.00"
  else "?".

(** The customer of the concrete runs with one account, at address 0. *)
Definition ana_com_conta : PessoaFisica := adicionar_conta ana 0.

(* ===================================================================== *)
(** ** Binary64: comparisons with 0 and infinity, sums and differences *)
(* ===================================================================== *)

Lemma Prim2SF_zero : Prim2SF 0 = S754_zero false.
Proof. reflexivity. Qed.

Lemma Prim2SF_infinity : Prim2SF infinity = S754_infinity false.
Proof. reflexivity. Qed.

Lemma leb_zero (y : PrimFloat.float) :
  (0 <=? y)%float = true <-> nao_negativo (Prim2SF y).
Proof.
  rewrite leb_spec, Prim2SF_zero.
  destruct (Prim2SF y) as [[]|[]| |[] m e]; cbn; intuition congruence.
Qed.

Lemma ltb_zero (x : PrimFloat.float) :
  (0 <? x)%float = true <-> positivo (Prim2SF x).
Proof.
  rewrite ltb_spec, Prim2SF_zero.
  destruct (Prim2SF x) as [[]|[]| |[] m e]; cbn; intuition congruence.
Qed.

Lemma ltb_infinity (x : PrimFloat.float) :
  (x <? infinity)%float = true <-> abaixo_de_infinito (Prim2SF x).
Proof.
  rewrite ltb_spec, Prim2SF_infinity.
  destruct (Prim2SF x) as [[]|[]| |[] m e]; cbn; intuition congruence.
Qed.

(** An amount that is [<= 0] is not [> 0]; nan is neither. *)
Lemma leb_zero_ltb (x : PrimFloat.float) :
  (x <=? 0)%float = true -> (0 <? x)%float = false.
Proof.
  rewrite leb_spec, ltb_spec, Prim2SF_zero.
  destruct (Prim2SF x) as [[]|[]| |[] m e]; cbn; congruence.
Qed.

(** Rounding keeps the sign: the shifts and the rounding of a mantissa that
    is not negative give one that is not negative. *)
Lemma shr_1_nonneg (mrs : shr_record) : 0 <= shr_m mrs -> 0 <= shr_m (shr_1 mrs).
Proof.
  destruct mrs as [m r s]. cbn. destruct m as [|p|p]; [done| |lia].
  destruct p; cbn; lia.
Qed.

Lemma iter_pos_nonneg (p : positive) (mrs : shr_record) :
  0 <= shr_m mrs -> 0 <= shr_m (SpecFloat.iter_pos shr_1 p mrs).
Proof.
  revert mrs. induction p as [p IH|p IH|]; intros mrs H; cbn [SpecFloat.iter_pos].
  - apply IH, IH, shr_1_nonneg, H.
  - apply IH, IH, H.
  - apply shr_1_nonneg, H.
Qed.

Lemma shr_fexp_nonneg (m e : Z) (l : location) :
  0 <= m -> 0 <= shr_m (fst (shr_fexp prec emax m e l)).
Proof.
  intros H. unfold shr_fexp, shr.
  assert (H0 : 0 <= shr_m (shr_record_of_loc m l)) by (destruct l as [|[]]; exact H).
  destruct (_ - e) as [|p|p]; cbn [fst]; [done| |done].
  by apply iter_pos_nonneg.
Qed.

Lemma round_nearest_even_nonneg (m : Z) (l : location) :
  0 <= m -> 0 <= round_nearest_even m l.
Proof.
  intros H. destruct l as [|[]]; cbn; [done| |done|lia]. destruct (Z.even m); lia.
Qed.

Lemma binary_round_aux_nonneg (m e : Z) (l : location) :
  0 <= m -> nao_negativo (binary_round_aux prec emax false m e l).
Proof.
  intros H. unfold binary_round_aux.
  pose proof (shr_fexp_nonneg m e l H) as H1.
  destruct (shr_fexp prec emax m e l) as [mrs' e']. cbn [fst] in H1.
  pose proof (shr_fexp_nonneg _ e' loc_Exact
                (round_nearest_even_nonneg _ (loc_of_shr_record mrs') H1)) as H2.
  destruct (shr_fexp prec emax _ e' loc_Exact) as [mrs'' e'']. cbn [fst] in H2.
  destruct (shr_m mrs'') as [|p|p]; [done| |lia].
  by destruct (_ <=? _).
Qed.

Lemma binary_normalize_nonneg (m e : Z) :
  0 <= m -> nao_negativo (binary_normalize prec emax m e false).
Proof.
  intros H. destruct m as [|p|p]; [done| |lia]. cbn [binary_normalize].
  unfold binary_round. destruct (shl_align _ _ _) as [mz ez].
  by apply binary_round_aux_nonneg.
Qed.

(** [saldo + valor] with [saldo >= 0] and [valor > 0] is [>= 0]; it may be
    infinity. *)
Lemma add_nao_negativo (y x : PrimFloat.float) :
  (0 <=? y)%float = true -> (0 <? x)%float = true -> (0 <=? y + x)%float = true.
Proof.
  rewrite !leb_zero, ltb_zero, add_spec.
  destruct (Prim2SF y) as [sy|[]| |[] my ey]; try done;
    destruct (Prim2SF x) as [sx|[]| |[] mx ex]; try done.
  intros _ _. unfold SF64add, SFadd. apply binary_normalize_nonneg.
  cbn [cond_Zopp]. lia.
Qed.

Lemma digits2_pos_upper (m : positive) : Zpos m < 2 ^ Zpos (digits2_pos m).
Proof.
  induction m as [m IH|m IH|]; cbn [digits2_pos]; [| |done];
    rewrite Pos2Z.inj_succ, Z.pow_succ_r by lia; lia.
Qed.

Lemma digits2_pos_lower (m : positive) : 2 ^ (Zpos (digits2_pos m) - 1) <= Zpos m.
Proof.
  induction m as [m IH|m IH|]; cbn [digits2_pos]; [| |done];
    rewrite Pos2Z.inj_succ;
    replace (Z.succ _ - 1) with (Z.succ (Zpos (digits2_pos m) - 1)) by lia;
    rewrite Z.pow_succ_r by lia; lia.
Qed.

Lemma iter_xO (m d : positive) : Zpos (Pos.iter xO m d) = Zpos m * 2 ^ Zpos d.
Proof.
  induction d as [|d IH] using Pos.peano_ind.
  - cbn. lia.
  - rewrite Pos.iter_succ, Pos2Z.inj_succ, Z.pow_succ_r by lia.
    rewrite Pos2Z.inj_xO, IH. lia.
Qed.

(** The mantissa of a float has at most 53 digits, and exactly 53 above
    the least exponent. *)
Lemma canonico (m : positive) (e : Z) :
  bounded prec emax m e = true ->
  Zpos (digits2_pos m) <= 53 /\ (-1074 < e -> Zpos (digits2_pos m) = 53) /\ -1074 <= e.
Proof.
  unfold bounded, canonical_mantissa, fexp, FloatOps.emin, SpecFloat.emin, prec, emax.
  intros H. apply andb_prop in H as [H _]. apply Z.eqb_eq in H. lia.
Qed.

(** [saldo - valor] with [saldo >= 0], [valor > 0] finite and not
    [valor > saldo] is [>= 0]. *)
Lemma sub_nao_negativo (y x : PrimFloat.float) :
  (0 <=? y)%float = true -> (0 <? x)%float = true ->
  (y <? x)%float = false -> (x <? infinity)%float = true ->
  (0 <=? y - x)%float = true.
Proof.
  rewrite !leb_zero, ltb_zero, ltb_infinity, ltb_spec, sub_spec.
  pose proof (Prim2SF_valid y) as Hvy. pose proof (Prim2SF_valid x) as Hvx.
  destruct (Prim2SF y) as [sy|[]| |[] my ey]; try done;
    destruct (Prim2SF x) as [sx|[]| |[] mx ex]; try done.
  intros _ _ Hcmp _. unfold SF64sub, SFsub. apply binary_normalize_nonneg.
  cbn [cond_Zopp]. cbn [valid_binary] in Hvy, Hvx.
  apply canonico in Hvy as (Hy1 & Hy2 & Hy3). apply canonico in Hvx as (Hx1 & Hx2 & Hx3).
  unfold SFltb, SFcompare in Hcmp. unfold shl_align.
  destruct (Z.compare_spec ey ex) as [->|Hlt|Hgt]; [|done|].
  - rewrite Z.min_id, Z.sub_diag. cbn [fst].
    change (Pos.compare_cont Eq my mx) with (Pos.compare my mx) in Hcmp.
    destruct (Pos.compare_spec my mx); [|done|]; lia.
  - rewrite Z.min_r by lia. rewrite Z.sub_diag. cbn [fst].
    destruct (ex - ey) as [|d|d] eqn:Ed; [lia|lia|]. cbn [fst].
    rewrite iter_xO.
    pose proof (digits2_pos_upper mx) as Hup. pose proof (digits2_pos_lower my) as Hlo.
    rewrite Hy2 in Hlo by lia.
    assert (Hmx : Zpos mx < 2 ^ 53).
    { eapply Z.lt_le_trans; [exact Hup|]. apply Z.pow_le_mono_r; lia. }
    assert (Hd : 2 <= 2 ^ Zpos d).
    { change 2 with (2 ^ 1) at 1. apply Z.pow_le_mono_r; lia. }
    change (53 - 1) with 52 in Hlo.
    assert (H53 : 2 ^ 53 = 2 * 2 ^ 52) by reflexivity.
    nia.
Qed.





(** The order of the floats: [a <= b] excludes [b < a], and for two floats
    that are not nan one of the two holds.  A float is not nan when it is
    equal to itself. *)
Lemma compare_cont_antisym (p q : positive) :
  Pos.compare_cont Eq q p = CompOpp (Pos.compare_cont Eq p q).
Proof. symmetry. apply (Pos.compare_cont_antisym p q Eq). Qed.

Lemma leb_ltb_false (a b : PrimFloat.float) :
  (a <=? b)%float = true -> (b <? a)%float = false.
Proof.
  rewrite leb_spec, ltb_spec. unfold SFleb, SFltb.
  destruct (Prim2SF a) as [[]|[]| |[] ma ea], (Prim2SF b) as [[]|[]| |[] mb eb];
    cbn; try congruence;
    rewrite (Z.compare_antisym ea eb), (compare_cont_antisym ma mb);
    destruct (ea ?= eb), (Pos.compare_cont Eq ma mb); cbn; congruence.
Qed.

Lemma ltb_false_leb (a b : PrimFloat.float) :
  (b <? a)%float = false -> (a =? a)%float = true -> (b =? b)%float = true ->
  (a <=? b)%float = true.
Proof.
  rewrite leb_spec, ltb_spec, !FloatAxioms.eqb_spec. unfold SFleb, SFltb, SFeqb.
  destruct (Prim2SF a) as [[]|[]| |[] ma ea], (Prim2SF b) as [[]|[]| |[] mb eb];
    cbn; try congruence;
    intros H _ _; revert H;
    rewrite (Z.compare_antisym ea eb), (compare_cont_antisym ma mb);
    destruct (ea ?= eb), (Pos.compare_cont Eq ma mb); cbn; congruence.
Qed.

Lemma ltb_zero_eqb (v : PrimFloat.float) :
  (0 <? v)%float = true -> (v =? v)%float = true.
Proof.
  rewrite ltb_zero, FloatAxioms.eqb_spec. unfold SFeqb.
  destruct (Prim2SF v) as [[]|[]| |[] m e]; cbn; try done.
  by rewrite Z.compare_refl, Pos.compare_cont_refl.
Qed.

(** nan: no amount exceeds it, and a sum or a difference from it is nan. *)
Lemma Prim2SF_nan : Prim2SF nan = S754_nan.
Proof. reflexivity. Qed.

Lemma add_nan (v : PrimFloat.float) : (nan + v)%float = nan.
Proof.
  apply Prim2SF_inj. rewrite add_spec, Prim2SF_nan. by destruct (Prim2SF v).
Qed.

Lemma sub_nan (v : PrimFloat.float) : (nan - v)%float = nan.
Proof.
  apply Prim2SF_inj. rewrite sub_spec, Prim2SF_nan. by destruct (Prim2SF v).
Qed.

Lemma ltb_nan (v : PrimFloat.float) : (nan <? v)%float = false.
Proof. rewrite ltb_spec, Prim2SF_nan. by destruct (Prim2SF v). Qed.

(** An amount greater than 0 that does not exceed a limit below infinity
    is below infinity. *)
Lemma dentro_do_limite (lim v : PrimFloat.float) :
  (lim <? v)%float = false -> (lim <? infinity)%float = true -> (0 <? v)%float = true ->
  (v <? infinity)%float = true.
Proof.
  rewrite ltb_zero, !ltb_infinity, ltb_spec.
  destruct (Prim2SF lim) as [sl|[]| |[] ml el]; try done;
    destruct (Prim2SF v) as [sv|[]| |[] mv ev]; try done.
Qed.

(* ===================================================================== *)
(** ** Equations of the methods *)
(* ===================================================================== *)

(** Closed arithmetic facts about concrete accounts, by evaluation. *)
Ltac calcula :=
  vm_compute; repeat split; try reflexivity; try (intro; discriminate).

Ltac io_unfold :=
  unfold ret, print, mbind, IO_bind, mret, IO_ret in *.

Lemma Conta_sacar_eq (self : Conta) (valor : PrimFloat.float) (w : World) :
  Conta_sacar self valor w =
    if (_saldo self <? valor)%float then
      Retorna (false, self) (imprime MsgSaldoInsuficiente w)
    else if (0 <? valor)%float then
      Retorna (true, com_saldo (_saldo self - valor)%float self) (imprime MsgSaqueSucesso w)
    else
      Retorna (false, self) (imprime MsgValorInvalido w).
Proof.
  unfold Conta_sacar. destruct (_saldo self <? valor)%float, (0 <? valor)%float; reflexivity.
Qed.

Lemma Conta_depositar_eq (self : Conta) (valor : PrimFloat.float) (w : World) :
  Conta_depositar self valor w =
    if (0 <? valor)%float then
      Retorna (true, com_saldo (_saldo self + valor)%float self) (imprime MsgDepositoSucesso w)
    else
      Retorna (false, self) (imprime MsgValorInvalido w).
Proof.
  unfold Conta_depositar. destruct (0 <? valor)%float; reflexivity.
Qed.

Lemma ContaCorrente_sacar_eq (self : ContaCorrente) (valor : PrimFloat.float) (w : World) :
  ContaCorrente_sacar self valor w =
    if (_limite self <? valor)%float then
      Retorna (false, self) (imprime MsgExcedeuLimite w)
    else if _limite_saques self <=? numero_saques (DeContaCorrente self) then
      Retorna (false, self) (imprime MsgExcedeuSaques w)
    else
      match Conta_sacar (super self) valor w with
      | Retorna (r, c) w' =>
          Retorna (r, mkContaCorrente c (_limite self) (_limite_saques self)) w'
      | Levanta e w' => Levanta e w'
      end.
Proof.
  unfold ContaCorrente_sacar, numero_saques, historico, base.
  destruct (_limite self <? valor)%float; [reflexivity|].
  destruct (_limite_saques self <=? _); [reflexivity|].
  io_unfold. destruct (Conta_sacar (super self) valor w) as [[r c] w'|e w']; reflexivity.
Qed.

Lemma com_base_base (conta : Objeto) : com_base (base conta) conta = conta.
Proof. destruct conta as [c|[c l n]]; reflexivity. Qed.

Lemma conta_sacar_eq (conta : Objeto) (valor : PrimFloat.float) (w : World) :
  conta_sacar conta valor w =
    if negb (passa_validacoes conta valor) then
      Retorna (false, conta)
        (imprime (match conta with
                  | DeContaCorrente cc =>
                      if (_limite cc <? valor)%float then MsgExcedeuLimite
                      else MsgExcedeuSaques
                  | DeConta _ => MsgValorInvalido
                  end) w)
    else if (saldo conta <? valor)%float then
      Retorna (false, conta) (imprime MsgSaldoInsuficiente w)
    else if (0 <? valor)%float then
      Retorna (true, com_saldo_de (saldo conta - valor)%float conta)
        (imprime MsgSaqueSucesso w)
    else
      Retorna (false, conta) (imprime MsgValorInvalido w).
Proof.
  destruct conta as [c|cc]; unfold conta_sacar, passa_validacoes, saldo, com_saldo_de; cbn [base negb].
  - io_unfold. rewrite Conta_sacar_eq.
    destruct (_saldo c <? valor)%float, (0 <? valor)%float; reflexivity.
  - io_unfold. rewrite ContaCorrente_sacar_eq, Conta_sacar_eq.
    destruct (_limite cc <? valor)%float; [reflexivity|].
    destruct (_limite_saques cc <=? _); [reflexivity|]. cbn [negb andb].
    destruct cc as [c l n]; cbn [super].
    destruct (_saldo c <? valor)%float, (0 <? valor)%float; reflexivity.
Qed.

Lemma conta_depositar_eq (conta : Objeto) (valor : PrimFloat.float) (w : World) :
  conta_depositar conta valor w =
    if (0 <? valor)%float then
      Retorna (true, com_saldo_de (saldo conta + valor)%float conta)
        (imprime MsgDepositoSucesso w)
    else
      Retorna (false, conta) (imprime MsgValorInvalido w).
Proof.
  unfold conta_depositar. io_unfold. rewrite Conta_depositar_eq.
  destruct (0 <? valor)%float; [reflexivity|]. by rewrite com_base_base.
Qed.

Lemma registrar_eq (t : Transacao) (conta : Objeto) (w : World) :
  registrar t conta w =
    match chamada t conta w with
    | Retorna (true, conta') w' =>
        Retorna
          (com_registro (mkRegistro (class_name t) (Transacao_valor t) (relogio w' 0%nat)) conta')
          (tique w')
    | Retorna (false, conta') w' => Retorna conta' w'
    | Levanta e w' => Levanta e w'
    end.
Proof.
  destruct t as [v|v]; unfold registrar, chamada; io_unfold; cbn [Transacao_valor].
  - destruct (conta_sacar conta v w) as [[[] c] w'|e w']; reflexivity.
  - destruct (conta_depositar conta v w) as [[[] c] w'|e w']; reflexivity.
Qed.

(** Every method call returns: no path of the two classes raises. *)
Lemma chamada_retorna (t : Transacao) (conta : Objeto) (w : World) :
  exists r conta' m,
    chamada t conta w = Retorna (r, conta') (imprime m w) /\
    (r = false -> conta' = conta /\ falha m = true) /\
    (r = true -> falha m = false).
Proof.
  destruct t as [v|v]; cbn [chamada].
  - rewrite conta_sacar_eq.
    destruct (negb _); [|destruct (_ <? _)%float; [|destruct (_ <? _)%float]];
      eexists _, _, _; (split; [reflexivity|]); (split; [intros; split; try done|done]).
    destruct conta as [c|cc]; [done|]. by destruct (_ <? _)%float.
  - rewrite conta_depositar_eq.
    destruct (_ <? _)%float; eexists _, _, _; (split; [reflexivity|]); split; done.
Qed.

Lemma conta_sacar_aceita (conta : Objeto) (v : PrimFloat.float) (w : World) :
  exists m,
    conta_sacar conta v w =
      Retorna (aceita (Op_sacar v) conta, proximo (Op_sacar v) (relogio w 0%nat) conta)
        (imprime m w) /\
    falha m = negb (aceita (Op_sacar v) conta).
Proof.
  rewrite conta_sacar_eq. unfold proximo, efeito, aceita, novo_saldo.
  cbn [e_saque valor_de].
  destruct (passa_validacoes conta v) eqn:Hp; cbn [negb andb].
  - destruct (saldo conta <? v)%float; cbn [negb andb]; [by eexists|].
    destruct (0 <? v)%float; eexists; split; reflexivity.
  - eexists; split; [reflexivity|].
    destruct conta as [c|cc]; [done|]. by destruct (_ <? _)%float.
Qed.

Lemma conta_depositar_aceita (conta : Objeto) (v : PrimFloat.float) (w : World) :
  exists m,
    conta_depositar conta v w =
      Retorna (aceita (Op_depositar v) conta, proximo (Op_depositar v) (relogio w 0%nat) conta)
        (imprime m w) /\
    falha m = negb (aceita (Op_depositar v) conta).
Proof.
  rewrite conta_depositar_eq. unfold proximo, efeito, aceita, novo_saldo.
  cbn [e_saque valor_de].
  destruct (0 <? v)%float; eexists; split; reflexivity.
Qed.

Lemma executar_eq (op : Operacao) (conta : Objeto) (w : World) :
  exists m,
    executar op conta w =
      Retorna (aceita op conta, proximo op (relogio w 0%nat) conta) (mundo_apos op conta m w) /\
    falha m = negb (aceita op conta).
Proof.
  destruct op as [v|v|[v|v]]; unfold mundo_apos; cbn [executar le_relogio].
  - apply conta_sacar_aceita.
  - apply conta_depositar_aceita.
  - rewrite registrar_eq. unfold retorno. cbn [chamada].
    destruct (conta_sacar_aceita conta v w) as (m & -> & Hm). exists m. split; [|exact Hm].
    unfold proximo, efeito. cbn [aceita].
    destruct (_ && _); reflexivity.
  - rewrite registrar_eq. unfold retorno. cbn [chamada].
    destruct (conta_depositar_aceita conta v w) as (m & -> & Hm). exists m. split; [|exact Hm].
    unfold proximo, efeito. cbn [aceita].
    destruct (_ <? _)%float; reflexivity.
Qed.

(** Projections of the two updates of an account. *)
Lemma saldo_com_saldo_de (s : PrimFloat.float) (conta : Objeto) :
  saldo (com_saldo_de s conta) = s.
Proof. destruct conta; reflexivity. Qed.

Lemma transacoes_com_saldo_de (s : PrimFloat.float) (conta : Objeto) :
  transacoes (com_saldo_de s conta) = transacoes conta.
Proof. destruct conta; reflexivity. Qed.

Lemma saldo_com_registro (r : Registro) (conta : Objeto) :
  saldo (com_registro r conta) = saldo conta.
Proof. destruct conta; reflexivity. Qed.

Lemma transacoes_com_registro (r : Registro) (conta : Objeto) :
  transacoes (com_registro r conta) = transacoes conta ++ [r].
Proof. destruct conta; reflexivity. Qed.

Lemma saldo_efeito (op : Operacao) (d : string) (conta : Objeto) :
  saldo (efeito op d conta) = novo_saldo op (saldo conta).
Proof.
  destruct op; unfold efeito; rewrite ?saldo_com_registro, saldo_com_saldo_de; reflexivity.
Qed.

Lemma transacoes_efeito (op : Operacao) (d : string) (conta : Objeto) :
  transacoes (efeito op d conta) =
    transacoes conta ++
      ((fun t => mkRegistro (class_name t) (Transacao_valor t) d) <$> transacao_de op).
Proof.
  destruct op; unfold efeito; cbn [transacao_de fmap list_fmap];
    rewrite ?transacoes_com_registro, transacoes_com_saldo_de, ?app_nil_r; reflexivity.
Qed.

Lemma estado_final_cons (conta : Objeto) (p : bool * Objeto) (passos : list (bool * Objeto)) :
  estado_final conta (p :: passos) = estado_final p.2 passos.
Proof.
  unfold estado_final. destruct passos as [|q passos]; [reflexivity|].
  rewrite !fmap_cons, last_cons.
  destruct (last (q.2 :: passos.*2)) eqn:E; [reflexivity|].
  by apply last_None in E.
Qed.

Lemma sucedidas_cons (op : Operacao) (ops : list Operacao) (r : bool) (c : Objeto)
    (passos : list (bool * Objeto)) :
  sucedidas (op :: ops) ((r, c) :: passos) =
    if r then op :: sucedidas ops passos else sucedidas ops passos.
Proof.
  unfold sucedidas. cbn [zip zip_with]. rewrite filter_cons.
  destruct r; cbn [snd fst]; case_decide; try done.
Qed.

(* ===================================================================== *)
(** ** Withdrawal and deposit rules *)
(* ===================================================================== *)

(** Concrete runs, by evaluation. *)
Example saque_acima_do_saldo :
  let conta := DeConta (mkConta 100 1 "0001" 0 (mkHistorico [])) in
  conta_sacar conta 150 mundo_vazio =
    Retorna (false, conta) (imprime MsgSaldoInsuficiente mundo_vazio).
Proof. reflexivity. Qed.

Example saque_acima_do_limite :
  exists passos w,
    executar_todas [Op_registrar (Deposito 1000); Op_registrar (Saque 600)]
      conta_nova mundo_vazio = Retorna passos w /\
    passos.*1 = [true; false] /\
    saldo (estado_final conta_nova passos) = 1000%float /\
    stdout w = [MsgDepositoSucesso; MsgExcedeuLimite].
Proof. eexists _, _. split; [reflexivity|]. repeat split. Qed.

Example quarto_saque :
  exists passos w,
    executar_todas
      [Op_registrar (Deposito 1000); Op_registrar (Saque 10); Op_registrar (Saque 10);
       Op_registrar (Saque 10); Op_registrar (Saque 10)]
      conta_nova mundo_vazio = Retorna passos w /\
    passos.*1 = [true; true; true; true; false] /\
    saldo (estado_final conta_nova passos) = 970%float /\
    length (transacoes (estado_final conta_nova passos)) = 4%nat /\
    stdout w = [MsgDepositoSucesso; MsgSaqueSucesso; MsgSaqueSucesso; MsgSaqueSucesso;
                MsgExcedeuSaques].
Proof. eexists _, _. split; [reflexivity|]. repeat split. Qed.

(** C2, as the code has it.  Conta.sacar fails, returning False, printing a
    message of failure and leaving the account as it was, exactly when the
    amount exceeds the balance or is not greater than 0; an amount [<= 0]
    is not greater than 0, and neither is nan.  Otherwise it returns True
    and the balance becomes [saldo - valor], the difference of binary64,
    with the history untouched.  Withdrawing more than the balance fails
    with the account unchanged on an account object of either class. *)
Theorem sacar_regra_de_saldo (self : Conta) (valor : PrimFloat.float) (w : World) :
  ((_saldo self <? valor)%float = true \/ (0 <? valor)%float = false ->
     exists m, Conta_sacar self valor w = Retorna (false, self) (imprime m w) /\
               falha m = true) /\
  ((valor <=? 0)%float = true -> (0 <? valor)%float = false) /\
  ((_saldo self <? valor)%float = false -> (0 <? valor)%float = true ->
     Conta_sacar self valor w =
       Retorna (true, com_saldo (_saldo self - valor)%float self)
         (imprime MsgSaqueSucesso w) /\
     _saldo (com_saldo (_saldo self - valor)%float self) = (_saldo self - valor)%float /\
     _historico (com_saldo (_saldo self - valor)%float self) = _historico self) /\
  (retorno (Conta_sacar self valor) w = false <->
     (_saldo self <? valor)%float = true \/ (0 <? valor)%float = false) /\
  (forall conta : Objeto,
     (saldo conta <? valor)%float = true ->
     exists m, conta_sacar conta valor w = Retorna (false, conta) (imprime m w) /\
               falha m = true).
Proof.
  unfold retorno. rewrite Conta_sacar_eq. split; [|split; [|split; [|split]]].
  - intros H. destruct (_saldo self <? valor)%float; [by eexists|].
    destruct (0 <? valor)%float; [|by eexists]. by destruct H.
  - apply leb_zero_ltb.
  - intros -> ->. done.
  - destruct (_saldo self <? valor)%float; [by split; [left|]|].
    destruct (0 <? valor)%float; split; try done.
    + by intros [|].
    + by right.
  - intros conta H. rewrite conta_sacar_eq, H.
    destruct (passa_validacoes conta valor); cbn [negb]; [by eexists|].
    eexists; split; [reflexivity|].
    destruct conta as [c|cc]; [done|]. by destruct (_limite cc <? valor)%float.
Qed.

(** C2 at a base account with balance 100: 150 is refused, 40 is paid. *)
Lemma sacar_regra_de_saldo_witness :
  (exists m, Conta_sacar (base conta_de_100) 150 mundo_vazio =
               Retorna (false, base conta_de_100) (imprime m mundo_vazio) /\
             falha m = true) /\
  Conta_sacar (base conta_de_100) 40 mundo_vazio =
    Retorna (true, com_saldo 60 (base conta_de_100)) (imprime MsgSaqueSucesso mundo_vazio).
Proof.
  split.
  - apply (sacar_regra_de_saldo (base conta_de_100) 150 mundo_vazio). by left.
  - apply (sacar_regra_de_saldo (base conta_de_100) 40 mundo_vazio); reflexivity.
Defined.

(** C2, counterexample.  A withdrawal that succeeds does not always lower
    the balance by the amount, and an amount can be refused that neither
    exceeds the balance nor is [<= 0].  At balance 2^54 the amount 1 is
    greater than 0 and within the balance; Conta.sacar returns True and the
    balance is 2^54 as before, for 2^54 - 1 rounds to 2^54.  At the same
    balance nan does not exceed the balance and is not [<= 0]; Conta.sacar
    returns False. *)
Lemma sacar_sem_baixar_o_saldo :
  ((_saldo conta_de_dois_a_54 <? 1)%float = false /\ (0 <? 1)%float = true /\
   Conta_sacar conta_de_dois_a_54 1 mundo_vazio =
     Retorna (true, conta_de_dois_a_54) (imprime MsgSaqueSucesso mundo_vazio)) /\
  ((_saldo conta_de_dois_a_54 <? nan)%float = false /\ (nan <=? 0)%float = false /\
   Conta_sacar conta_de_dois_a_54 nan mundo_vazio =
     Retorna (false, conta_de_dois_a_54) (imprime MsgValorInvalido mundo_vazio)).
Proof. repeat split. Qed.

(** C3.  ContaCorrente.sacar looks at the limit per withdrawal before the
    number of withdrawals: an amount above the limit is reported as
    limit-exceeded whatever the number of withdrawals on record (so also when
    that number is at its maximum); an amount that does not exceed the limit
    with the number at its maximum is reported as count-exceeded; in both
    cases False is returned and the account is as it was.  With both checks
    passed the call is that of Conta.sacar.  An amount [<=] the limit does
    not exceed it. *)
Theorem ContaCorrente_sacar_ordem (self : ContaCorrente) (valor : PrimFloat.float)
    (w : World) :
  ((_limite self <? valor)%float = true ->
     ContaCorrente_sacar self valor w = Retorna (false, self) (imprime MsgExcedeuLimite w)) /\
  ((_limite self <? valor)%float = false ->
   _limite_saques self <= numero_saques (DeContaCorrente self) ->
     ContaCorrente_sacar self valor w = Retorna (false, self) (imprime MsgExcedeuSaques w)) /\
  ((_limite self <? valor)%float = false ->
   numero_saques (DeContaCorrente self) < _limite_saques self ->
     ContaCorrente_sacar self valor w =
       match Conta_sacar (super self) valor w with
       | Retorna (r, c) w' =>
           Retorna (r, mkContaCorrente c (_limite self) (_limite_saques self)) w'
       | Levanta e w' => Levanta e w'
       end) /\
  ((valor <=? _limite self)%float = true -> (_limite self <? valor)%float = false).
Proof.
  rewrite ContaCorrente_sacar_eq. split; [|split; [|split]].
  - by intros ->.
  - intros -> H2.
    by destruct (Z.leb_spec (_limite_saques self) (numero_saques (DeContaCorrente self))); [|lia].
  - intros -> H2.
    by destruct (Z.leb_spec (_limite_saques self) (numero_saques (DeContaCorrente self))); [lia|].
  - apply leb_ltb_false.
Qed.

(** C3 at an account with three withdrawals on record: 600 is refused for
    the limit, 10 for the number of withdrawals. *)
Lemma ContaCorrente_sacar_ordem_witness :
  ContaCorrente_sacar conta_com_tres_saques 600 mundo_vazio =
    Retorna (false, conta_com_tres_saques) (imprime MsgExcedeuLimite mundo_vazio) /\
  ContaCorrente_sacar conta_com_tres_saques 10 mundo_vazio =
    Retorna (false, conta_com_tres_saques) (imprime MsgExcedeuSaques mundo_vazio).
Proof.
  split.
  - apply (ContaCorrente_sacar_ordem conta_com_tres_saques 600 mundo_vazio). calcula.
  - apply (ContaCorrente_sacar_ordem conta_com_tres_saques 10 mundo_vazio); calcula.
Defined.

(** C7, as the code has it.  [conta.depositar(valor)] fails exactly when
    [valor] is not greater than 0; an amount [<= 0] is not, and neither is
    nan.  The failed call, and the [registrar] of a Deposito that makes it,
    leave the account (balance and history) as it was.  For [valor > 0] the
    call returns True and the balance becomes [saldo + valor], the sum of
    binary64, with the history untouched. *)
Theorem depositar_regra (conta : Objeto) (valor : PrimFloat.float) (w : World) :
  (retorno (conta_depositar conta valor) w = false <-> (0 <? valor)%float = false) /\
  ((valor <=? 0)%float = true -> (0 <? valor)%float = false) /\
  ((0 <? valor)%float = false ->
     conta_depositar conta valor w = Retorna (false, conta) (imprime MsgValorInvalido w) /\
     registrar (Deposito valor) conta w = Retorna conta (imprime MsgValorInvalido w)) /\
  ((0 <? valor)%float = true ->
     conta_depositar conta valor w =
       Retorna (true, com_saldo_de (saldo conta + valor)%float conta)
         (imprime MsgDepositoSucesso w) /\
     saldo (com_saldo_de (saldo conta + valor)%float conta) = (saldo conta + valor)%float /\
     transacoes (com_saldo_de (saldo conta + valor)%float conta) = transacoes conta).
Proof.
  rewrite registrar_eq. unfold retorno. cbn [chamada]. rewrite conta_depositar_eq.
  rewrite saldo_com_saldo_de, transacoes_com_saldo_de.
  split; [|split; [apply leb_zero_ltb|]].
  - by destruct (0 <? valor)%float.
  - destruct (0 <? valor)%float; repeat split; intros; done.
Qed.

(** C7 at a base account with balance 100: 0 is refused, 25 is credited. *)
Lemma depositar_regra_witness :
  (conta_depositar conta_de_100 0 mundo_vazio =
     Retorna (false, conta_de_100) (imprime MsgValorInvalido mundo_vazio) /\
   registrar (Deposito 0) conta_de_100 mundo_vazio =
     Retorna conta_de_100 (imprime MsgValorInvalido mundo_vazio)) /\
  conta_depositar conta_de_100 25 mundo_vazio =
    Retorna (true, com_saldo_de 125 conta_de_100) (imprime MsgDepositoSucesso mundo_vazio).
Proof.
  split.
  - apply (depositar_regra conta_de_100 0 mundo_vazio). reflexivity.
  - apply (depositar_regra conta_de_100 25 mundo_vazio). reflexivity.
Defined.

(** C7, counterexample.  A deposit that succeeds does not always raise the
    balance by the amount, and an amount that is not [<= 0] can be refused.
    At balance 2^53 a deposit of 1 returns True and the balance is 2^53 as
    before, for 2^53 + 1 rounds to 2^53.  nan is not [<= 0], and a deposit
    of nan returns False. *)
Lemma deposito_sem_subir_o_saldo :
  let conta := DeConta (mkConta dois_a_53 1 "0001" 0 (mkHistorico [])) in
  ((0 <? 1)%float = true /\
   conta_depositar conta 1 mundo_vazio =
     Retorna (true, conta) (imprime MsgDepositoSucesso mundo_vazio)) /\
  ((nan <=? 0)%float = false /\
   conta_depositar conta nan mundo_vazio =
     Retorna (false, conta) (imprime MsgValorInvalido mundo_vazio)).
Proof. repeat split. Qed.

(* ===================================================================== *)
(** ** Sequences of operations: balance, history, withdrawal count *)
(* ===================================================================== *)

(** One step of the induction over a sequence: the head operation in closed
    form, then the induction hypothesis on what follows. *)
Ltac passo IH op conta w m Hm passos w' HI :=
  cbn [executar_todas]; unfold ret, mbind, IO_bind, mret, IO_ret;
  destruct (executar_eq op conta w) as (m & -> & Hm);
  destruct (IH (proximo op (relogio w 0%nat) conta) (mundo_apos op conta m w))
    as (passos & w' & -> & HI).

Lemma relogio_mundo_apos (op : Operacao) (conta : Objeto) (m : Message) (w : World) :
  relogio (mundo_apos op conta m w) =
    if le_relogio op conta then (fun n => relogio w (S n)) else relogio w.
Proof. unfold mundo_apos. destruct (le_relogio op conta); reflexivity. Qed.

Lemma executar_todas_saldo (ops : list Operacao) (conta : Objeto) (w : World) :
  exists passos w',
    executar_todas ops conta w = Retorna passos w' /\
    length passos = length ops /\
    saldo (estado_final conta passos) = saldo_apos (saldo conta) (sucedidas ops passos).
Proof.
  revert conta w. induction ops as [|op ops IH]; intros conta w.
  - by exists [], w.
  - passo IH op conta w m Hm passos w' HI. destruct HI as [Hlen Hsaldo].
    eexists _, _. split; [reflexivity|]. split; [cbn; lia|].
    rewrite estado_final_cons, sucedidas_cons. cbn [snd]. rewrite Hsaldo.
    unfold proximo. destruct (aceita op conta); [|done].
    by rewrite saldo_efeito.
Qed.

Lemma saldo_recem_criada (conta : Objeto) : recem_criada conta -> saldo conta = 0%float.
Proof. intros [(n & c & ->)|(n & c & l & ls & ->)]; reflexivity. Qed.

Lemma executar_falha (op : Operacao) (conta : Objeto) (w : World) :
  exists r conta' m w',
    executar op conta w = Retorna (r, conta') w' /\
    stdout w' = stdout w ++ [m] /\ falha m = negb r /\
    (r = false -> conta' = conta /\ w' = imprime m w).
Proof.
  destruct (executar_eq op conta w) as (m & -> & Hm).
  eexists _, _, m, _. split; [reflexivity|]. split; [|split; [exact Hm|]].
  - unfold mundo_apos. by destruct (le_relogio op conta).
  - intros Hr. unfold proximo, mundo_apos. rewrite Hr.
    split; [reflexivity|]. destruct op; cbn [le_relogio]; rewrite ?Hr; reflexivity.
Qed.

(** A property of the account that every operation of a kind keeps holds
    after each step of a sequence of operations of that kind. *)
Lemma executar_todas_invariante (I : Objeto -> Prop) (Q : Operacao -> Prop) :
  (forall op d c, Q op -> I c -> I (proximo op d c)) ->
  forall (ops : list Operacao) (conta : Objeto) (w : World),
    Forall Q ops -> I conta ->
    exists passos w',
      executar_todas ops conta w = Retorna passos w' /\
      length passos = length ops /\
      Forall (fun p => I p.2) passos /\
      I (estado_final conta passos).
Proof.
  intros Hstep ops conta w Hops. revert conta w.
  induction Hops as [|op ops Hop _ IH]; intros conta w H.
  - exists [], w. repeat split; [constructor|done].
  - cbn [executar_todas]. unfold ret, mbind, IO_bind, mret, IO_ret.
    destruct (executar_eq op conta w) as (m & -> & Hm).
    pose proof (Hstep op (relogio w 0%nat) conta Hop H) as Hnext.
    destruct (IH (proximo op (relogio w 0%nat) conta) (mundo_apos op conta m w) Hnext)
      as (passos & w' & -> & Hlen & Hall & Hfin).
    eexists _, _. split; [reflexivity|]. split; [cbn; lia|]. split.
    + by constructor.
    + by rewrite estado_final_cons.
Qed.

(** C1, as the code has it.  After any sequence of operations the balance
    is what the operations that succeeded give when applied in their order
    to the balance before: the amount of each deposit added and the amount
    of each withdrawal subtracted, one operation of binary64 after the
    other; on an account fresh from its constructor the balance before is
    0.  An operation that fails leaves the account, and so its balance,
    exactly as it was. *)
Theorem saldo_e_soma_das_operacoes :
  (forall (ops : list Operacao) (conta : Objeto) (w : World),
      exists passos w',
        executar_todas ops conta w = Retorna passos w' /\
        length passos = length ops /\
        saldo (estado_final conta passos) =
          saldo_apos (saldo conta) (sucedidas ops passos) /\
        (recem_criada conta ->
           saldo (estado_final conta passos) = saldo_apos 0 (sucedidas ops passos))) /\
  (forall (op : Operacao) (conta : Objeto) (w : World),
      exists r conta' w',
        executar op conta w = Retorna (r, conta') w' /\
        (r = false -> conta' = conta)).
Proof.
  split.
  - intros ops conta w.
    destruct (executar_todas_saldo ops conta w) as (passos & w' & Hrun & Hlen & Hs).
    exists passos, w'. repeat split; try done.
    intros Hn. by rewrite Hs, (saldo_recem_criada _ Hn).
  - intros op conta w.
    destruct (executar_falha op conta w) as (r & conta' & m & w' & Hrun & _ & _ & Hf).
    exists r, conta', w'. split; [done|]. intros Hr. by apply Hf.
Qed.

(** C1 on a fresh checking account. *)
Lemma saldo_e_soma_das_operacoes_witness :
  exists passos w',
    executar_todas [Op_registrar (Deposito 1000); Op_registrar (Saque 600); Op_sacar 30]
      conta_nova mundo_vazio = Retorna passos w' /\
    saldo (estado_final conta_nova passos) =
      saldo_apos 0
        (sucedidas [Op_registrar (Deposito 1000); Op_registrar (Saque 600); Op_sacar 30]
           passos).
Proof.
  destruct saldo_e_soma_das_operacoes as [H _].
  destruct (H [Op_registrar (Deposito 1000); Op_registrar (Saque 600); Op_sacar 30]
              conta_nova mundo_vazio) as (passos & w' & Hrun & _ & _ & Hnova).
  exists passos, w'. split; [exact Hrun|]. apply Hnova.
  right. exists 1, 0%nat, None, None. reflexivity.
Defined.

(** C1, counterexample.  The balance is not the sum of the deposits minus
    the sum of the withdrawals.  On a fresh checking account a deposit of
    2^54 and two withdrawals of 1 all succeed.  The sum of the deposits is
    2^54, the sum of the withdrawals is 2 and their difference is
    2^54 - 2, each of them a float, so no rounding enters the two sums or
    their difference; the balance is 2^54, for each 2^54 - 1 rounds to
    2^54. *)
Lemma saldo_difere_da_soma :
  exists passos w',
    executar_todas [Op_depositar dois_a_54; Op_sacar 1; Op_sacar 1]
      conta_nova mundo_vazio = Retorna passos w' /\
    sucedidas [Op_depositar dois_a_54; Op_sacar 1; Op_sacar 1] passos =
      [Op_depositar dois_a_54; Op_sacar 1; Op_sacar 1] /\
    soma (depositos (sucedidas [Op_depositar dois_a_54; Op_sacar 1; Op_sacar 1] passos)) =
      dois_a_54 /\
    soma (saques (sucedidas [Op_depositar dois_a_54; Op_sacar 1; Op_sacar 1] passos)) =
      2%float /\
    depositos_menos_saques (sucedidas [Op_depositar dois_a_54; Op_sacar 1; Op_sacar 1] passos) =
      18014398509481982%float /\
    saldo (estado_final conta_nova passos) = dois_a_54 /\
    (saldo (estado_final conta_nova passos) =?
       depositos_menos_saques
         (sucedidas [Op_depositar dois_a_54; Op_sacar 1; Op_sacar 1] passos))%float = false.
Proof. eexists _, _. split; [reflexivity|]. vm_compute. repeat split. Qed.


(** What [aceita] says of a withdrawal that succeeds. *)
Lemma aceita_saque (op : Operacao) (conta : Objeto) :
  aceita op conta = true -> e_saque op = true ->
  passa_validacoes conta (valor_de op) = true /\
  (saldo conta <? valor_de op)%float = false /\
  (0 <? valor_de op)%float = true.
Proof.
  intros Ha Hs.
  destruct op as [v|v|[v|v]]; try done; cbn [aceita valor_de Transacao_valor] in *;
    apply andb_prop in Ha as [Ha Hpos]; apply andb_prop in Ha as [Hp Hsal];
    apply negb_true_iff in Hsal; done.
Qed.

Lemma aceita_deposito (op : Operacao) (conta : Objeto) :
  aceita op conta = true -> e_saque op = false -> (0 <? valor_de op)%float = true.
Proof. intros Ha Hs. by destruct op as [v|v|[v|v]]. Qed.

Lemma saldo_proximo_nao_negativo (op : Operacao) (d : string) (conta : Objeto) :
  limite_finito conta = true \/ saque_finito op ->
  (0 <=? saldo conta)%float = true ->
  (0 <=? saldo (proximo op d conta))%float = true.
Proof.
  intros Hfin H. unfold proximo. destruct (aceita op conta) eqn:Ha; [|done].
  rewrite saldo_efeito. unfold novo_saldo. destruct (e_saque op) eqn:Hs.
  - destruct (aceita_saque op conta Ha Hs) as (Hp & Hsal & Hpos).
    apply sub_nao_negativo; try done.
    destruct Hfin as [Hl|Hf]; [|by apply Hf].
    destruct conta as [c|cc]; [done|]. cbn [limite_finito passa_validacoes] in *.
    apply andb_prop in Hp as [Hp _]. apply negb_true_iff in Hp.
    exact (dentro_do_limite _ _ Hp Hl Hpos).
  - apply add_nao_negativo; [done|]. by eapply aceita_deposito.
Qed.





Lemma registradas_cons (op : Operacao) (ops : list Operacao) (r : bool) (c : Objeto)
    (passos : list (bool * Objeto)) :
  registradas (op :: ops) ((r, c) :: passos) =
    if r then transacao_de op ++ registradas ops passos else registradas ops passos.
Proof. unfold registradas. rewrite sucedidas_cons. by destruct r. Qed.

Lemma transacoes_proximo (op : Operacao) (d : string) (conta : Objeto) :
  transacoes (proximo op d conta) =
    transacoes conta ++
      (if aceita op conta then (fun t => registro_de t d) <$> transacao_de op else []).
Proof.
  unfold proximo. destruct (aceita op conta).
  - apply transacoes_efeito.
  - by rewrite app_nil_r.
Qed.

Lemma executar_todas_historico (ops : list Operacao) (conta : Objeto) (w : World) :
  exists passos w',
    executar_todas ops conta w = Retorna passos w' /\
    length passos = length ops /\
    transacoes (estado_final conta passos) =
      transacoes conta ++
        imap (fun k t => registro_de t (relogio w k)) (registradas ops passos).
Proof.
  revert conta w. induction ops as [|op ops IH]; intros conta w.
  - exists [], w. repeat split. cbn. by rewrite app_nil_r.
  - passo IH op conta w m Hm passos w' HI. destruct HI as [Hlen Hhist].
    eexists _, _. split; [reflexivity|]. split; [cbn; lia|].
    rewrite estado_final_cons, registradas_cons. cbn [snd].
    rewrite Hhist, transacoes_proximo, relogio_mundo_apos.
    destruct op as [v|v|t]; cbn [le_relogio transacao_de fmap list_fmap];
      destruct (aceita _ conta); rewrite ?app_nil_r; try reflexivity.
    by rewrite <- app_assoc.
Qed.

Lemma resumo_imap (f : nat -> string) (l : list Transacao) :
  resumo <$> imap (fun k t => registro_de t (f k)) l = resumo_transacao <$> l.
Proof.
  revert f. induction l as [|t l IH]; intros f; [reflexivity|].
  cbn [imap fmap list_fmap]. f_equal. apply (IH (fun n => f (S n))).
Qed.

(** C5.  The history is written by [registrar] alone and only grows at its
    end.  One operation leaves the history as it was when it fails or is a
    direct call of a method, and appends exactly one entry (class name,
    amount, time read) when it is a transaction applied with success.  After
    any sequence the history is the history before followed by one entry
    for each transaction applied with success, in the order of application,
    the k-th stamped with the k-th reading of the clock; its length is the
    length before plus the number of those transactions. *)
Theorem historico_apenas_cresce :
  (forall (op : Operacao) (conta : Objeto) (w : World),
      exists r conta' w',
        executar op conta w = Retorna (r, conta') w' /\
        transacoes conta' =
          transacoes conta ++
            (if r then (fun t => registro_de t (relogio w 0%nat)) <$> transacao_de op
             else [])) /\
  (forall (ops : list Operacao) (conta : Objeto) (w : World),
      exists passos w',
        executar_todas ops conta w = Retorna passos w' /\
        length passos = length ops /\
        transacoes (estado_final conta passos) =
          transacoes conta ++
            imap (fun k t => registro_de t (relogio w k)) (registradas ops passos) /\
        length (transacoes (estado_final conta passos)) =
          (length (transacoes conta) + length (registradas ops passos))%nat /\
        resumo <$> transacoes (estado_final conta passos) =
          (resumo <$> transacoes conta) ++ (resumo_transacao <$> registradas ops passos)).
Proof.
  split.
  - intros op conta w. destruct (executar_eq op conta w) as (m & -> & Hm).
    eexists _, _, _. split; [reflexivity|]. apply transacoes_proximo.
  - intros ops conta w.
    destruct (executar_todas_historico ops conta w) as (passos & w' & Hrun & Hlen & Hh).
    exists passos, w'. repeat split; try done.
    + by rewrite Hh, length_app, length_imap.
    + by rewrite Hh, fmap_app, resumo_imap.
Qed.

(** C6.  When the method called by [registrar] returns False, [registrar]
    returns the account as it was (balance, history and every other field),
    and so does [Cliente.realizar_transacao] with the heap; the input and
    the clock are untouched.  The one effect is a message of failure
    printed; [registrar] itself returns None. *)
Theorem registrar_falha_sem_efeito (t : Transacao) (conta : Objeto) (w : World) :
  retorno (chamada t conta) w = false ->
  exists m,
    falha m = true /\
    registrar t conta w = Retorna conta (imprime m w) /\
    (forall r, heap w !! r = Some conta ->
       realizar_transacao r t w = Retorna tt (imprime m w)) /\
    stdin (imprime m w) = stdin w /\ relogio (imprime m w) = relogio w /\
    heap (imprime m w) = heap w /\ stdout (imprime m w) = stdout w ++ [m].
Proof.
  intros Hr. unfold retorno in Hr.
  destruct (chamada_retorna t conta w) as (r & conta' & m & Hc & Hf & _).
  rewrite Hc in Hr. subst r. destruct (Hf eq_refl) as [-> Hm].
  exists m. split; [exact Hm|].
  assert (Hreg : registrar t conta w = Retorna conta (imprime m w))
    by (by rewrite registrar_eq, Hc).
  split; [exact Hreg|]. split; [|done].
  intros r Hlook. unfold realizar_transacao, ler_objeto, gravar_objeto.
  unfold ret, mbind, IO_bind, mret, IO_ret. rewrite Hlook, Hreg.
  unfold imprime at 2. cbn [stdin stdout relogio heap imprime].
  by rewrite list_insert_id.
Qed.

(** C6: a withdrawal of 150 from a balance of 100. *)
Lemma registrar_falha_sem_efeito_witness :
  exists m,
    falha m = true /\
    registrar (Saque 150) (DeConta (mkConta 100 1 "0001" 0 (mkHistorico []))) mundo_vazio =
      Retorna (DeConta (mkConta 100 1 "0001" 0 (mkHistorico []))) (imprime m mundo_vazio) /\
    (forall r, heap mundo_vazio !! r = Some (DeConta (mkConta 100 1 "0001" 0 (mkHistorico []))) ->
       realizar_transacao r (Saque 150) mundo_vazio = Retorna tt (imprime m mundo_vazio)) /\
    stdin (imprime m mundo_vazio) = stdin mundo_vazio /\
    relogio (imprime m mundo_vazio) = relogio mundo_vazio /\
    heap (imprime m mundo_vazio) = heap mundo_vazio /\
    stdout (imprime m mundo_vazio) = stdout mundo_vazio ++ [m].
Proof.
  apply (registrar_falha_sem_efeito (Saque 150)
           (DeConta (mkConta 100 1 "0001" 0 (mkHistorico []))) mundo_vazio).
  reflexivity.
Defined.

Lemma numero_saques_transacoes (conta : Objeto) :
  numero_saques conta =
    Z.of_nat (length (filter (fun r => tipo r = "Saque"%string) (transacoes conta))).
Proof. reflexivity. Qed.

Lemma esgotados_recusa (op : Operacao) (conta : Objeto) :
  saques_esgotados conta -> e_saque op = true -> aceita op conta = false.
Proof.
  destruct conta as [c|cc]; [done|]. cbn [saques_esgotados]. intros H Hop.
  assert (Hp : forall v, passa_validacoes (DeContaCorrente cc) v = false).
  { intros v. cbn [passa_validacoes].
    destruct (Z.leb_spec (_limite_saques cc) (numero_saques (DeContaCorrente cc))); [|lia].
    by rewrite andb_false_r. }
  destruct op as [v|v|[v|v]]; try done; cbn [aceita]; by rewrite Hp.
Qed.

Lemma numero_saques_efeito (op : Operacao) (d : string) (conta : Objeto) :
  e_saque op = false -> numero_saques (efeito op d conta) = numero_saques conta.
Proof.
  intros Hop. rewrite !numero_saques_transacoes, transacoes_efeito, filter_app.
  destruct op as [v|v|[v|v]]; try done; cbn [transacao_de fmap list_fmap].
  - by rewrite filter_nil, app_nil_r.
  - rewrite filter_cons_False, filter_nil, app_nil_r; done.
Qed.

Lemma saques_esgotados_efeito (op : Operacao) (d : string) (conta : Objeto) :
  numero_saques (efeito op d conta) = numero_saques conta ->
  saques_esgotados conta -> saques_esgotados (efeito op d conta).
Proof.
  destruct conta as [c|[c l n]]; [done|]. intros Hn H.
  destruct op as [v|v|t]; unfold efeito, com_registro, com_saldo_de in *;
    cbn [com_base base saques_esgotados _limite_saques] in *; rewrite Hn; exact H.
Qed.

Lemma esgotados_proximo (op : Operacao) (d : string) (conta : Objeto) :
  saques_esgotados conta ->
  saques_esgotados (proximo op d conta) /\
  numero_saques (proximo op d conta) = numero_saques conta.
Proof.
  intros H. unfold proximo. destruct (aceita op conta) eqn:Ha; [|done].
  destruct (e_saque op) eqn:Hop.
  { by rewrite (esgotados_recusa op conta H Hop) in Ha. }
  pose proof (numero_saques_efeito op d conta Hop) as Hn.
  split; [by apply saques_esgotados_efeito|exact Hn].
Qed.

Lemma executar_todas_esgotados (ops : list Operacao) (conta : Objeto) (w : World) :
  saques_esgotados conta ->
  exists passos w',
    executar_todas ops conta w = Retorna passos w' /\
    length passos = length ops /\
    Forall (fun p => saques_esgotados p.2 /\ numero_saques p.2 = numero_saques conta) passos /\
    Forall (fun op => e_saque op = false) (sucedidas ops passos).
Proof.
  revert conta w. induction ops as [|op ops IH]; intros conta w H.
  - exists [], w. repeat split; constructor.
  - cbn [executar_todas]. unfold ret, mbind, IO_bind, mret, IO_ret.
    destruct (executar_eq op conta w) as (m & -> & Hm).
    destruct (esgotados_proximo op (relogio w 0%nat) conta H) as [Hnext Hnum].
    destruct (IH (proximo op (relogio w 0%nat) conta) (mundo_apos op conta m w) Hnext)
      as (passos & w' & -> & Hlen & Hall & Hsuc).
    eexists _, _. split; [reflexivity|]. split; [cbn; lia|]. split.
    + constructor; [done|]. rewrite Hnum in Hall. exact Hall.
    + rewrite sucedidas_cons. destruct (aceita op conta) eqn:Ha; [|done].
      constructor; [|done].
      destruct (e_saque op) eqn:Hop; [|done].
      by rewrite (esgotados_recusa op conta H Hop) in Ha.
Qed.

(** C4.  A checking account whose history holds as many entries of type
    Saque as its [_limite_saques] (3 by default) rejects a further
    withdrawal of an amount that does not exceed the limit with the message
    of count-exceeded, whatever the balance and the amount.  The number is
    that of the Saque entries of the whole history; nothing resets it: in
    any sequence of later operations no withdrawal succeeds, and after each
    of them the account has still reached its maximum, with the same
    number on record.  On any account the number never goes down.  An
    amount [<=] the limit does not exceed it. *)
Theorem limite_de_saques_sem_reinicio :
  (forall (cc : ContaCorrente) (valor : PrimFloat.float) (w : World),
      numero_saques (DeContaCorrente cc) = _limite_saques cc ->
      (_limite cc <? valor)%float = false ->
      ContaCorrente_sacar cc valor w = Retorna (false, cc) (imprime MsgExcedeuSaques w) /\
      registrar (Saque valor) (DeContaCorrente cc) w =
        Retorna (DeContaCorrente cc) (imprime MsgExcedeuSaques w)) /\
  (forall (numero : Z) (titular : nat),
      _limite_saques (ContaCorrente_nova_conta titular numero) = 3) /\
  (forall conta : Objeto,
      numero_saques conta =
        Z.of_nat (length (filter (fun r => tipo r = "Saque"%string) (transacoes conta)))) /\
  (forall (ops : list Operacao) (conta : Objeto) (w : World),
      saques_esgotados conta ->
      exists passos w',
        executar_todas ops conta w = Retorna passos w' /\
        length passos = length ops /\
        Forall (fun p => saques_esgotados p.2 /\ numero_saques p.2 = numero_saques conta)
          passos /\
        Forall (fun op => e_saque op = false) (sucedidas ops passos)) /\
  (forall (ops : list Operacao) (conta : Objeto) (w : World),
      exists passos w',
        executar_todas ops conta w = Retorna passos w' /\
        numero_saques conta <= numero_saques (estado_final conta passos)) /\
  (forall (cc : ContaCorrente) (valor : PrimFloat.float),
      (valor <=? _limite cc)%float = true -> (_limite cc <? valor)%float = false).
Proof.
  split; [|split; [done|split; [done|split; [|split;
    [|intros cc valor; apply leb_ltb_false]]]]].
  - intros cc valor w Hn Hv.
    assert (Hs : ContaCorrente_sacar cc valor w =
                   Retorna (false, cc) (imprime MsgExcedeuSaques w)).
    { rewrite ContaCorrente_sacar_eq, Hv.
      by destruct (Z.leb_spec (_limite_saques cc) (numero_saques (DeContaCorrente cc)));
        [|lia]. }
    split; [exact Hs|].
    rewrite registrar_eq. cbn [chamada conta_sacar].
    unfold ret, mbind, IO_bind, mret, IO_ret. by rewrite Hs.
  - apply executar_todas_esgotados.
  - intros ops conta w.
    destruct (executar_todas_historico ops conta w) as (passos & w' & Hrun & _ & Hh).
    exists passos, w'. split; [done|].
    rewrite !numero_saques_transacoes, Hh, filter_app, length_app. lia.
Qed.

(** C4 at an account with three withdrawals on record. *)
Lemma limite_de_saques_sem_reinicio_witness :
  (ContaCorrente_sacar conta_com_tres_saques 10 mundo_vazio =
     Retorna (false, conta_com_tres_saques) (imprime MsgExcedeuSaques mundo_vazio) /\
   registrar (Saque 10) (DeContaCorrente conta_com_tres_saques) mundo_vazio =
     Retorna (DeContaCorrente conta_com_tres_saques) (imprime MsgExcedeuSaques mundo_vazio)) /\
  exists passos w',
    executar_todas [Op_registrar (Deposito 5); Op_registrar (Saque 1); Op_sacar 2]
      (DeContaCorrente conta_com_tres_saques) mundo_vazio = Retorna passos w' /\
    length passos = 3%nat /\
    Forall (fun p => saques_esgotados p.2 /\
                     numero_saques p.2 = numero_saques (DeContaCorrente conta_com_tres_saques))
      passos /\
    Forall (fun op => e_saque op = false)
      (sucedidas [Op_registrar (Deposito 5); Op_registrar (Saque 1); Op_sacar 2] passos).
Proof.
  destruct limite_de_saques_sem_reinicio as (H1 & _ & _ & H2 & _). split.
  - apply (H1 conta_com_tres_saques 10%float mundo_vazio); reflexivity.
  - apply (H2 [Op_registrar (Deposito 5); Op_registrar (Saque 1); Op_sacar 2]
              (DeContaCorrente conta_com_tres_saques) mundo_vazio).
    calcula.
Defined.

(* ===================================================================== *)
(** ** The customer list *)
(* ===================================================================== *)

Lemma filtrar_cliente_Some (cpf' : string) (clientes : list PessoaFisica)
    (i : nat) (c : PessoaFisica) :
  filtrar_cliente cpf' clientes = Some (i, c) -> clientes !! i = Some c /\ cpf c = cpf'.
Proof.
  intros H. apply head_Some_elem_of in H.
  apply list_elem_of_filter in H as [Hcpf Hin].
  apply elem_of_lookup_imap in Hin as (j & y & Heq & Hlook).
  injection Heq as -> ->. done.
Qed.

Lemma filtrar_cliente_None (cpf' : string) (clientes : list PessoaFisica) :
  filtrar_cliente cpf' clientes = None <-> cpf' ∉ (cpf <$> clientes).
Proof.
  unfold filtrar_cliente. rewrite head_None. split.
  - intros Hnil Hin. apply list_elem_of_fmap in Hin as (c & -> & Hc).
    apply list_elem_of_lookup in Hc as [i Hi].
    apply (filter_nil_not_elem_of _ _ (i, c) Hnil); [done|].
    by apply (elem_of_lookup_imap_2 pair).
  - intros Hnot. unfold clientes_filtrados.
    destruct (filter _ _) as [|[i c] l] eqn:E; [done|]. exfalso. apply Hnot.
    assert (Hin : (i, c) ∈ filter (fun ic : nat * PessoaFisica => cpf ic.2 = cpf')
                              (imap pair clientes)) by (rewrite E; left).
    apply list_elem_of_filter in Hin as [Hcpf Hin].
    apply elem_of_lookup_imap in Hin as (j & y & Heq & Hlook).
    injection Heq as -> ->. apply list_elem_of_fmap. exists y. split; [done|].
    by apply list_elem_of_lookup_2 in Hlook.
Qed.

Lemma criar_cliente_casos (clientes : list PessoaFisica) (w : World)
    (clientes' : list PessoaFisica) (w' : World) :
  criar_cliente clientes w = Retorna clientes' w' ->
  heap w' = heap w /\
  (clientes' = clientes \/
   exists c, clientes' = clientes ++ [c] /\ (cpf c ∉ (cpf <$> clientes)) /\ contas c = []).
Proof.
  unfold criar_cliente, input, print. unfold ret, mbind, IO_bind, mret, IO_ret.
  destruct (stdin w) as [|l1 r1] eqn:E1; [done|]. cbn [stdin].
  destruct (filtrar_cliente l1 clientes) as [p|] eqn:Hf.
  - intros [= <- <-]. split; [reflexivity|by left].
  - destruct r1 as [|l2 [|l3 [|l4 r4]]]; cbn [stdin]; try done.
    intros [= <- <-]. split; [reflexivity|]. right. eexists. split; [reflexivity|].
    split; [|reflexivity]. by apply filtrar_cliente_None.
Qed.

Lemma criar_cliente_NoDup (clientes : list PessoaFisica) (w : World)
    (clientes' : list PessoaFisica) (w' : World) :
  NoDup (cpf <$> clientes) ->
  criar_cliente clientes w = Retorna clientes' w' ->
  NoDup (cpf <$> clientes').
Proof.
  intros Hnd Hrun. apply criar_cliente_casos in Hrun as [_ [->|(c & -> & Hc & _)]]; [done|].
  rewrite fmap_app. apply NoDup_app. split; [done|]. split.
  - intros x Hx Hx'. apply list_elem_of_singleton in Hx'. by subst.
  - apply NoDup_singleton.
Qed.

(* ===================================================================== *)
(** ** The loop of main: customers and account numbers *)
(* ===================================================================== *)

Lemma mantem_ret {A} P (a : A) : mantem P (ret a).
Proof. intros w H. exact H. Qed.

Lemma mantem_bind {A B} P (m : IO A) (k : A -> IO B) :
  mantem P m -> (forall a, mantem P (k a)) -> mantem P (m ≫= k).
Proof.
  intros Hm Hk w H. unfold mbind, IO_bind. specialize (Hm w H).
  destruct (m w) as [a w1|e w1]; [by apply Hk|done].
Qed.

Lemma mantem_print P (m : Message) : mantem P (print m).
Proof. intros w H. exact H. Qed.

Lemma mantem_input P : mantem P input.
Proof. intros w H. unfold input. by destruct (stdin w). Qed.

Lemma mantem_ler_objeto P (r : nat) : mantem P (ler_objeto r).
Proof. intros w H. exact H. Qed.

Create HintDb mantem.
#[local] Hint Resolve mantem_ret mantem_print mantem_input mantem_ler_objeto : mantem.

(** A bind whose first computation is one of the primitives. *)
Ltac mantem_passo x :=
  apply mantem_bind; [solve [auto with mantem]|intros x].

Lemma numero_proximo (op : Operacao) (d : string) (conta : Objeto) :
  numero (proximo op d conta) = numero conta.
Proof.
  unfold proximo. destruct (aceita op conta); [|done].
  destruct conta, op; reflexivity.
Qed.

Lemma registrar_retorna (t : Transacao) (conta : Objeto) (w : World) :
  exists conta' w',
    registrar t conta w = Retorna conta' w' /\
    heap w' = heap w /\ numero conta' = numero conta.
Proof.
  destruct (executar_eq (Op_registrar t) conta w) as (m & Hrun & _).
  cbn [executar] in Hrun.
  destruct (registrar t conta w) as [c w1|e w1]; [|done].
  injection Hrun as _ -> ->. eexists _, _. split; [reflexivity|]. split.
  - unfold mundo_apos. by destruct (le_relogio _ _).
  - apply numero_proximo.
Qed.

Lemma heap_numerado_insert (h : list Objeto) (r : nat) (obj obj' : Objeto) :
  heap_numerado h -> h !! r = Some obj -> numero obj' = numero obj ->
  heap_numerado (<[r := obj']> h).
Proof.
  intros H Hr Hn i o Hi. destruct (decide (r = i)) as [->|Hne].
  - rewrite list_lookup_insert_eq in Hi by by eapply lookup_lt_Some.
    injection Hi as <-. rewrite Hn. by apply H.
  - rewrite list_lookup_insert_ne in Hi by done. by apply H.
Qed.

Lemma heap_numerado_snoc (h : list Objeto) (obj : Objeto) :
  heap_numerado h -> numero obj = Z.of_nat (length h) + 1 ->
  heap_numerado (h ++ [obj]).
Proof.
  intros H Hn i o Hi. apply lookup_snoc_Some in Hi as [[_ Hi]|[-> ->]]; [by apply H|done].
Qed.

Lemma mantem_realizar_transacao (n : nat) (r : nat) (t : Transacao) :
  mantem (numerado n) (realizar_transacao r t).
Proof.
  intros w [Hlen Hnum]. unfold realizar_transacao, ler_objeto, gravar_objeto.
  unfold ret, mbind, IO_bind, mret, IO_ret.
  destruct (heap w !! r) as [obj|] eqn:Hr; [|done].
  destruct (registrar_retorna t obj w) as (obj' & w' & -> & Hh & Hn).
  cbn [heap]. rewrite Hh. split; [by rewrite length_insert|].
  by eapply heap_numerado_insert.
Qed.

Lemma mantem_listar_cada P (contas : list nat) : mantem P (listar_cada contas).
Proof.
  induction contas as [|c cs IH]; cbn [listar_cada]; [auto with mantem|].
  mantem_passo o. apply mantem_bind; [|intros _; exact IH].
  destruct o; auto with mantem.
Qed.

Lemma mantem_listar_contas P (contas : list nat) : mantem P (listar_contas contas).
Proof.
  destruct contas; [apply mantem_print|apply mantem_listar_cada].
Qed.

Section Menu_mantem.

Variable float : string -> option PrimFloat.float.
Variable int : string -> option Z.
Variable formato_2f : PrimFloat.float -> string.

Lemma mantem_imprimir_opcoes P (i : Z) (contas : list nat) :
  mantem P (imprimir_opcoes i contas).
Proof.
  revert i. induction contas as [|c cs IH]; intros i; cbn [imprimir_opcoes];
    [auto with mantem|].
  mantem_passo o. apply mantem_bind; [|intros _; apply IH].
  destruct o; auto with mantem.
Qed.

Lemma escolher_conta_heap (contas : list nat) (entrada : list string) (w : World) :
  match escolher_conta int contas entrada w with
  | Retorna _ w' => heap w' = heap w
  | Levanta _ w' => heap w' = heap w
  end.
Proof.
  revert w. induction entrada as [|linha resto IH]; intros w; cbn [escolher_conta]; [done|].
  destruct (int linha) as [escolha|].
  - destruct (_ && _); [done|]. apply (IH (imprime _ (mkWorld _ _ _ _))).
  - apply (IH (imprime _ (mkWorld _ _ _ _))).
Qed.

Lemma mantem_recuperar_conta_cliente P (c : PessoaFisica) :
  mantem P (recuperar_conta_cliente int c).
Proof.
  unfold recuperar_conta_cliente. destruct (contas c) as [|r [|r' rs]].
  - mantem_passo u. auto with mantem.
  - auto with mantem.
  - mantem_passo u. apply mantem_bind; [apply mantem_imprimir_opcoes|intros _].
    intros w H. unfold ler_escolha.
    pose proof (escolher_conta_heap (r :: r' :: rs) (stdin w) w) as Hh.
    destruct (escolher_conta _ _ _ _); by rewrite Hh.
Qed.

Lemma mantem_depositar (n : nat) (clientes : list PessoaFisica) :
  mantem (numerado n) (depositar float int clientes).
Proof.
  unfold depositar. mantem_passo cpf'.
  destruct (filtrar_cliente _ _) as [[i c]|]; [|auto with mantem].
  mantem_passo linha.
  destruct (float _); [|auto with mantem].
  apply mantem_bind; [apply mantem_recuperar_conta_cliente|intros conta].
  destruct conta; [apply mantem_realizar_transacao|auto with mantem].
Qed.

Lemma mantem_sacar (n : nat) (clientes : list PessoaFisica) :
  mantem (numerado n) (sacar float int clientes).
Proof.
  unfold sacar. mantem_passo cpf'.
  destruct (filtrar_cliente _ _) as [[i c]|]; [|auto with mantem].
  mantem_passo linha.
  destruct (float _); [|auto with mantem].
  apply mantem_bind; [apply mantem_recuperar_conta_cliente|intros conta].
  destruct conta; [apply mantem_realizar_transacao|auto with mantem].
Qed.

Lemma mantem_exibir_extrato P (clientes : list PessoaFisica) :
  mantem P (exibir_extrato int formato_2f clientes).
Proof.
  unfold exibir_extrato. mantem_passo cpf'.
  destruct (filtrar_cliente _ _) as [[i c]|]; [|auto with mantem].
  apply mantem_bind; [apply mantem_recuperar_conta_cliente|intros conta].
  destruct conta; [|auto with mantem].
  mantem_passo o. destruct o; auto with mantem.
Qed.

End Menu_mantem.

Lemma criar_conta_casos (numero_conta : Z) (clientes : list PessoaFisica) (w : World) :
  match criar_conta numero_conta clientes w with
  | Retorna (Some r, clientes') w' =>
      r = length (heap w) /\
      exists i c,
        clientes !! i = Some c /\
        clientes' = <[i := adicionar_conta c r]> clientes /\
        heap w' = heap w ++ [DeContaCorrente (ContaCorrente_nova_conta i numero_conta)]
  | Retorna (None, clientes') w' => clientes' = clientes /\ heap w' = heap w
  | Levanta _ _ => True
  end.
Proof.
  unfold criar_conta, input, print, novo_objeto. unfold ret, mbind, IO_bind, mret, IO_ret.
  destruct (stdin w) as [|l1 r1]; [done|]. cbn [stdin].
  destruct (filtrar_cliente l1 clientes) as [[i c]|] eqn:Hf; [|done].
  apply filtrar_cliente_Some in Hf as [Hi _]. cbn [heap imprime].
  split; [done|]. by exists i, c.
Qed.

Lemma invariante_numeros (clientes : list PessoaFisica) (contas : list nat) (w : World) :
  invariante clientes contas w ->
  numeros_das_contas contas w = Some (seqZ 1 (Z.of_nat (length contas))) /\
  (forall i r, contas !! i = Some r ->
     exists obj, heap w !! r = Some obj /\ numero obj = Z.of_nat i + 1) /\
  length (heap w) = length contas /\
  NoDup contas.
Proof.
  intros (-> & Hnum & _). rewrite length_seq.
  assert (Hpt : forall i r, seq 0 (length (heap w)) !! i = Some r ->
            exists obj, heap w !! r = Some obj /\ numero obj = Z.of_nat i + 1).
  { intros i r Hi. apply lookup_seq in Hi as [-> Hlt]. cbn [Nat.add].
    destruct (lookup_lt_is_Some_2 (heap w) i Hlt) as [obj Hobj].
    exists obj. split; [done|]. by apply Hnum. }
  split; [|split; [exact Hpt|split; [done|apply NoDup_seq]]].
  apply mapM_Some_2, Forall2_same_length_lookup_2.
  - rewrite length_seq, length_seqZ. lia.
  - intros i r n Hi Hn. destruct (Hpt i r Hi) as (obj & -> & Hobj).
    apply lookup_seqZ in Hn as [-> _]. cbn. f_equal. lia.
Qed.

Section Menu_invariante.

Variable float : string -> option PrimFloat.float.
Variable int : string -> option Z.
Variable formato_2f : PrimFloat.float -> string.

Lemma main_iteracao_invariante (clientes : list PessoaFisica) (contas : list nat) (w : World) :
  invariante clientes contas w ->
  match main_iteracao float int formato_2f clientes contas w with
  | Retorna (_, clientes', contas') w' => invariante clientes' contas' w'
  | Levanta _ _ => True
  end.
Proof.
  intros (Hco & Hnum & Hnd).
  unfold main_iteracao, menu. unfold mbind at 1. unfold IO_bind, input.
  destruct (stdin w) as [|opcao resto]; [done|].
  set (w1 := mkWorld resto (stdout w) (relogio w) (heap w)).
  assert (H1 : numerado (length (heap w)) (heap w1)) by done.
  assert (Hpres : forall (m : IO unit),
            mantem (numerado (length (heap w))) m ->
            match (m;; ret (true, clientes, contas)) w1 with
            | Retorna (_, clientes', contas') w' => invariante clientes' contas' w'
            | Levanta _ _ => True
            end).
  { intros m Hm. unfold ret, mbind, IO_bind, mret, IO_ret. specialize (Hm w1 H1).
    destruct (m w1) as [[] w2|e w2]; [|done]. destruct Hm as [Hlen Hm].
    split; [by rewrite Hlen|done]. }
  repeat case_decide.
  - apply Hpres, mantem_depositar.
  - apply Hpres, mantem_sacar.
  - apply Hpres, mantem_exibir_extrato.
  - unfold ret, mbind, IO_bind, mret, IO_ret.
    destruct (criar_cliente clientes w1) as [clientes' w2|e w2] eqn:Hc; [|done].
    pose proof (criar_cliente_NoDup _ _ _ _ Hnd Hc) as Hnd'.
    apply criar_cliente_casos in Hc as [Hh _]. unfold invariante. by rewrite Hh.
  - unfold ret, mbind, IO_bind, mret, IO_ret.
    pose proof (criar_conta_casos (Z.of_nat (length contas) + 1) clientes w1) as Hc.
    destruct (criar_conta _ clientes w1) as [[[r|] clientes'] w2|e w2]; [| |done].
    + destruct Hc as (-> & i & c & Hi & -> & Hh). unfold invariante.
      rewrite Hh, length_app. cbn [length heap w1]. split; [|split].
      * rewrite Nat.add_1_r, seq_S. by rewrite Hco.
      * apply heap_numerado_snoc; [done|]. cbn. rewrite Hco, length_seq. done.
      * rewrite list_fmap_insert. cbn [cpf adicionar_conta].
        rewrite list_insert_id; [done|]. by rewrite list_lookup_fmap, Hi.
    + destruct Hc as [-> Hh]. unfold invariante. by rewrite Hh.
  - apply Hpres, mantem_listar_contas.
  - done.
  - done.
Qed.

Lemma main_loop_invariante (n : nat) (clientes : list PessoaFisica) (contas : list nat)
    (w : World) :
  invariante clientes contas w ->
  em_todo_estado invariante (main_loop float int formato_2f n clientes contas w).
Proof.
  revert clientes contas w. induction n as [|n IH]; intros clientes contas w H; [done|].
  cbn [main_loop]. pose proof (main_iteracao_invariante clientes contas w H) as Hstep.
  destruct (main_iteracao float int formato_2f clientes contas w) as [[[[] cl] co] w'|e w'];
    [by apply IH|done|done].
Qed.

Lemma main_invariante (n : nat) (entrada : list string) (rel : nat -> string) :
  em_todo_estado invariante (main float int formato_2f n entrada rel).
Proof.
  apply main_loop_invariante. split; [done|]. split; [|constructor].
  intros i obj Hi. done.
Qed.

End Menu_invariante.

Lemma em_todo_estado_impl (P Q : list PessoaFisica -> list nat -> World -> Prop)
    (a : Andamento) :
  (forall cl co w, P cl co w -> Q cl co w) -> em_todo_estado P a -> em_todo_estado Q a.
Proof. intros H. destruct a; cbn; auto. Qed.

(** C8.  [criar_cliente] with a CPF that a customer of the list already has
    prints that the customer exists and leaves the list as it was (same
    length, same contents); when it adds a customer, the CPF is that of no
    customer of the list.  So a list with no CPF twice stays so through
    every call, and through every run of main. *)
Theorem criar_cliente_cpf_unico :
  (forall (clientes : list PessoaFisica) (w : World) (cpf' : string) (resto : list string),
      stdin w = cpf' :: resto ->
      cpf' ∈ (cpf <$> clientes) ->
      criar_cliente clientes w =
        Retorna clientes
          (imprime MsgClienteJaExiste (mkWorld resto (stdout w) (relogio w) (heap w)))) /\
  (forall (clientes : list PessoaFisica) (w : World)
          (clientes' : list PessoaFisica) (w' : World),
      criar_cliente clientes w = Retorna clientes' w' ->
      (clientes' = clientes \/
       exists c, clientes' = clientes ++ [c] /\ (cpf c ∉ (cpf <$> clientes))) /\
      (NoDup (cpf <$> clientes) -> NoDup (cpf <$> clientes'))) /\
  (forall (float : string -> option PrimFloat.float) (int : string -> option Z)
          (formato_2f : PrimFloat.float -> string) (n : nat) (entrada : list string)
          (rel : nat -> string),
      em_todo_estado (fun clientes _ _ => NoDup (cpf <$> clientes))
        (main float int formato_2f n entrada rel)).
Proof.
  split; [|split].
  - intros clientes w cpf' resto Hin Hcpf.
    unfold criar_cliente, input, print. unfold ret, mbind, IO_bind, mret, IO_ret.
    rewrite Hin.
    destruct (filtrar_cliente cpf' clientes) as [p|] eqn:Hf; [reflexivity|].
    by apply filtrar_cliente_None in Hf.
  - intros clientes w clientes' w' Hrun. split.
    + apply criar_cliente_casos in Hrun as [_ [->|(c & -> & Hc & _)]]; [by left|].
      right. by exists c.
    + intros Hnd. by eapply criar_cliente_NoDup.
  - intros float int formato_2f n entrada rel.
    eapply em_todo_estado_impl; [|apply main_invariante].
    by intros cl co w (_ & _ & H).
Qed.

(** C8 with the CPF of the one customer of the list. *)
Lemma criar_cliente_cpf_unico_witness :
  criar_cliente [ana] (mkWorld ["123"%string] [] (relogio mundo_vazio) []) =
    Retorna [ana] (imprime MsgClienteJaExiste (mkWorld [] [] (relogio mundo_vazio) [])).
Proof.
  destruct criar_cliente_cpf_unico as (H & _).
  apply (H [ana] (mkWorld ["123"%string] [] (relogio mundo_vazio) []) "123"%string []).
  - reflexivity.
  - cbn. constructor.
Defined.

(** C9.  In any run of main, wherever it stands, the accounts of the list
    [contas] carry the numbers 1, 2, ..., in the order of their creation: the
    account at position [i] is numbered [i + 1], so the numbers go up
    strictly from 1 and none is used twice; every object allocated is in the
    list.  The option "nc" offers the length of [contas] plus 1; when the
    customer is found the account gets that number and joins [contas], and
    when the customer is not found [contas], the customers and the heap are
    as before, so the same number is offered next. *)
Theorem numeros_de_conta_sequenciais :
  (forall (float : string -> option PrimFloat.float) (int : string -> option Z)
          (formato_2f : PrimFloat.float -> string) (n : nat) (entrada : list string)
          (rel : nat -> string),
      em_todo_estado
        (fun _ contas w =>
           numeros_das_contas contas w = Some (seqZ 1 (Z.of_nat (length contas))) /\
           (forall i r, contas !! i = Some r ->
              exists obj, heap w !! r = Some obj /\ numero obj = Z.of_nat i + 1) /\
           length (heap w) = length contas /\
           NoDup contas)
        (main float int formato_2f n entrada rel)) /\
  (forall (float : string -> option PrimFloat.float) (int : string -> option Z)
          (formato_2f : PrimFloat.float -> string) (clientes : list PessoaFisica)
          (contas : list nat) (w : World) (cpf' : string) (resto : list string),
      stdin w = "nc"%string :: cpf' :: resto ->
      (forall i c,
          filtrar_cliente cpf' clientes = Some (i, c) ->
          main_iteracao float int formato_2f clientes contas w =
            Retorna
              (true, <[i := adicionar_conta c (length (heap w))]> clientes,
               contas ++ [length (heap w)])
              (imprime MsgContaCriada
                 (mkWorld resto (stdout w) (relogio w)
                    (heap w ++
                       [DeContaCorrente
                          (ContaCorrente_nova_conta i (Z.of_nat (length contas) + 1))])))) /\
      (filtrar_cliente cpf' clientes = None ->
          main_iteracao float int formato_2f clientes contas w =
            Retorna (true, clientes, contas)
              (imprime MsgClienteNaoEncontrado
                 (mkWorld resto (stdout w) (relogio w) (heap w))))).
Proof.
  split.
  - intros float int formato_2f n entrada rel.
    eapply em_todo_estado_impl; [|apply main_invariante].
    intros cl co w H. by apply (invariante_numeros cl).
  - intros float int formato_2f clientes contas w cpf' resto Hin.
    unfold main_iteracao, menu, criar_conta, input, print, novo_objeto.
    unfold ret, mbind, IO_bind, mret, IO_ret. rewrite Hin. cbn [stdin].
    repeat (case_decide; [done|]). case_decide; [|done]. cbn [stdin].
    split.
    + intros i c ->. reflexivity.
    + intros ->. reflexivity.
Qed.

(** C9: option "nc" for a known and for an unknown CPF. *)
Lemma numeros_de_conta_sequenciais_witness :
  main_iteracao (fun _ => None) (fun _ => None) formato_exemplo [ana] []
    (mkWorld ["nc"; "123"]%string [] (relogio mundo_vazio) []) =
    Retorna (true, [adicionar_conta ana 0%nat], [0%nat])
      (imprime MsgContaCriada
         (mkWorld [] [] (relogio mundo_vazio)
            [DeContaCorrente (ContaCorrente_nova_conta 0 1)])) /\
  main_iteracao (fun _ => None) (fun _ => None) formato_exemplo [ana] []
    (mkWorld ["nc"; "999"]%string [] (relogio mundo_vazio) []) =
    Retorna (true, [ana], [])
      (imprime MsgClienteNaoEncontrado (mkWorld [] [] (relogio mundo_vazio) [])).
Proof.
  destruct numeros_de_conta_sequenciais as (_ & H). split.
  - destruct (H (fun _ => None) (fun _ => None) formato_exemplo [ana] []
                (mkWorld ["nc"; "123"]%string [] (relogio mundo_vazio) []) "123"%string [])
      as (H1 & _); [reflexivity|].
    apply (H1 0%nat ana). reflexivity.
  - destruct (H (fun _ => None) (fun _ => None) formato_exemplo [ana] []
                (mkWorld ["nc"; "999"]%string [] (relogio mundo_vazio) []) "999"%string [])
      as (_ & H2); [reflexivity|].
    apply H2. reflexivity.
Defined.

(** A run of main by evaluation: a customer, a second customer refused for
    its CPF, an account refused for an unknown CPF, then two accounts. *)
Example main_exemplo :
  exists clientes w,
    main (fun _ => None) (fun _ => None) formato_exemplo 10
      ["nu"; "123"; "Ana"; "01-01-2000"; "Rua A"; "nu"; "123"; "nc"; "999";
       "nc"; "123"; "nc"; "123"; "q"]%string
      (fun _ => "03-11-2026 10:00:00"%string) = Saiu clientes [0; 1]%nat w /\
    cpf <$> clientes = ["123"%string] /\
    numeros_das_contas [0; 1]%nat w = Some [1; 2] /\
    stdout w = [MsgClienteCriado; MsgClienteJaExiste; MsgClienteNaoEncontrado;
                MsgContaCriada; MsgContaCriada; MsgSaindo].
Proof. eexists _, _. split; [vm_compute; reflexivity|]. repeat split. Qed.

(* ===================================================================== *)
(** ** Further properties of the account operations *)
(* ===================================================================== *)

Lemma mesma_identidade_refl (conta : Objeto) : mesma_identidade conta conta.
Proof. done. Qed.

Lemma mesma_identidade_trans (a b c : Objeto) :
  mesma_identidade a b -> mesma_identidade b c -> mesma_identidade a c.
Proof.
  intros (H1 & H2 & H3 & H4) (K1 & K2 & K3 & K4).
  repeat split; congruence.
Qed.

Lemma mesma_identidade_proximo (op : Operacao) (d : string) (conta : Objeto) :
  mesma_identidade conta (proximo op d conta).
Proof.
  unfold proximo. destruct (aceita op conta); [|done].
  destruct conta as [c|[c l n]], op; done.
Qed.




(** X1.  No operation changes the number, the branch, the owner, the class
    or the limits of an account: after each step of any sequence they are
    those the account had at the start. *)
Theorem identidade_da_conta_fixa (ops : list Operacao) (conta : Objeto) (w : World) :
  exists passos w',
    executar_todas ops conta w = Retorna passos w' /\
    Forall (fun p => mesma_identidade conta p.2) passos /\
    mesma_identidade conta (estado_final conta passos).
Proof.
  revert conta w. induction ops as [|op ops IH]; intros conta w.
  - exists [], w. repeat split; constructor.
  - passo IH op conta w m Hm passos w' HI. destruct HI as [Hall Hfin].
    pose proof (mesma_identidade_proximo op (relogio w 0%nat) conta) as Hid.
    eexists _, _. split; [reflexivity|]. split.
    + constructor; [exact Hid|].
      eapply Forall_impl; [exact Hall|]. intros p Hp.
      by eapply mesma_identidade_trans.
    + rewrite estado_final_cons. by eapply mesma_identidade_trans.
Qed.

Lemma mundo_apos_partes (op : Operacao) (conta : Objeto) (m : Message) (w : World) :
  stdin (mundo_apos op conta m w) = stdin w /\
  heap (mundo_apos op conta m w) = heap w /\
  stdout (mundo_apos op conta m w) = stdout w ++ [m].
Proof. unfold mundo_apos. by destruct (le_relogio op conta). Qed.

Lemma le_relogio_registradas (op : Operacao) (conta : Objeto) :
  length (if aceita op conta then transacao_de op else []) =
    if le_relogio op conta then 1%nat else 0%nat.
Proof. destruct op; cbn [le_relogio transacao_de]; by destruct (aceita _ conta). Qed.

(** X2.  A sequence of operations on an account reads no input and touches
    no object of the heap; it prints exactly one message for each
    operation, a message of failure exactly for those that fail; and it
    reads the clock once for each transaction recorded, never otherwise. *)
Theorem operacoes_so_imprimem (ops : list Operacao) (conta : Objeto) (w : World) :
  exists passos w' msgs,
    executar_todas ops conta w = Retorna passos w' /\
    stdin w' = stdin w /\
    heap w' = heap w /\
    stdout w' = stdout w ++ msgs /\
    falha <$> msgs = negb <$> passos.*1 /\
    (forall n, relogio w' n = relogio w (length (registradas ops passos) + n)%nat).
Proof.
  revert conta w. induction ops as [|op ops IH]; intros conta w.
  - exists [], w, []. repeat split. by rewrite app_nil_r.
  - cbn [executar_todas]. unfold ret, mbind, IO_bind, mret, IO_ret.
    destruct (executar_eq op conta w) as (m & -> & Hm).
    destruct (IH (proximo op (relogio w 0%nat) conta) (mundo_apos op conta m w))
      as (passos & w' & msgs & -> & Hin & Hheap & Hout & Hf & Hclock).
    destruct (mundo_apos_partes op conta m w) as (Hi1 & Hh1 & Ho1).
    exists ((aceita op conta, proximo op (relogio w 0%nat) conta) :: passos), w', (m :: msgs).
    split; [reflexivity|]. split; [congruence|]. split; [congruence|]. split; [|split].
    + rewrite Hout, Ho1, <- app_assoc. reflexivity.
    + rewrite !fmap_cons. cbn [fst]. by rewrite Hm, Hf.
    + intros n. rewrite Hclock, relogio_mundo_apos, registradas_cons.
      pose proof (le_relogio_registradas op conta) as Hl.
      destruct (aceita op conta); rewrite ?length_app;
        destruct (le_relogio op conta); cbn [length] in Hl; try rewrite Hl; f_equal; lia.
Qed.

Lemma limites_proximo (op : Operacao) (d : string) (conta : Objeto) :
  limites (proximo op d conta) = limites conta.
Proof. by destruct (mesma_identidade_proximo op d conta) as (_ & _ & _ & H). Qed.

Lemma passa_validacoes_limites (conta : Objeto) (v l : PrimFloat.float) (n : Z) :
  passa_validacoes conta v = true -> limites conta = Some (l, n) ->
  (l <? v)%float = false /\ numero_saques conta < n.
Proof.
  destruct conta as [c|cc]; [done|]. cbn [passa_validacoes limites].
  intros Hp [= <- <-]. apply andb_prop in Hp as [H1 H2].
  apply negb_true_iff in H1, H2. apply Z.leb_gt in H2. done.
Qed.

Lemma numero_saques_proximo (op : Operacao) (d : string) (conta : Objeto) :
  numero_saques (proximo op d conta) =
    numero_saques conta +
      (if aceita op conta && e_saque op && e_registro op then 1 else 0).
Proof.
  unfold proximo. destruct (aceita op conta) eqn:Ha; cbn [andb]; [|lia].
  destruct (e_saque op) eqn:Hs; cbn [andb].
  - destruct op as [v|v|[v|v]]; try done; cbn [e_registro].
    + rewrite !numero_saques_transacoes, transacoes_efeito, filter_app.
      cbn [transacao_de fmap list_fmap]. rewrite filter_nil, app_nil_r. lia.
    + rewrite !numero_saques_transacoes, transacoes_efeito, filter_app.
      cbn [transacao_de fmap list_fmap]. rewrite filter_cons_True by done.
      rewrite filter_nil, length_app. cbn [length]. lia.
  - rewrite (numero_saques_efeito op d conta Hs). lia.
Qed.

Lemma registro_regular_limites (conta conta' : Objeto) (r : Registro) :
  limites conta' = limites conta -> registro_regular conta r -> registro_regular conta' r.
Proof.
  intros Hl (H1 & H2 & H3). split; [done|]. split; [done|].
  intros l n. rewrite Hl. apply H3.
Qed.

Lemma historico_regular_proximo (op : Operacao) (d : string) (conta : Objeto) :
  historico_regular conta -> historico_regular (proximo op d conta).
Proof.
  intros [Hall Hnum]. pose proof (limites_proximo op d conta) as Hl. split.
  - rewrite transacoes_proximo. apply Forall_app. split.
    + eapply Forall_impl; [exact Hall|]. intros r. by apply registro_regular_limites.
    + destruct (aceita op conta) eqn:Ha; [|constructor].
      destruct op as [v|v|[v|v]]; cbn [transacao_de fmap list_fmap];
        [constructor|constructor| |]; apply Forall_singleton; cbn [aceita] in Ha.
      * apply andb_prop in Ha as [Ha Hpos]. apply andb_prop in Ha as [Hp Hs].
        split; [done|]. split; [by left|].
        intros l n. rewrite Hl. intros Hlim _.
        destruct (passa_validacoes_limites conta v l n Hp Hlim) as [Hv _].
        split; [done|]. intros Hnan.
        apply ltb_false_leb; [done| |done]. by apply ltb_zero_eqb.
      * split; [done|]. split; [by right|]. by intros l n _ Ht.
  - intros l n. rewrite Hl. intros Hlim. rewrite numero_saques_proximo.
    specialize (Hnum l n Hlim).
    destruct (aceita op conta) eqn:Ha; cbn [andb]; [|lia].
    destruct op as [v|v|[v|v]]; cbn [e_saque e_registro andb]; try lia.
    cbn [aceita] in Ha. apply andb_prop in Ha as [Ha _]. apply andb_prop in Ha as [Hp _].
    destruct (passa_validacoes_limites conta v l n Hp Hlim). lia.
Qed.

(** X3.  The history of an account stays well formed through any sequence
    of operations: every entry has an amount greater than 0 and the name
    Saque or Deposito, and on a checking account no Saque entry exceeds the
    limit per withdrawal (each is [<=] the limit, unless the limit is nan)
    and the Saque entries never outnumber the maximum.
    An account fresh from [nova_conta] starts so. *)
Theorem historico_bem_formado :
  (forall (titular : nat) (n : Z),
      historico_regular (DeContaCorrente (ContaCorrente_nova_conta titular n))) /\
  (forall (ops : list Operacao) (conta : Objeto) (w : World),
      historico_regular conta ->
      exists passos w',
        executar_todas ops conta w = Retorna passos w' /\
        Forall (fun p => historico_regular p.2) passos /\
        historico_regular (estado_final conta passos)).
Proof.
  split.
  - intros titular n. split; [constructor|]. intros l k [= <- <-]. done.
  - induction ops as [|op ops IH]; intros conta w H.
    + exists [], w. split; [reflexivity|]. split; [constructor|exact H].
    + cbn [executar_todas]. unfold ret, mbind, IO_bind, mret, IO_ret.
      destruct (executar_eq op conta w) as (m & -> & Hm).
      pose proof (historico_regular_proximo op (relogio w 0%nat) conta H) as Hnext.
      destruct (IH (proximo op (relogio w 0%nat) conta) (mundo_apos op conta m w) Hnext)
        as (passos & w' & -> & Hall & Hfin).
      eexists _, _. split; [reflexivity|]. split; [by constructor|].
      by rewrite estado_final_cons.
Qed.

(** X3 on a fresh checking account: a deposit, four withdrawals (the last
    one refused), one of them a direct call. *)
Lemma historico_bem_formado_witness :
  exists passos w',
    executar_todas
      [Op_registrar (Deposito 1000); Op_registrar (Saque 10); Op_sacar 20;
       Op_registrar (Saque 10); Op_registrar (Saque 10); Op_registrar (Saque 10)]
      conta_nova mundo_vazio = Retorna passos w' /\
    Forall (fun p => historico_regular p.2) passos /\
    historico_regular (estado_final conta_nova passos).
Proof.
  destruct historico_bem_formado as [H0 H].
  apply (H _ conta_nova mundo_vazio). apply (H0 0%nat 1).
Defined.

Lemma liquido_snoc (s : PrimFloat.float) (h : list Registro) (r : Registro) :
  liquido s (h ++ [r]) = lancar (liquido s h) r.
Proof. unfold liquido. by rewrite fold_left_app. Qed.

Lemma lancar_registro_de (t : Transacao) (d : string) (s : PrimFloat.float) :
  lancar s (registro_de t d) = novo_saldo (Op_registrar t) s.
Proof. by destruct t. Qed.

Lemma acompanha_proximo (s0 : PrimFloat.float) (h0 : list Registro)
    (t : Transacao) (d : string) (conta : Objeto) :
  acompanha s0 h0 conta -> acompanha s0 h0 (proximo (Op_registrar t) d conta).
Proof.
  intros (novas & Hh & Hs). unfold proximo.
  destruct (aceita (Op_registrar t) conta); [|by exists novas].
  exists (novas ++ [registro_de t d]). split.
  - rewrite transacoes_efeito, Hh. cbn [transacao_de fmap list_fmap].
    by rewrite <- app_assoc.
  - by rewrite saldo_efeito, liquido_snoc, lancar_registro_de, Hs.
Qed.

Lemma acompanha_inicio (conta : Objeto) : acompanha (saldo conta) (transacoes conta) conta.
Proof. exists []. by rewrite app_nil_r. Qed.

(** X4.  Through transactions applied with [registrar] the balance and the
    history move together: after each step the history is the history
    before followed by new entries, and the balance is what those entries
    give when they are applied again in their order to the balance before,
    a Deposito by a sum and a Saque by a difference of binary64.  So on an
    account that starts with balance 0 and no history the balance can be
    computed again from the history after every step. *)
Theorem saldo_confere_com_historico (ops : list Operacao) (conta : Objeto) (w : World) :
  Forall (fun op => e_registro op = true) ops ->
  exists passos w',
    executar_todas ops conta w = Retorna passos w' /\
    Forall (fun p => exists novas,
                       transacoes p.2 = transacoes conta ++ novas /\
                       saldo p.2 = liquido (saldo conta) novas) passos /\
    (recem_criada conta ->
       Forall (fun p => saldo p.2 = liquido 0 (transacoes p.2)) passos).
Proof.
  intros Hops.
  destruct (executar_todas_invariante (acompanha (saldo conta) (transacoes conta))
              (fun op => e_registro op = true)) with (ops := ops) (conta := conta) (w := w)
    as (passos & w' & Hrun & _ & Hall & _).
  - intros [v|v|t] d c Hop Hc; try done. by apply acompanha_proximo.
  - done.
  - apply acompanha_inicio.
  - exists passos, w'. split; [exact Hrun|]. split; [exact Hall|].
    intros Hn. eapply Forall_impl; [exact Hall|]. intros p (novas & Hh & Hs).
    rewrite Hs, Hh, (saldo_recem_criada _ Hn).
    by destruct Hn as [(n & c & ->)|(n & c & l & ls & ->)].
Qed.

(** X4 on a fresh checking account. *)
Lemma saldo_confere_com_historico_witness :
  exists passos w',
    executar_todas
      [Op_registrar (Deposito 1000); Op_registrar (Saque 600); Op_registrar (Saque 10)]
      conta_nova mundo_vazio = Retorna passos w' /\
    Forall (fun p => exists novas,
                       transacoes p.2 = transacoes conta_nova ++ novas /\
                       saldo p.2 = liquido (saldo conta_nova) novas) passos /\
    (recem_criada conta_nova ->
       Forall (fun p => saldo p.2 = liquido 0 (transacoes p.2)) passos).
Proof.
  apply (saldo_confere_com_historico
           [Op_registrar (Deposito 1000); Op_registrar (Saque 600); Op_registrar (Saque 10)]
           conta_nova mundo_vazio).
  repeat constructor.
Defined.

Lemma aceita_nan (op : Operacao) (conta : Objeto) :
  saldo conta = nan -> aceita op conta = aceita_sem_saldo op conta.
Proof.
  intros H. unfold aceita_sem_saldo.
  destruct op as [v|v|[v|v]]; cbn [aceita e_saque valor_de Transacao_valor]; try done;
    by rewrite H, ltb_nan, andb_true_r.
Qed.

Lemma saldo_proximo_nan (op : Operacao) (d : string) (conta : Objeto) :
  saldo conta = nan -> saldo (proximo op d conta) = nan.
Proof.
  intros H. unfold proximo. destruct (aceita op conta); [|done].
  rewrite saldo_efeito. unfold novo_saldo. rewrite H.
  destruct (e_saque op); [apply sub_nan|apply add_nan].
Qed.

(** X18.  A balance that is nan stays nan, and on such an account no
    withdrawal is refused for the balance: an operation succeeds exactly
    when it passes the checks of the class of the account and its amount
    is greater than 0, and after each step of any sequence of operations
    the balance is still nan. *)
Theorem saldo_nan_permanece :
  (forall (op : Operacao) (conta : Objeto) (w : World),
      saldo conta = nan ->
      exists conta' w',
        executar op conta w = Retorna (aceita_sem_saldo op conta, conta') w' /\
        saldo conta' = nan) /\
  (forall (ops : list Operacao) (conta : Objeto) (w : World),
      saldo conta = nan ->
      exists passos w',
        executar_todas ops conta w = Retorna passos w' /\
        length passos = length ops /\
        Forall (fun p => saldo p.2 = nan) passos /\
        saldo (estado_final conta passos) = nan).
Proof.
  split.
  - intros op conta w H. destruct (executar_eq op conta w) as (m & -> & Hm).
    rewrite (aceita_nan op conta H). eexists _, _. split; [reflexivity|].
    by apply saldo_proximo_nan.
  - intros ops conta w H.
    apply (executar_todas_invariante (fun c => saldo c = nan) (fun _ => True));
      [|by apply Forall_true|done].
    intros op d c _ Hc. by apply saldo_proximo_nan.
Qed.

(** X18 on a base account with balance nan: a withdrawal of 5 and a
    deposit of 3 succeed. *)
Lemma saldo_nan_permanece_witness :
  exists passos w',
    executar_todas [Op_sacar 5; Op_depositar 3] conta_de_nan mundo_vazio =
      Retorna passos w' /\
    length passos = 2%nat /\
    Forall (fun p => saldo p.2 = nan) passos /\
    saldo (estado_final conta_de_nan passos) = nan.
Proof.
  destruct saldo_nan_permanece as [_ H].
  apply (H [Op_sacar 5; Op_depositar 3] conta_de_nan mundo_vazio). reflexivity.
Defined.

(* ===================================================================== *)
(** ** Further properties of the menu *)
(* ===================================================================== *)

(** X5.  [filtrar_cliente] answers with the first customer of the list that
    has the CPF, at its position, and with None exactly when no customer
    has it. *)
Theorem filtrar_cliente_primeiro (cpf' : string) (clientes : list PessoaFisica) :
  match filtrar_cliente cpf' clientes with
  | Some (i, c) =>
      clientes !! i = Some c /\ cpf c = cpf' /\
      (forall j c', (j < i)%nat -> clientes !! j = Some c' -> cpf c' <> cpf')
  | None => forall c, c ∈ clientes -> cpf c <> cpf'
  end.
Proof.
  destruct (filtrar_cliente cpf' clientes) as [[i c]|] eqn:Hf.
  - destruct (filtrar_cliente_Some _ _ _ _ Hf) as [Hi Hc]. split; [done|split; [done|]].
    apply head_filter_Some in Hf as (l1 & l2 & Heq & Hall).
    assert (Hlen : length l1 = i).
    { pose proof (list_lookup_middle l1 l2 (i, c) (length l1) eq_refl) as Hm.
      rewrite <- Heq, list_lookup_imap in Hm.
      destruct (clientes !! length l1); [|done]. by injection Hm as ->. }
    intros j c' Hj Hj' Hcpf.
    assert (Hin : imap pair clientes !! j = Some (j, c')) by (by rewrite list_lookup_imap, Hj').
    rewrite Heq, lookup_app_l in Hin by lia.
    apply list_elem_of_lookup_2 in Hin.
    rewrite Forall_forall in Hall. by apply (Hall _ Hin).
  - intros c Hc Hcpf. apply filtrar_cliente_None in Hf. apply Hf.
    apply list_elem_of_fmap. by exists c.
Qed.

Section Menu_escolha.

Variable int : string -> option Z.

Lemma recusa_None (n : nat) (linha : string) :
  recusa int n linha = None ->
  exists k, int linha = Some k /\ 1 <= k <= Z.of_nat n.
Proof.
  unfold recusa. destruct (int linha) as [k|]; [|done].
  destruct (_ && _) eqn:E; [|done]. intros _. exists k. split; [done|].
  apply andb_prop in E as [H1 H2]. apply Z.leb_le in H1, H2. done.
Qed.

Lemma escolher_conta_recusadas (contas' : list nat) (ruins : list string)
    (entrada : list string) (w : World) :
  Forall (fun l => is_Some (recusa int (length contas') l)) ruins ->
  stdin w = ruins ++ entrada ->
  escolher_conta int contas' (ruins ++ entrada) w =
    escolher_conta int contas' entrada
      (mkWorld entrada (stdout w ++ omap (recusa int (length contas')) ruins)
         (relogio w) (heap w)).
Proof.
  intros Hall. revert w. induction Hall as [|l ruins [m Hm] _ IH]; intros w Hin.
  - cbn [app omap list_omap] in *. rewrite app_nil_r, <- Hin. by destruct w.
  - cbn [app escolher_conta omap list_omap]. rewrite Hm. unfold recusa in Hm.
    destruct (int l) as [k|].
    + destruct (_ && _); [done|]. injection Hm as <-. rewrite IH by done.
      cbn [stdout relogio heap imprime]. by rewrite <- app_assoc.
    + injection Hm as <-. rewrite IH by done.
      cbn [stdout relogio heap imprime]. by rewrite <- app_assoc.
Qed.

(** X6.  The choice loop of recuperar_conta_cliente skips every line that is
    not a number of the list, printing one message for each (invalid entry
    when the line is no number, invalid option when it is out of range), and
    answers with the account at position [k - 1] for the first line that
    reads as a number [k] of the list; that line is the last one consumed.
    If the input ends first, EOFError is raised. *)
Theorem ler_escolha_primeira_valida (contas' : list nat) (ruins : list string)
    (w : World) :
  Forall (fun l => is_Some (recusa int (length contas') l)) ruins ->
  (forall (linha : string) (resto : list string) (k : Z),
      stdin w = ruins ++ linha :: resto ->
      int linha = Some k -> 1 <= k <= Z.of_nat (length contas') ->
      exists r,
        contas' !! Z.to_nat (k - 1) = Some r /\
        ler_escolha int contas' w =
          Retorna (Some r)
            (mkWorld resto (stdout w ++ omap (recusa int (length contas')) ruins)
               (relogio w) (heap w))) /\
  (stdin w = ruins ->
     ler_escolha int contas' w =
       Levanta EOFError
         (mkWorld [] (stdout w ++ omap (recusa int (length contas')) ruins)
            (relogio w) (heap w))).
Proof.
  intros Hall. unfold ler_escolha. split.
  - intros linha resto k Hin Hk Hr.
    destruct (lookup_lt_is_Some_2 contas' (Z.to_nat (k - 1))) as [r Hlook]; [lia|].
    exists r. split; [exact Hlook|].
    rewrite Hin, escolher_conta_recusadas by done. cbn [escolher_conta]. rewrite Hk.
    destruct (Z.leb_spec 1 k); [|lia].
    destruct (Z.leb_spec k (Z.of_nat (length contas'))); [|lia].
    cbn [andb stdout relogio heap]. by rewrite Hlook.
  - intros Hin. rewrite Hin. rewrite <- (app_nil_r ruins) at 1.
    rewrite escolher_conta_recusadas; [done|done|by rewrite app_nil_r].
Qed.

Lemma escolher_conta_resultado (contas' : list nat) (entrada : list string) (w : World) :
  match escolher_conta int contas' entrada w with
  | Retorna o w' =>
      (exists r, o = Some r /\ r ∈ contas') /\
      heap w' = heap w /\ relogio w' = relogio w /\
      stdin w' `suffix_of` entrada /\ (length (stdin w') < length entrada)%nat /\
      stdout w `prefix_of` stdout w'
  | Levanta _ w' =>
      heap w' = heap w /\ relogio w' = relogio w /\ stdout w `prefix_of` stdout w'
  end.
Proof.
  revert w. induction entrada as [|linha resto IH]; intros w; cbn [escolher_conta]; [done|].
  assert (Hrec : forall m,
    match escolher_conta int contas' resto
            (imprime m (mkWorld resto (stdout w) (relogio w) (heap w))) with
    | Retorna o w' =>
        (exists r, o = Some r /\ r ∈ contas') /\
        heap w' = heap w /\ relogio w' = relogio w /\
        stdin w' `suffix_of` linha :: resto /\
        (length (stdin w') < length (linha :: resto))%nat /\
        stdout w `prefix_of` stdout w'
    | Levanta _ w' =>
        heap w' = heap w /\ relogio w' = relogio w /\ stdout w `prefix_of` stdout w'
    end).
  { intros m. specialize (IH (imprime m (mkWorld resto (stdout w) (relogio w) (heap w)))).
    destruct (escolher_conta _ _ _ _) as [o w'|e w']; cbn [heap relogio stdout imprime] in IH.
    - destruct IH as (Ho & Hh & Hr & Hs & Hl & Hp). repeat split; try done.
      + by apply suffix_cons_r.
      + cbn [length]. lia.
      + etrans; [|exact Hp]. by apply prefix_app_r.
    - destruct IH as (Hh & Hr & Hp). repeat split; try done.
      etrans; [|exact Hp]. by apply prefix_app_r. }
  destruct (int linha) as [k|]; [|apply Hrec].
  destruct (_ && _) eqn:E; [|apply Hrec].
  apply andb_prop in E as [H1 H2]. apply Z.leb_le in H1, H2.
  destruct (lookup_lt_is_Some_2 contas' (Z.to_nat (k - 1))) as [r Hlook]; [lia|].
  rewrite Hlook. cbn [heap relogio stdin stdout]. repeat split; try done.
  - exists r. split; [done|]. by eapply list_elem_of_lookup_2.
  - by apply suffix_cons_r.
  - cbn [length]. lia.
Qed.

End Menu_escolha.

(** X6 with two accounts: a line that is no number and a 9 are refused, then
    2 chooses the second account. *)
Lemma ler_escolha_primeira_valida_witness :
  ler_escolha int_exemplo [4; 7]%nat
    (mkWorld ["x"; "9"; "2"; "q"]%string [] (relogio mundo_vazio) []) =
    Retorna (Some 7%nat)
      (mkWorld ["q"%string] [MsgEntradaInvalida; MsgOpcaoInvalida] (relogio mundo_vazio) []).
Proof.
  destruct (ler_escolha_primeira_valida int_exemplo [4; 7]%nat ["x"; "9"]%string
              (mkWorld ["x"; "9"; "2"; "q"]%string [] (relogio mundo_vazio) []))
    as [H _].
  - repeat constructor; by eexists.
  - destruct (H "2"%string ["q"%string] 2) as (r & Hr & Hrun);
      [reflexivity|reflexivity|calcula|].
    injection Hr as <-. exact Hrun.
Defined.

Lemma avanca_refl (w : World) : avanca w w.
Proof. split; reflexivity. Qed.

Lemma avanca_trans (w1 w2 w3 : World) : avanca w1 w2 -> avanca w2 w3 -> avanca w1 w3.
Proof. intros [H1 H2] [K1 K2]. split; etrans; eauto. Qed.

Lemma avanca_imprime (m : Message) (w : World) : avanca w (imprime m w).
Proof. split; [reflexivity|]. by apply prefix_app_r. Qed.

Lemma avanca_lido (linha : string) (resto : list string) (w : World) :
  stdin w = linha :: resto ->
  avanca w (mkWorld resto (stdout w) (relogio w) (heap w)).
Proof. intros H. split; [|reflexivity]. rewrite H. cbn. by apply suffix_cons_r. Qed.

Lemma avanca_partes (w w' : World) :
  stdin w' = stdin w -> stdout w `prefix_of` stdout w' -> avanca w w'.
Proof. intros H1 H2. split; [by rewrite H1|done]. Qed.

Lemma avanca_length (w w' : World) :
  avanca w w' -> (length (stdin w') <= length (stdin w))%nat.
Proof. intros [H _]. by apply suffix_length. Qed.

Lemma registrar_mundo (t : Transacao) (conta : Objeto) (w : World) :
  exists conta' w',
    registrar t conta w = Retorna conta' w' /\
    conta' = proximo (Op_registrar t) (relogio w 0%nat) conta /\
    heap w' = heap w /\ avanca w w'.
Proof.
  destruct (executar_eq (Op_registrar t) conta w) as (m & Hrun & _).
  cbn [executar] in Hrun.
  destruct (registrar t conta w) as [c w1|e w1]; [|done].
  injection Hrun as _ -> ->. eexists _, _. split; [reflexivity|]. split; [reflexivity|].
  destruct (mundo_apos_partes (Op_registrar t) conta m w) as (Hi & Hh & Ho).
  split; [done|]. apply avanca_partes; [done|]. rewrite Ho. by apply prefix_app_r.
Qed.

Lemma realizar_transacao_passo (r : nat) (t : Transacao) (w : World) :
  exists w',
    realizar_transacao r t w = Retorna tt w' /\
    avanca w w' /\
    match heap w !! r with
    | Some obj =>
        exists obj' w1 w2,
          registrar t obj w1 = Retorna obj' w2 /\ heap w' = <[r := obj']> (heap w)
    | None => heap w' = heap w
    end.
Proof.
  unfold realizar_transacao, ler_objeto, gravar_objeto.
  unfold ret, mbind, IO_bind, mret, IO_ret.
  destruct (heap w !! r) as [obj|] eqn:Hr.
  - destruct (registrar_mundo t obj w) as (obj' & w' & Hreg & _ & Hh & Hav).
    rewrite Hreg. eexists. split; [reflexivity|]. split.
    + destruct Hav as [H1 H2]. split; done.
    + exists obj', w, w'. split; [done|]. cbn [heap]. by rewrite Hh.
  - exists w. split; [reflexivity|]. split; [apply avanca_refl|done].
Qed.

Lemma imprimir_opcoes_so_es (i : Z) (contas' : list nat) (w : World) :
  exists w', imprimir_opcoes i contas' w = Retorna tt w' /\
    heap w' = heap w /\ relogio w' = relogio w /\ stdin w' = stdin w /\
    stdout w `prefix_of` stdout w'.
Proof.
  revert i w. induction contas' as [|c cs IH]; intros i w; cbn [imprimir_opcoes].
  - by exists w.
  - unfold ret, print, ler_objeto, mbind, IO_bind, mret, IO_ret.
    destruct (heap w !! c) as [obj|].
    + destruct (IH (i + 1) (imprime (MsgOpcaoConta (i + 1) (numero obj)) w))
        as (w' & -> & Hh & Hr & Hi & Ho).
      exists w'. repeat split; try done. etrans; [|exact Ho]. by apply prefix_app_r.
    + destruct (IH (i + 1) w) as (w' & -> & H). by exists w'.
Qed.

Lemma listar_cada_imprime (contas' : list nat) (w : World) :
  listar_cada contas' w =
    Retorna tt
      (mkWorld (stdin w)
         (stdout w ++
            omap (fun r => (fun obj => MsgConta (agencia obj) (numero obj) (cliente obj))
                             <$> heap w !! r) contas')
         (relogio w) (heap w)).
Proof.
  revert w. induction contas' as [|c cs IH]; intros w; cbn [listar_cada omap list_omap].
  - rewrite app_nil_r. by destruct w.
  - unfold ret, print, ler_objeto, mbind, IO_bind, mret, IO_ret.
    destruct (heap w !! c) as [obj|] eqn:Hc; cbn [fmap option_fmap option_map].
    + rewrite IH. cbn [stdin stdout relogio heap imprime]. by rewrite <- app_assoc.
    + by rewrite IH.
Qed.

Lemma listar_contas_eq (contas' : list nat) (w : World) :
  listar_contas contas' w =
    Retorna tt
      (mkWorld (stdin w)
         (stdout w ++
            match contas' with
            | [] => [MsgNenhumaConta]
            | _ => omap (fun r => (fun obj => MsgConta (agencia obj) (numero obj) (cliente obj))
                                    <$> heap w !! r) contas'
            end)
         (relogio w) (heap w)).
Proof.
  destruct contas' as [|c cs]; [reflexivity|]. apply listar_cada_imprime.
Qed.

(** X7.  [listar_contas] reads no input and changes no object and no clock:
    for an empty list it prints that no account exists, and otherwise one
    description (branch, number, holder) for each account of the list, in
    the order of the list. *)
Theorem listar_contas_imprime (contas' : list nat) (w : World) :
  listar_contas contas' w =
    Retorna tt
      (mkWorld (stdin w)
         (stdout w ++
            match contas' with
            | [] => [MsgNenhumaConta]
            | _ => omap (fun r => (fun obj => MsgConta (agencia obj) (numero obj) (cliente obj))
                                    <$> heap w !! r) contas'
            end)
         (relogio w) (heap w)).
Proof. exact (listar_contas_eq contas' w). Qed.

Section Menu_turno.

Variable float : string -> option PrimFloat.float.
Variable int : string -> option Z.
Variable formato_2f : PrimFloat.float -> string.

Lemma recuperar_conta_cliente_resultado (c : PessoaFisica) (w : World) :
  (contas c = [] ->
     recuperar_conta_cliente int c w = Retorna None (imprime MsgClienteSemConta w)) /\
  (forall r, contas c = [r] -> recuperar_conta_cliente int c w = Retorna (Some r) w) /\
  match recuperar_conta_cliente int c w with
  | Retorna o w' =>
      (forall r, o = Some r -> r ∈ contas c) /\
      (o = None -> contas c = []) /\
      heap w' = heap w /\ relogio w' = relogio w /\ avanca w w'
  | Levanta _ w' => (2 <= length (contas c))%nat /\ heap w' = heap w
  end.
Proof.
  unfold recuperar_conta_cliente. destruct (contas c) as [|r [|r' rs]] eqn:Hc.
  - split; [done|]. split; [done|].
    cbn. repeat split; try done. apply avanca_imprime.
  - split; [done|]. split; [by intros ? [= ->]|].
    cbn. repeat split; try done; try (intros ? [= <-]; left).
  - split; [done|]. split; [done|].
    unfold ret, print, ler_escolha, mbind, IO_bind, mret, IO_ret.
    destruct (imprimir_opcoes_so_es 0 (r :: r' :: rs) (imprime MsgEscolhaConta w))
      as (w1 & -> & Hh & Hr & Hi & Ho).
    pose proof (escolher_conta_resultado int (r :: r' :: rs) (stdin w1) w1) as He.
    destruct (escolher_conta _ _ _ _) as [o w2|e w2].
    + destruct He as ((x & -> & Hx) & Hh2 & Hr2 & Hs & _ & Hp).
      split; [by intros ? [= <-]|]. split; [done|].
      split; [by rewrite Hh2, Hh|]. split; [by rewrite Hr2, Hr|].
      split; [by rewrite Hi in Hs|].
      etrans; [|exact Hp]. etrans; [|exact Ho]. by apply prefix_app_r.
    + destruct He as (Hh2 & _). split; [cbn; lia|]. by rewrite Hh2, Hh.
Qed.

(** X8.  recuperar_conta_cliente answers None, with a message and without
    reading, for a customer with no account; answers the one account of a
    customer that has one, without reading or printing; and otherwise
    answers only with an account of the customer's list.  In every case it
    changes no object and no clock, consumes input only from the front and
    only adds to the output. *)
Theorem recuperar_conta_cliente_casos (c : PessoaFisica) (w : World) :
  (contas c = [] ->
     recuperar_conta_cliente int c w = Retorna None (imprime MsgClienteSemConta w)) /\
  (forall r, contas c = [r] -> recuperar_conta_cliente int c w = Retorna (Some r) w) /\
  match recuperar_conta_cliente int c w with
  | Retorna o w' =>
      (forall r, o = Some r -> r ∈ contas c) /\
      (o = None -> contas c = []) /\
      heap w' = heap w /\ relogio w' = relogio w /\ avanca w w'
  | Levanta _ w' => (2 <= length (contas c))%nat /\ heap w' = heap w
  end.
Proof. exact (recuperar_conta_cliente_resultado c w). Qed.

Lemma transacao_turno (clientes : list PessoaFisica) (contas' : list nat)
    (i : nat) (c : PessoaFisica) (t : Transacao) (w0 w : World) :
  clientes !! i = Some c ->
  avanca w0 w -> heap w = heap w0 ->
  match (conta ← recuperar_conta_cliente int c;
         match conta with
         | None => ret tt
         | Some conta => realizar_transacao conta t
         end) w with
  | Retorna _ w' =>
      avanca w0 w' /\ transicao clientes contas' (heap w0) clientes contas' (heap w')
  | Levanta _ _ => True
  end.
Proof.
  intros Hi Hav Hh. unfold mbind at 1. unfold IO_bind.
  destruct (recuperar_conta_cliente_resultado c w) as (_ & _ & Hrec).
  destruct (recuperar_conta_cliente int c w) as [[r|] w1|e w1]; [| |done].
  - destruct Hrec as (Hin & _ & Hh1 & _ & Hav1). specialize (Hin r eq_refl).
    destruct (realizar_transacao_passo r t w1) as (w2 & -> & Hav2 & Hstep).
    split; [eauto using avanca_trans|].
    rewrite Hh1, Hh in Hstep. destruct (heap w0 !! r) as [obj|] eqn:Hr.
    + destruct Hstep as (obj' & wa & wb & Hreg & ->). by eapply T_transacao.
    + rewrite Hstep. constructor.
  - destruct Hrec as (_ & _ & Hh1 & _ & Hav1). cbn.
    split; [eauto using avanca_trans|]. rewrite Hh1, Hh. constructor.
Qed.

Lemma depositar_turno (clientes : list PessoaFisica) (contas' : list nat) (w : World) :
  match depositar float int clientes w with
  | Retorna _ w' =>
      avanca w w' /\ transicao clientes contas' (heap w) clientes contas' (heap w')
  | Levanta _ _ => True
  end.
Proof.
  unfold depositar, input. unfold mbind at 1. unfold IO_bind.
  destruct (stdin w) as [|l1 r1] eqn:E1; [done|].
  pose proof (avanca_lido l1 r1 w E1) as Hav1.
  destruct (filtrar_cliente l1 clientes) as [[i c]|] eqn:Hf.
  - apply filtrar_cliente_Some in Hf as [Hi _].
    unfold mbind at 1. unfold IO_bind. cbn [stdin].
    destruct r1 as [|l2 r2]; [done|]. cbn [stdout relogio heap].
    set (w2 := mkWorld r2 (stdout w) (relogio w) (heap w)).
    assert (Hav2 : avanca w w2).
    { split; [|reflexivity]. rewrite E1. cbn. by do 2 apply suffix_cons_r. }
    destruct (float l2) as [valor|].
    + by apply (transacao_turno clientes contas' i c (Deposito valor) w w2).
    + cbn. split; [|constructor]. eapply avanca_trans; [exact Hav2|apply avanca_imprime].
  - cbn. split; [|constructor]. eapply avanca_trans; [exact Hav1|apply avanca_imprime].
Qed.

Lemma sacar_turno (clientes : list PessoaFisica) (contas' : list nat) (w : World) :
  match sacar float int clientes w with
  | Retorna _ w' =>
      avanca w w' /\ transicao clientes contas' (heap w) clientes contas' (heap w')
  | Levanta _ _ => True
  end.
Proof.
  unfold sacar, input. unfold mbind at 1. unfold IO_bind.
  destruct (stdin w) as [|l1 r1] eqn:E1; [done|].
  pose proof (avanca_lido l1 r1 w E1) as Hav1.
  destruct (filtrar_cliente l1 clientes) as [[i c]|] eqn:Hf.
  - apply filtrar_cliente_Some in Hf as [Hi _].
    unfold mbind at 1. unfold IO_bind. cbn [stdin].
    destruct r1 as [|l2 r2]; [done|]. cbn [stdout relogio heap].
    set (w2 := mkWorld r2 (stdout w) (relogio w) (heap w)).
    assert (Hav2 : avanca w w2).
    { split; [|reflexivity]. rewrite E1. cbn. by do 2 apply suffix_cons_r. }
    destruct (float l2) as [valor|].
    + by apply (transacao_turno clientes contas' i c (Saque valor) w w2).
    + cbn. split; [|constructor]. eapply avanca_trans; [exact Hav2|apply avanca_imprime].
  - cbn. split; [|constructor]. eapply avanca_trans; [exact Hav1|apply avanca_imprime].
Qed.

Lemma exibir_extrato_turno (clientes : list PessoaFisica) (w : World) :
  match exibir_extrato int formato_2f clientes w with
  | Retorna _ w' => avanca w w' /\ heap w' = heap w /\ relogio w' = relogio w
  | Levanta _ _ => True
  end.
Proof.
  unfold exibir_extrato, input. unfold mbind at 1. unfold IO_bind.
  destruct (stdin w) as [|l1 r1] eqn:E1; [done|].
  pose proof (avanca_lido l1 r1 w E1) as Hav1.
  set (w1 := mkWorld r1 (stdout w) (relogio w) (heap w)) in *.
  destruct (filtrar_cliente l1 clientes) as [[i c]|] eqn:Hf.
  - unfold mbind at 1. unfold IO_bind.
    destruct (recuperar_conta_cliente_resultado c w1) as (_ & _ & Hrec).
    destruct (recuperar_conta_cliente int c w1) as [[r|] w2|e w2]; [| |done].
    + destruct Hrec as (_ & _ & Hh & Hr & Hav2).
      unfold ret, print, ler_objeto, mbind, IO_bind, mret, IO_ret.
      destruct (heap w2 !! r) as [obj|]; cbn [heap relogio imprime].
      * split; [|by rewrite Hh, Hr].
        eapply avanca_trans; [exact Hav1|]. eapply avanca_trans; [exact Hav2|].
        apply avanca_imprime.
      * split; [|by rewrite Hh, Hr]. eapply avanca_trans; eauto.
    + destruct Hrec as (_ & _ & Hh & Hr & Hav2). cbn.
      split; [|by rewrite Hh, Hr]. eapply avanca_trans; eauto.
  - cbn. split; [|done]. eapply avanca_trans; [exact Hav1|apply avanca_imprime].
Qed.

End Menu_turno.


(** X8 for a customer with no account and for one with one account. *)
Lemma recuperar_conta_cliente_casos_witness :
  recuperar_conta_cliente int_exemplo ana mundo_vazio =
    Retorna None (imprime MsgClienteSemConta mundo_vazio) /\
  recuperar_conta_cliente int_exemplo ana_com_conta mundo_vazio =
    Retorna (Some 0%nat) mundo_vazio.
Proof.
  split.
  - apply (recuperar_conta_cliente_casos int_exemplo ana mundo_vazio). reflexivity.
  - apply (recuperar_conta_cliente_casos int_exemplo ana_com_conta mundo_vazio). reflexivity.
Defined.

Lemma criar_cliente_avanca (clientes : list PessoaFisica) (w : World) :
  match criar_cliente clientes w with
  | Retorna _ w' => avanca w w'
  | Levanta _ _ => True
  end.
Proof.
  unfold criar_cliente, input, print. unfold ret, mbind, IO_bind, mret, IO_ret.
  destruct (stdin w) as [|l1 r1] eqn:E1; [done|]. cbn [stdin].
  destruct (filtrar_cliente l1 clientes) as [p|].
  - split; cbn; [rewrite E1; by apply suffix_cons_r|by apply prefix_app_r].
  - destruct r1 as [|l2 [|l3 [|l4 r4]]]; cbn [stdin]; try done.
    split; cbn; [rewrite E1; by do 4 apply suffix_cons_r|by apply prefix_app_r].
Qed.

Lemma criar_conta_avanca (numero_conta : Z) (clientes : list PessoaFisica) (w : World) :
  match criar_conta numero_conta clientes w with
  | Retorna _ w' => avanca w w'
  | Levanta _ _ => True
  end.
Proof.
  unfold criar_conta, input, print, novo_objeto. unfold ret, mbind, IO_bind, mret, IO_ret.
  destruct (stdin w) as [|l1 r1] eqn:E1; [done|]. cbn [stdin].
  destruct (filtrar_cliente l1 clientes) as [[i c]|];
    (split; cbn; [rewrite E1; by apply suffix_cons_r|by apply prefix_app_r]).
Qed.

Section Menu_main.

Variable float : string -> option PrimFloat.float.
Variable int : string -> option Z.
Variable formato_2f : PrimFloat.float -> string.

Lemma main_iteracao_passo (clientes : list PessoaFisica) (contas' : list nat)
    (w : World) :
  match main_iteracao float int formato_2f clientes contas' w with
  | Retorna (_, clientes', contas'') w' => turno clientes contas' w clientes' contas'' w'
  | Levanta _ _ => True
  end.
Proof.
  unfold main_iteracao, menu. unfold mbind at 1. unfold IO_bind, input.
  destruct (stdin w) as [|opcao resto] eqn:E; [done|].
  pose proof (avanca_lido opcao resto w E) as Hav.
  set (w1 := mkWorld resto (stdout w) (relogio w) (heap w)) in *.
  assert (Hfim : forall cl co w',
            avanca w1 w' -> transicao clientes contas' (heap w) cl co (heap w') ->
            turno clientes contas' w cl co w').
  { intros cl co w' Hav' Ht. split; [by eapply avanca_trans|]. split; [|done].
    apply avanca_length in Hav'. unfold w1 in Hav'. cbn [stdin] in Hav'.
    rewrite E. cbn [length]. lia. }
  repeat case_decide.
  - pose proof (depositar_turno float int clientes contas' w1) as H'.
    unfold ret, mbind, IO_bind, mret, IO_ret.
    destruct (depositar float int clientes w1) as [[] w'|e w']; [|done].
    destruct H' as [Ha Hb]. by apply Hfim.
  - pose proof (sacar_turno float int clientes contas' w1) as H'.
    unfold ret, mbind, IO_bind, mret, IO_ret.
    destruct (sacar float int clientes w1) as [[] w'|e w']; [|done].
    destruct H' as [Ha Hb]. by apply Hfim.
  - pose proof (exibir_extrato_turno int formato_2f clientes w1) as H'.
    unfold ret, mbind, IO_bind, mret, IO_ret.
    destruct (exibir_extrato int formato_2f clientes w1) as [[] w'|e w']; [|done].
    destruct H' as (Ha & Hb & _). apply Hfim; [done|]. rewrite Hb. constructor.
  - pose proof (criar_cliente_avanca clientes w1) as H'.
    unfold ret, mbind, IO_bind, mret, IO_ret.
    destruct (criar_cliente clientes w1) as [cl w'|e w'] eqn:Hc; [|done].
    apply criar_cliente_casos in Hc as [Hh [->|(c & -> & Hcpf & Hcs)]];
      (apply Hfim; [done|]); rewrite Hh; [constructor|by constructor].
  - pose proof (criar_conta_avanca (Z.of_nat (length contas') + 1) clientes w1) as H'.
    pose proof (criar_conta_casos (Z.of_nat (length contas') + 1) clientes w1) as Hc.
    unfold ret, mbind, IO_bind, mret, IO_ret.
    destruct (criar_conta _ clientes w1) as [[[r|] cl] w'|e w']; [| |done].
    + destruct Hc as (-> & i & c & Hi & -> & Hh). apply Hfim; [done|].
      rewrite Hh. by constructor.
    + destruct Hc as [-> Hh]. apply Hfim; [done|]. rewrite Hh. constructor.
  - unfold ret, mbind, IO_bind, mret, IO_ret. rewrite listar_contas_eq.
    apply Hfim; [|constructor].
    split; cbn [stdin stdout]; [reflexivity|by apply prefix_app_r].
  - cbn. apply Hfim; [apply avanca_imprime|constructor].
  - cbn. apply Hfim; [apply avanca_imprime|constructor].
Qed.

(** X9.  One turn of main consumes at least the line of the option, only
    adds to the output, and changes the state by one step of [transicao]:
    it leaves the customers, the list of accounts and the heap as they
    were, or replaces one account of one customer of the list by what a
    transaction leaves of it, or adds one customer with a new CPF and no
    account, or adds one fresh account with the next number to the list and
    to one customer.  No customer and no account is ever removed, and no
    turn changes two accounts. *)
Theorem main_iteracao_turno (clientes : list PessoaFisica) (contas' : list nat)
    (w : World) :
  match main_iteracao float int formato_2f clientes contas' w with
  | Retorna (_, clientes', contas'') w' => turno clientes contas' w clientes' contas'' w'
  | Levanta _ _ => True
  end.
Proof. exact (main_iteracao_passo clientes contas' w). Qed.

Lemma main_loop_transicoes (I : list PessoaFisica -> list nat -> list Objeto -> Prop) :
  (forall cl co h cl' co' h', I cl co h -> transicao cl co h cl' co' h' -> I cl' co' h') ->
  forall n cl co w,
    I cl co (heap w) ->
    em_todo_estado (fun cl co w => I cl co (heap w)) (main_loop float int formato_2f n cl co w).
Proof.
  intros Hpres. induction n as [|n IH]; intros cl co w H; [done|].
  cbn [main_loop]. pose proof (main_iteracao_passo cl co w) as Ht.
  destruct (main_iteracao float int formato_2f cl co w) as [[[[] cl'] co'] w'|e w']; [| |done].
  - apply IH. destruct Ht as (_ & _ & Ht). by eapply Hpres.
  - destruct Ht as (_ & _ & Ht). cbn. by eapply Hpres.
Qed.

(** X10.  The loop of main stops: every turn consumes at least one line of
    input, so after more turns than there are lines the run has ended, by
    the option "q" or by EOFError; and once a run has ended more turns
    change nothing. *)
Theorem main_para :
  (forall (n : nat) (clientes : list PessoaFisica) (contas' : list nat) (w : World),
      (length (stdin w) < n)%nat ->
      match main_loop float int formato_2f n clientes contas' w with
      | Rodando _ _ _ => False
      | _ => True
      end) /\
  (forall (n k : nat) (clientes : list PessoaFisica) (contas' : list nat) (w : World),
      match main_loop float int formato_2f n clientes contas' w with
      | Rodando _ _ _ => True
      | fim => main_loop float int formato_2f (n + k) clientes contas' w = fim
      end).
Proof.
  split.
  - induction n as [|n IH]; intros cl co w Hn; [lia|].
    cbn [main_loop]. pose proof (main_iteracao_passo cl co w) as Ht.
    destruct (main_iteracao float int formato_2f cl co w) as [[[[] cl'] co'] w'|e w']; [|done|done].
    apply IH. destruct Ht as (_ & Hlt & _). lia.
  - induction n as [|n IH]; intros k cl co w; [done|].
    cbn [main_loop Nat.add].
    destruct (main_iteracao float int formato_2f cl co w) as [[[[] cl'] co'] w'|e w']; [|done|done].
    apply IH.
Qed.

End Menu_main.


(** X10 on an input of two lines, the second one "q". *)
Lemma main_para_witness :
  match main_loop float_exemplo int_exemplo formato_exemplo 3 [] []
          (mkWorld ["x"; "q"]%string [] (relogio mundo_vazio) []) with
  | Rodando _ _ _ => False
  | _ => True
  end.
Proof.
  destruct (main_para float_exemplo int_exemplo formato_exemplo) as [H _].
  apply (H 3%nat [] [] (mkWorld ["x"; "q"]%string [] (relogio mundo_vazio) [])).
  cbn. lia.
Defined.

(* ===================================================================== *)
(** ** What every state of main satisfies *)
(* ===================================================================== *)

Lemma registrar_proximo (t : Transacao) (obj obj' : Objeto) (w w' : World) :
  registrar t obj w = Retorna obj' w' ->
  obj' = proximo (Op_registrar t) (relogio w 0%nat) obj.
Proof.
  intros H. destruct (registrar_mundo t obj w) as (c & w1 & Hreg & -> & _).
  rewrite Hreg in H. by injection H as -> _.
Qed.

Lemma conta_de_main_nova (i : nat) (n : Z) :
  conta_de_main (DeContaCorrente (ContaCorrente_nova_conta i n)).
Proof.
  split; [reflexivity|]. split; [reflexivity|]. split; [|done].
  split; [constructor|]. by intros l k [= <- <-].
Qed.

Lemma conta_de_main_limite_finito (obj : Objeto) :
  limites obj = Some (500%float, 3) -> limite_finito obj = true.
Proof. destruct obj as [c|cc]; [done|]. cbn. by intros [= -> _]. Qed.

Lemma conta_de_main_registrar (t : Transacao) (obj obj' : Objeto) (w w' : World) :
  conta_de_main obj -> registrar t obj w = Retorna obj' w' -> conta_de_main obj'.
Proof.
  intros (Hl & Ha & Hh & Hs & Hp) Hreg. apply registrar_proximo in Hreg as ->.
  destruct (mesma_identidade_proximo (Op_registrar t) (relogio w 0%nat) obj)
    as (_ & Ha' & _ & Hl').
  split; [congruence|]. split; [congruence|].
  split; [by apply historico_regular_proximo|]. split.
  - destruct (acompanha_proximo 0 [] t (relogio w 0%nat) obj) as (novas & Hh' & Hs').
    { by exists (transacoes obj). }
    by rewrite Hs', Hh'.
  - apply saldo_proximo_nao_negativo; [|done]. left.
    by apply conta_de_main_limite_finito.
Qed.

Lemma conta_de_main_transicao (cl : list PessoaFisica) (co : list nat) (h : list Objeto)
    (cl' : list PessoaFisica) (co' : list nat) (h' : list Objeto) :
  Forall conta_de_main h -> transicao cl co h cl' co' h' -> Forall conta_de_main h'.
Proof.
  intros H Ht. destruct Ht as [|i c r obj obj' t w w' Hi Hr Hobj Hreg|c Hc Hcs|i c Hi].
  - done.
  - apply Forall_insert; [done|].
    eapply conta_de_main_registrar; [|exact Hreg]. by eapply Forall_lookup_1.
  - done.
  - apply Forall_app. split; [done|]. apply Forall_singleton, conta_de_main_nova.
Qed.

Lemma contas_e_titulares_transicao (cl : list PessoaFisica) (co : list nat)
    (h : list Objeto) (cl' : list PessoaFisica) (co' : list nat) (h' : list Objeto) :
  contas_e_titulares cl h -> transicao cl co h cl' co' h' -> contas_e_titulares cl' h'.
Proof.
  intros (H1 & H2 & H3) Ht.
  destruct Ht as [|i c r obj obj' t w w' Hi Hr Hobj Hreg|c Hc Hcs|i c Hi].
  - done.
  - apply registrar_proximo in Hreg.
    assert (Hcli : cliente obj' = cliente obj).
    { rewrite Hreg.
      by destruct (mesma_identidade_proximo (Op_registrar t) (relogio w 0%nat) obj)
        as (_ & _ & ? & _). }
    pose proof (lookup_lt_Some _ _ _ Hobj) as Hlt.
    split; [|split; [|done]].
    + intros j c' r0 Hj Hr0. destruct (H1 j c' r0 Hj Hr0) as (o & Ho & Hoc).
      destruct (decide (r = r0)) as [->|Hne].
      * exists obj'. rewrite list_lookup_insert_eq by done. split; [done|]. congruence.
      * exists o. by rewrite list_lookup_insert_ne.
    + intros r0 o Ho. apply list_lookup_insert_Some in Ho as [(-> & <- & _)|[Hne Ho]].
      * rewrite Hcli. by apply H2.
      * by apply H2.
  - split; [|split].
    + intros j c' r Hj Hr. apply lookup_snoc_Some in Hj as [[_ Hj]|[_ <-]].
      * by eapply H1.
      * rewrite Hcs in Hr. by apply elem_of_nil in Hr.
    + intros r o Ho. destruct (H2 r o Ho) as (c' & Hc' & Hr).
      exists c'. split; [by apply lookup_app_l_Some|done].
    + intros j c' Hj. apply lookup_snoc_Some in Hj as [[_ Hj]|[_ <-]].
      * by eapply H3.
      * rewrite Hcs. constructor.
  - pose proof (lookup_lt_Some _ _ _ Hi) as Hlt.
    assert (Hfresh : length h ∉ contas c).
    { intros Hin. destruct (H1 i c _ Hi Hin) as (o & Ho & _).
      apply lookup_lt_Some in Ho. lia. }
    split; [|split].
    + intros j c' r Hj Hr.
      apply list_lookup_insert_Some in Hj as [(-> & <- & _)|[Hne Hj]].
      * cbn [contas adicionar_conta] in Hr. apply elem_of_app in Hr as [Hr|Hr].
        -- destruct (H1 j c r Hi Hr) as (o & Ho & Hoc).
           exists o. split; [by apply lookup_app_l_Some|done].
        -- apply list_elem_of_singleton in Hr as ->.
           eexists. split; [apply lookup_snoc_Some; by right|reflexivity].
      * destruct (H1 j c' r Hj Hr) as (o & Ho & Hoc).
        exists o. split; [by apply lookup_app_l_Some|done].
    + intros r o Ho. apply lookup_snoc_Some in Ho as [[_ Ho]|[-> <-]].
      * destruct (H2 r o Ho) as (c' & Hc' & Hr).
        destruct (decide (i = cliente o)) as [->|Hne].
        -- exists (adicionar_conta c (length h)).
           rewrite list_lookup_insert_eq by done. split; [done|].
           cbn [contas adicionar_conta]. apply elem_of_app. left. congruence.
        -- exists c'. by rewrite list_lookup_insert_ne.
      * exists (adicionar_conta c (length h)). cbn [cliente base super _cliente
          ContaCorrente_nova_conta ContaCorrente_init Conta_init].
        rewrite list_lookup_insert_eq by done. split; [done|].
        cbn [contas adicionar_conta]. apply elem_of_app. right. left.
    + intros j c' Hj.
      apply list_lookup_insert_Some in Hj as [(-> & <- & _)|[Hne Hj]]; [|by eapply H3].
      cbn [contas adicionar_conta]. apply NoDup_app. split; [by eapply H3|]. split.
      * intros x Hx Hx'. apply list_elem_of_singleton in Hx' as ->. done.
      * apply NoDup_singleton.
Qed.

Section Menu_estados.

Variable float : string -> option PrimFloat.float.
Variable int : string -> option Z.
Variable formato_2f : PrimFloat.float -> string.

(** X11.  In every state of every run of main customers and accounts agree:
    each reference in a customer's list names an allocated account whose
    owner is that customer, no list holds a reference twice, and each
    allocated account is in the list of its owner.  So no reference is
    dangling and every account has exactly one owner, who never changes. *)
Theorem main_contas_e_titulares (n : nat) (entrada : list string) (rel : nat -> string) :
  em_todo_estado (fun clientes _ w => contas_e_titulares clientes (heap w))
    (main float int formato_2f n entrada rel).
Proof.
  apply (main_loop_transicoes float int formato_2f (fun cl _ h => contas_e_titulares cl h)).
  - intros cl co h cl' co' h'. apply contas_e_titulares_transicao.
  - split; [|split]; intros *; by rewrite ?lookup_nil.
Qed.

(** X12.  In every state of every run of main every account is a checking
    account of branch 0001 with limit 500 and at most 3 withdrawals; its
    balance is not below 0 (it may be infinity, it is never nan) and is
    what the entries of its history give when they are applied again in
    their order from 0, a Deposito by a sum and a Saque by a difference of
    binary64; every entry of the history has an amount greater than 0, no
    withdrawal on record exceeds 500 and no more than 3 are on record. *)
Theorem main_contas_regulares (n : nat) (entrada : list string) (rel : nat -> string) :
  em_todo_estado (fun _ _ w => Forall conta_de_main (heap w))
    (main float int formato_2f n entrada rel).
Proof.
  apply (main_loop_transicoes float int formato_2f (fun _ _ h => Forall conta_de_main h)).
  - intros cl co h cl' co' h'. apply conta_de_main_transicao.
  - constructor.
Qed.

End Menu_estados.

(* ===================================================================== *)
(** ** The menu and the domain together *)
(* ===================================================================== *)

Section Menu_transacao.

Variable float : string -> option PrimFloat.float.
Variable int : string -> option Z.
Variable formato_2f : PrimFloat.float -> string.

Lemma realizar_transacao_eq (r : nat) (t : Transacao) (obj : Objeto) (w : World) :
  heap w !! r = Some obj ->
  exists obj' w',
    registrar t obj w = Retorna obj' w' /\
    realizar_transacao r t w =
      Retorna tt (mkWorld (stdin w') (stdout w') (relogio w') (<[r := obj']> (heap w))).
Proof.
  intros Hr. destruct (registrar_mundo t obj w) as (obj' & w' & Hreg & _ & Hh & _).
  exists obj', w'. split; [done|].
  unfold realizar_transacao, ler_objeto, gravar_objeto.
  unfold ret, mbind, IO_bind, mret, IO_ret. by rewrite Hr, Hreg, Hh.
Qed.

(** X13.  The options "d" and "s" of the menu.  With a CPF of no customer
    the function prints that the customer was not found, having read one
    line.  With an amount that [float] refuses it prints that the operation
    was cancelled, having read two lines and before any account is chosen.
    In both cases nothing else changes.  For a customer with one account
    and an amount read, it is the [registrar] of a Deposito (of a Saque)
    of that amount on that account: the account is replaced in the heap by
    what [registrar] leaves, and the output and the clock are those
    [registrar] leaves. *)
Theorem depositar_sacar_menu (clientes : list PessoaFisica) (w : World) (cpf' : string) :
  (forall resto,
      stdin w = cpf' :: resto -> filtrar_cliente cpf' clientes = None ->
      depositar float int clientes w =
        Retorna tt (imprime MsgClienteNaoEncontrado
                      (mkWorld resto (stdout w) (relogio w) (heap w))) /\
      sacar float int clientes w =
        Retorna tt (imprime MsgClienteNaoEncontrado
                      (mkWorld resto (stdout w) (relogio w) (heap w)))) /\
  (forall linha resto i c,
      stdin w = cpf' :: linha :: resto -> filtrar_cliente cpf' clientes = Some (i, c) ->
      float linha = None ->
      depositar float int clientes w =
        Retorna tt (imprime MsgDepositoCancelado
                      (mkWorld resto (stdout w) (relogio w) (heap w))) /\
      sacar float int clientes w =
        Retorna tt (imprime MsgSaqueCancelado
                      (mkWorld resto (stdout w) (relogio w) (heap w)))) /\
  (forall linha resto i c valor r obj,
      stdin w = cpf' :: linha :: resto -> filtrar_cliente cpf' clientes = Some (i, c) ->
      float linha = Some valor -> contas c = [r] -> heap w !! r = Some obj ->
      (exists obj' w',
          registrar (Deposito valor) obj (mkWorld resto (stdout w) (relogio w) (heap w)) =
            Retorna obj' w' /\
          depositar float int clientes w =
            Retorna tt (mkWorld (stdin w') (stdout w') (relogio w') (<[r := obj']> (heap w)))) /\
      (exists obj' w',
          registrar (Saque valor) obj (mkWorld resto (stdout w) (relogio w) (heap w)) =
            Retorna obj' w' /\
          sacar float int clientes w =
            Retorna tt (mkWorld (stdin w') (stdout w') (relogio w') (<[r := obj']> (heap w))))).
Proof.
  split; [|split].
  - intros resto Hin Hf. unfold depositar, sacar, input, print.
    unfold ret, mbind, IO_bind, mret, IO_ret. by rewrite Hin, Hf.
  - intros linha resto i c Hin Hf Hfl. unfold depositar, sacar, input, print.
    unfold ret, mbind, IO_bind, mret, IO_ret. rewrite Hin, Hf. cbn [stdin].
    by rewrite Hfl.
  - intros linha resto i c valor r obj Hin Hf Hfl Hc Hr.
    set (w2 := mkWorld resto (stdout w) (relogio w) (heap w)).
    assert (Hrec : recuperar_conta_cliente int c w2 = Retorna (Some r) w2)
      by (by apply recuperar_conta_cliente_resultado).
    split.
    + destruct (realizar_transacao_eq r (Deposito valor) obj w2 Hr) as (obj' & w' & Hreg & Hrt).
      exists obj', w'. split; [done|].
      unfold depositar, input. unfold ret, mbind, IO_bind, mret, IO_ret.
      rewrite Hin, Hf. cbn [stdin stdout relogio heap]. rewrite Hfl. fold w2.
      by rewrite Hrec, Hrt.
    + destruct (realizar_transacao_eq r (Saque valor) obj w2 Hr) as (obj' & w' & Hreg & Hrt).
      exists obj', w'. split; [done|].
      unfold sacar, input. unfold ret, mbind, IO_bind, mret, IO_ret.
      rewrite Hin, Hf. cbn [stdin stdout relogio heap]. rewrite Hfl. fold w2.
      by rewrite Hrec, Hrt.
Qed.

End Menu_transacao.


(** X13: a deposit of 100 typed for the customer of CPF 123, who has one
    account. *)
Lemma depositar_sacar_menu_witness :
  exists obj' w',
    registrar (Deposito 100) conta_nova (mkWorld [] [] (relogio mundo_vazio) [conta_nova]) =
      Retorna obj' w' /\
    depositar float_exemplo int_exemplo [ana_com_conta]
      (mkWorld ["123"; "100"]%string [] (relogio mundo_vazio) [conta_nova]) =
      Retorna tt (mkWorld (stdin w') (stdout w') (relogio w') (<[0%nat := obj']> [conta_nova])).
Proof.
  destruct (depositar_sacar_menu float_exemplo int_exemplo [ana_com_conta]
              (mkWorld ["123"; "100"]%string [] (relogio mundo_vazio) [conta_nova])
              "123"%string) as (_ & _ & H).
  destruct (H "100"%string [] 0%nat ana_com_conta 100%float 0%nat conta_nova) as [Hd _];
    try reflexivity.
  exact Hd.
Defined.

Lemma saida_ret {A} P (a : A) : saida P (ret a).
Proof. intros w H. exact H. Qed.

Lemma saida_bind {A B} P (m : IO A) (k : A -> IO B) :
  saida P m -> (forall a, saida P (k a)) -> saida P (m ≫= k).
Proof.
  intros Hm Hk w H. unfold mbind, IO_bind. specialize (Hm w H).
  destruct (m w) as [a w1|e w1]; [by apply Hk|done].
Qed.

Lemma saida_print (P : Message -> Prop) (m : Message) : P m -> saida P (print m).
Proof. intros Hm w H. cbn. apply Forall_app. split; [done|by apply Forall_singleton]. Qed.

Lemma saida_input P : saida P input.
Proof. intros w H. unfold input. by destruct (stdin w). Qed.

Lemma saida_ler_objeto P (r : nat) : saida P (ler_objeto r).
Proof. intros w H. exact H. Qed.

Section Menu_saida.

Variable float : string -> option PrimFloat.float.
Variable int : string -> option Z.
Variable formato_2f : PrimFloat.float -> string.

Lemma chamada_mensagem (t : Transacao) (conta : Objeto) (w : World) :
  exists r conta' m,
    chamada t conta w = Retorna (r, conta') (imprime m w) /\ extrato_confere formato_2f m.
Proof.
  destruct t as [v|v]; cbn [chamada].
  - rewrite conta_sacar_eq.
    destruct (negb _); [|destruct (_ <? _)%float; [|destruct (_ <? _)%float]];
      eexists _, _, _; (split; [reflexivity|]); try done.
    destruct conta as [c|cc]; [done|]. by destruct (_ <? _)%float.
  - rewrite conta_depositar_eq.
    destruct (_ <? _)%float; eexists _, _, _; (split; [reflexivity|]); done.
Qed.

Lemma saida_realizar_transacao (r : nat) (t : Transacao) :
  saida (extrato_confere formato_2f) (realizar_transacao r t).
Proof.
  intros w H. unfold realizar_transacao, ler_objeto, gravar_objeto.
  unfold ret, mbind, IO_bind, mret, IO_ret.
  destruct (heap w !! r) as [obj|]; [|done].
  rewrite registrar_eq.
  destruct (chamada_mensagem t obj w) as (b & obj' & m & -> & Hm).
  destruct b; cbn [stdout tique imprime]; apply Forall_app;
    (split; [done|by apply Forall_singleton]).
Qed.

Lemma saida_listar_contas (contas' : list nat) :
  saida (extrato_confere formato_2f) (listar_contas contas').
Proof.
  intros w H. rewrite listar_contas_eq. cbn [stdout].
  apply Forall_app. split; [done|]. destruct contas' as [|c cs].
  - by apply Forall_singleton.
  - apply Forall_forall. intros m Hm.
    apply list_elem_of_omap in Hm as (r & _ & Hr).
    destruct (heap w !! r); [|done]. by injection Hr as <-.
Qed.

Lemma saida_criar_cliente (clientes : list PessoaFisica) :
  saida (extrato_confere formato_2f) (criar_cliente clientes).
Proof.
  unfold criar_cliente. apply saida_bind; [apply saida_input|intros cpf'].
  destruct (filtrar_cliente _ _).
  - apply saida_bind; [by apply saida_print|intros _; apply saida_ret].
  - repeat (apply saida_bind; [apply saida_input|intros ?]).
    apply saida_bind; [by apply saida_print|intros _; apply saida_ret].
Qed.

Lemma saida_criar_conta (numero_conta : Z) (clientes : list PessoaFisica) :
  saida (extrato_confere formato_2f) (criar_conta numero_conta clientes).
Proof.
  unfold criar_conta. apply saida_bind; [apply saida_input|intros cpf'].
  destruct (filtrar_cliente _ _) as [[i c]|].
  - apply saida_bind; [by intros w H|intros r].
    apply saida_bind; [by apply saida_print|intros _; apply saida_ret].
  - apply saida_bind; [by apply saida_print|intros _; apply saida_ret].
Qed.

Lemma saida_imprimir_opcoes (i : Z) (contas' : list nat) :
  saida (extrato_confere formato_2f) (imprimir_opcoes i contas').
Proof.
  revert i. induction contas' as [|c cs IH]; intros i; cbn [imprimir_opcoes].
  - apply saida_ret.
  - apply saida_bind; [apply saida_ler_objeto|intros o].
    apply saida_bind; [|intros _; apply IH].
    destruct o; [by apply saida_print|apply saida_ret].
Qed.

Lemma saida_ler_escolha (contas' : list nat) :
  saida (extrato_confere formato_2f) (ler_escolha int contas').
Proof.
  intros w. unfold ler_escolha. generalize (stdin w) as entrada. intros entrada.
  revert w. induction entrada as [|linha resto IH]; intros w H; cbn [escolher_conta]; [done|].
  assert (Hrec : forall m, extrato_confere formato_2f m ->
    match escolher_conta int contas' resto
            (imprime m (mkWorld resto (stdout w) (relogio w) (heap w))) with
    | Retorna _ w' => Forall (extrato_confere formato_2f) (stdout w')
    | Levanta _ w' => Forall (extrato_confere formato_2f) (stdout w')
    end).
  { intros m Hm. apply IH. cbn. apply Forall_app. split; [done|by apply Forall_singleton]. }
  destruct (int linha) as [k|]; [|by apply Hrec].
  destruct (_ && _); [done|by apply Hrec].
Qed.

Lemma saida_recuperar_conta_cliente (c : PessoaFisica) :
  saida (extrato_confere formato_2f) (recuperar_conta_cliente int c).
Proof.
  unfold recuperar_conta_cliente. destruct (contas c) as [|r [|r' rs]].
  - apply saida_bind; [by apply saida_print|intros _; apply saida_ret].
  - apply saida_ret.
  - apply saida_bind; [by apply saida_print|intros _].
    apply saida_bind; [apply saida_imprimir_opcoes|intros _]. apply saida_ler_escolha.
Qed.

Lemma saida_depositar (clientes : list PessoaFisica) :
  saida (extrato_confere formato_2f) (depositar float int clientes).
Proof.
  unfold depositar. apply saida_bind; [apply saida_input|intros cpf'].
  destruct (filtrar_cliente _ _) as [[i c]|]; [|by apply saida_print].
  apply saida_bind; [apply saida_input|intros linha].
  destruct (float _); [|by apply saida_print].
  apply saida_bind; [apply saida_recuperar_conta_cliente|intros conta].
  destruct conta; [apply saida_realizar_transacao|apply saida_ret].
Qed.

Lemma saida_sacar (clientes : list PessoaFisica) :
  saida (extrato_confere formato_2f) (sacar float int clientes).
Proof.
  unfold sacar. apply saida_bind; [apply saida_input|intros cpf'].
  destruct (filtrar_cliente _ _) as [[i c]|]; [|by apply saida_print].
  apply saida_bind; [apply saida_input|intros linha].
  destruct (float _); [|by apply saida_print].
  apply saida_bind; [apply saida_recuperar_conta_cliente|intros conta].
  destruct conta; [apply saida_realizar_transacao|apply saida_ret].
Qed.

Lemma exibir_extrato_confere (clientes : list PessoaFisica) (w : World) :
  Forall conta_de_main (heap w) ->
  Forall (extrato_confere formato_2f) (stdout w) ->
  match exibir_extrato int formato_2f clientes w with
  | Retorna _ w' => Forall (extrato_confere formato_2f) (stdout w')
  | Levanta _ w' => Forall (extrato_confere formato_2f) (stdout w')
  end.
Proof.
  intros Hheap Hout. unfold exibir_extrato, input. unfold mbind at 1. unfold IO_bind.
  destruct (stdin w) as [|l1 r1]; [done|].
  set (w1 := mkWorld r1 (stdout w) (relogio w) (heap w)).
  destruct (filtrar_cliente l1 clientes) as [[i c]|].
  - unfold mbind at 1. unfold IO_bind.
    pose proof (saida_recuperar_conta_cliente c w1 Hout) as Hs.
    destruct (recuperar_conta_cliente_resultado int c w1) as (_ & _ & Hrec).
    destruct (recuperar_conta_cliente int c w1) as [[r|] w2|e w2]; [| |done].
    + destruct Hrec as (_ & _ & Hh & _).
      unfold ret, print, ler_objeto, mbind, IO_bind, mret, IO_ret.
      destruct (heap w2 !! r) as [obj|] eqn:Hr; [|done].
      cbn [stdout imprime]. apply Forall_app. split; [done|]. apply Forall_singleton.
      rewrite Hh in Hr.
      destruct (Forall_lookup_1 _ _ _ _ Hheap Hr) as (_ & _ & [Hall _] & Hsal & Hpos).
      exists (transacoes obj). rewrite <- Hsal. split; [done|]. split; [done|].
      split; [|done]. eapply Forall_impl; [exact Hall|]. by intros reg (H0 & _).
    + done.
  - by apply saida_print.
Qed.

Lemma main_iteracao_extratos (clientes : list PessoaFisica) (contas' : list nat)
    (w : World) :
  Forall conta_de_main (heap w) ->
  Forall (extrato_confere formato_2f) (stdout w) ->
  match main_iteracao float int formato_2f clientes contas' w with
  | Retorna _ w' => Forall (extrato_confere formato_2f) (stdout w')
  | Levanta _ _ => True
  end.
Proof.
  intros Hheap Hout.
  unfold main_iteracao, menu. unfold mbind at 1. unfold IO_bind, input.
  destruct (stdin w) as [|opcao resto]; [done|].
  set (w1 := mkWorld resto (stdout w) (relogio w) (heap w)).
  assert (Hs : forall (m : IO unit) (cl : list PessoaFisica) (co : list nat),
            (match m w1 with
             | Retorna _ w' => Forall (extrato_confere formato_2f) (stdout w')
             | Levanta _ w' => Forall (extrato_confere formato_2f) (stdout w')
             end) ->
            match (m;; ret (true, cl, co)) w1 with
            | Retorna _ w' => Forall (extrato_confere formato_2f) (stdout w')
            | Levanta _ _ => True
            end).
  { intros m cl co Hm. unfold ret, mbind, IO_bind, mret, IO_ret.
    by destruct (m w1) as [[] w'|e w']. }
  repeat case_decide.
  - by apply Hs, saida_depositar.
  - by apply Hs, saida_sacar.
  - by apply Hs, exibir_extrato_confere.
  - pose proof (saida_criar_cliente clientes w1 Hout) as H'.
    unfold ret, mbind, IO_bind, mret, IO_ret.
    by destruct (criar_cliente clientes w1).
  - pose proof (saida_criar_conta (Z.of_nat (length contas') + 1) clientes w1 Hout) as H'.
    unfold ret, mbind, IO_bind, mret, IO_ret.
    by destruct (criar_conta _ clientes w1) as [[[r|] cl] w'|e w'].
  - by apply Hs, saida_listar_contas.
  - cbn. apply Forall_app. split; [done|by apply Forall_singleton].
  - cbn. apply Forall_app. split; [done|by apply Forall_singleton].
Qed.

(** X14.  In every state of every run of main, every statement that option
    "e" has printed lists the entries of a history, each with its type,
    the text [:.2f] writes for its amount and its date, every amount
    greater than 0; and the balance it shows is the text [:.2f] writes for
    the balance those entries give when they are applied in their order
    from 0, a balance that is not below 0.  The balance shown is computed
    from the amounts, not from the texts listed for them. *)
Theorem main_extratos_conferem (n : nat) (entrada : list string) (rel : nat -> string) :
  em_todo_estado (fun _ _ w => Forall (extrato_confere formato_2f) (stdout w))
    (main float int formato_2f n entrada rel).
Proof.
  assert (H : forall n cl co w,
            Forall conta_de_main (heap w) -> Forall (extrato_confere formato_2f) (stdout w) ->
            em_todo_estado (fun _ _ w => Forall (extrato_confere formato_2f) (stdout w))
              (main_loop float int formato_2f n cl co w)).
  { clear n. induction n as [|n IH]; intros cl co w Hh Ho; [done|].
    cbn [main_loop].
    pose proof (main_iteracao_extratos cl co w Hh Ho) as He.
    pose proof (main_iteracao_passo float int formato_2f cl co w) as Ht.
    destruct (main_iteracao float int formato_2f cl co w) as [[[[] cl'] co'] w'|e w']; [| |done].
    - apply IH; [|done]. destruct Ht as (_ & _ & Ht).
      by eapply conta_de_main_transicao.
    - done. }
  apply H; constructor.
Qed.

End Menu_saida.

(** A run of main by evaluation: a customer, an account, a deposit of 100, a
    withdrawal of 30 and the statement. *)
Example main_extrato_exemplo :
  exists clientes contas' w,
    main float_exemplo int_exemplo formato_exemplo 10
      ["nu"; "123"; "Ana"; "01-01-2000"; "Rua A"; "nc"; "123";
       "d"; "123"; "100"; "s"; "123"; "30"; "e"; "123"; "q"]%string
      (fun _ => "03-11-2026 10:00:00"%string) = Saiu clientes contas' w /\
    stdout w =
      [MsgClienteCriado; MsgContaCriada; MsgDepositoSucesso; MsgSaqueSucesso;
       MsgExtrato [("Deposito", "100.00", "03-11-2026 10:00:00");
                   ("Saque", "30.00", "03-11-2026 10:00:00")]%string "70.00";
       MsgSaindo] /\
    saldo <$> heap w = [70%float].
Proof. eexists _, _, _. split; [vm_compute; reflexivity|]. split; reflexivity. Qed.

(** A run of main where a withdrawal is paid and the balance stays: a
    deposit of 2^54, a withdrawal of 1 and the statement. *)
Example main_saque_sem_baixar_exemplo :
  exists clientes contas' w,
    main float_exemplo int_exemplo formato_exemplo 10
      ["nu"; "123"; "Ana"; "01-01-2000"; "Rua A"; "nc"; "123";
       "d"; "123"; "18014398509481984"; "s"; "123"; "1"; "e"; "123"; "q"]%string
      (fun _ => "03-11-2026 10:00:00"%string) = Saiu clientes contas' w /\
    stdout w =
      [MsgClienteCriado; MsgContaCriada; MsgDepositoSucesso; MsgSaqueSucesso;
       MsgExtrato [("Deposito", "18014398509481984.00", "03-11-2026 10:00:00");
                   ("Saque", "1.00", "03-11-2026 10:00:00")]%string
         "18014398509481984.00";
       MsgSaindo] /\
    saldo <$> heap w = [dois_a_54].
Proof. eexists _, _, _. split; [vm_compute; reflexivity|]. split; reflexivity. Qed.

(* ===================================================================== *)
(** ** Direct calls, the customer list, the options that only read *)
(* ===================================================================== *)

(** X15.  The maximum number of withdrawals binds only the transactions
    applied with [registrar]: a direct call of [conta.sacar] writes no
    entry, so on a checking account that has not reached its maximum any
    number of direct withdrawals succeed, each greater than 0, not above
    the limit and within the balance the ones before it leave; the balance
    goes down by one difference of binary64 for each, and the history, and
    with it the number of withdrawals on record, stays as it was. *)
Theorem saques_diretos_nao_contam (cc : ContaCorrente) (valores : list PrimFloat.float)
    (w : World) :
  numero_saques (DeContaCorrente cc) < _limite_saques cc ->
  Forall (fun v => (0 <? v)%float = true /\ (_limite cc <? v)%float = false) valores ->
  cabem_no_saldo (saldo (DeContaCorrente cc)) valores ->
  exists passos w',
    executar_todas (Op_sacar <$> valores) (DeContaCorrente cc) w = Retorna passos w' /\
    passos.*1 = (fun _ => true) <$> valores /\
    saldo (estado_final (DeContaCorrente cc) passos) =
      fold_left PrimFloat.sub valores (saldo (DeContaCorrente cc)) /\
    transacoes (estado_final (DeContaCorrente cc) passos) = transacoes (DeContaCorrente cc).
Proof.
  intros Hn Hall. remember (_limite cc) as lim eqn:Hlim.
  revert cc w Hlim Hn. induction Hall as [|v vs [Hv1 Hv2] H IH]; intros cc w Hlim Hn Hs.
  - by exists [], w.
  - cbn [fmap list_fmap executar_todas]. unfold ret, mbind, IO_bind, mret, IO_ret.
    destruct (executar_eq (Op_sacar v) (DeContaCorrente cc) w) as (m & -> & Hm).
    destruct Hs as [Hs1 Hs2].
    assert (Ha : aceita (Op_sacar v) (DeContaCorrente cc) = true).
    { cbn [aceita passa_validacoes]. rewrite <- Hlim, Hv1, Hv2, Hs1.
      by destruct (Z.leb_spec (_limite_saques cc) (numero_saques (DeContaCorrente cc)));
        [lia|]. }
    unfold proximo. rewrite Ha. unfold efeito, novo_saldo. cbn [e_saque valor_de].
    set (cc' := mkContaCorrente (com_saldo (saldo (DeContaCorrente cc) - v)%float (super cc))
                  (_limite cc) (_limite_saques cc)).
    change (com_saldo_de _ (DeContaCorrente cc)) with (DeContaCorrente cc').
    destruct (IH cc' (mundo_apos (Op_sacar v) (DeContaCorrente cc) m w))
      as (passos & w' & -> & Hflags & Hsaldo & Hhist); [done|done|exact Hs2|].
    eexists _, _. split; [reflexivity|]. rewrite estado_final_cons. cbn [snd].
    split; [by rewrite fmap_cons, Hflags|]. split; [|done].
    by rewrite Hsaldo.
Qed.

(** X15 on an account with balance 970, three withdrawals on record and a
    maximum of four: five direct withdrawals of 100. *)
Lemma saques_diretos_nao_contam_witness :
  exists passos w',
    executar_todas (Op_sacar <$> [100; 100; 100; 100; 100]%float)
      (DeContaCorrente (mkContaCorrente (super conta_com_tres_saques) 500 4)) mundo_vazio =
      Retorna passos w' /\
    passos.*1 = (fun _ => true) <$> [100; 100; 100; 100; 100]%float /\
    saldo (estado_final (DeContaCorrente (mkContaCorrente (super conta_com_tres_saques) 500 4))
             passos) =
      fold_left PrimFloat.sub [100; 100; 100; 100; 100]%float
        (saldo (DeContaCorrente (mkContaCorrente (super conta_com_tres_saques) 500 4))) /\
    transacoes (estado_final
                  (DeContaCorrente (mkContaCorrente (super conta_com_tres_saques) 500 4))
                  passos) =
      transacoes (DeContaCorrente (mkContaCorrente (super conta_com_tres_saques) 500 4)).
Proof.
  apply (saques_diretos_nao_contam
           (mkContaCorrente (super conta_com_tres_saques) 500 4)
           [100; 100; 100; 100; 100]%float mundo_vazio).
  - calcula.
  - repeat constructor; calcula.
  - calcula.
Defined.

Lemma filtrar_cliente_snoc (x : string) (clientes : list PessoaFisica) (c : PessoaFisica) :
  filtrar_cliente x (clientes ++ [c]) =
    match filtrar_cliente x clientes with
    | Some p => Some p
    | None => if decide (cpf c = x) then Some (length clientes, c) else None
    end.
Proof.
  unfold filtrar_cliente, clientes_filtrados.
  rewrite imap_app, filter_app, head_app. destruct (head _) as [p|]; [done|].
  cbn [imap]. rewrite Nat.add_0_r, filter_cons, filter_nil. cbn [snd].
  by destruct (decide (cpf c = x)).
Qed.

(** X16.  A customer created is found again.  With a CPF that no customer
    has, [criar_cliente] reads four lines (CPF, name, date of birth,
    address), adds at the end of the list a customer with those fields and
    no account, and prints that it was created; afterwards [filtrar_cliente]
    finds that customer for the CPF, at the last position, and answers for
    any other CPF as it did before. *)
Theorem criar_cliente_e_filtrar (clientes : list PessoaFisica) (w : World)
    (cpf' nome' data' endereco' : string) (resto : list string) :
  stdin w = cpf' :: nome' :: data' :: endereco' :: resto ->
  cpf' ∉ (cpf <$> clientes) ->
  let novo := mkPessoaFisica endereco' [] nome' data' cpf' in
  criar_cliente clientes w =
    Retorna (clientes ++ [novo])
      (imprime MsgClienteCriado (mkWorld resto (stdout w) (relogio w) (heap w))) /\
  filtrar_cliente cpf' (clientes ++ [novo]) = Some (length clientes, novo) /\
  (forall outro, outro <> cpf' ->
     filtrar_cliente outro (clientes ++ [novo]) = filtrar_cliente outro clientes).
Proof.
  intros Hin Hcpf novo. apply filtrar_cliente_None in Hcpf as Hf. split; [|split].
  - unfold criar_cliente, input, print. unfold ret, mbind, IO_bind, mret, IO_ret.
    rewrite Hin. cbn [stdin]. by rewrite Hf.
  - rewrite filtrar_cliente_snoc, Hf. cbn [cpf novo]. by rewrite decide_True.
  - intros outro Hne. rewrite filtrar_cliente_snoc.
    destruct (filtrar_cliente outro clientes); [done|].
    cbn [cpf novo]. by rewrite decide_False.
Qed.

(** X16 with a second customer added to the list of one. *)
Lemma criar_cliente_e_filtrar_witness :
  criar_cliente [ana]
    (mkWorld ["456"; "Bia"; "02-02-2002"; "Rua B"; "q"]%string [] (relogio mundo_vazio) []) =
    Retorna ([ana] ++ [mkPessoaFisica "Rua B" [] "Bia" "02-02-2002" "456"])
      (imprime MsgClienteCriado (mkWorld ["q"%string] [] (relogio mundo_vazio) [])) /\
  filtrar_cliente "456" ([ana] ++ [mkPessoaFisica "Rua B" [] "Bia" "02-02-2002" "456"]) =
    Some (length [ana], mkPessoaFisica "Rua B" [] "Bia" "02-02-2002" "456") /\
  (forall outro, outro <> "456"%string ->
     filtrar_cliente outro ([ana] ++ [mkPessoaFisica "Rua B" [] "Bia" "02-02-2002" "456"]) =
       filtrar_cliente outro [ana]).
Proof.
  apply (criar_cliente_e_filtrar [ana]
           (mkWorld ["456"; "Bia"; "02-02-2002"; "Rua B"; "q"]%string [] (relogio mundo_vazio) [])
           "456" "Bia" "02-02-2002" "Rua B" ["q"%string]).
  - reflexivity.
  - intros H. apply list_elem_of_singleton in H. discriminate H.
Defined.

Section Menu_opcoes.

Variable float : string -> option PrimFloat.float.
Variable int : string -> option Z.
Variable formato_2f : PrimFloat.float -> string.

(** X17.  What each option of the menu can touch.  Only "nu" and "nc"
    change the list of customers or the list of accounts, and no other
    option allocates an object; the options other than "d", "s", "nu" and
    "nc" (the statement, the listing, "q" and any unknown text) change no
    object and do not read the clock; and the loop ends exactly on "q". *)
Theorem main_iteracao_opcoes (clientes : list PessoaFisica) (contas' : list nat)
    (w : World) (opcao : string) (resto : list string) :
  stdin w = opcao :: resto ->
  match main_iteracao float int formato_2f clientes contas' w with
  | Retorna (continua, clientes', contas'') w' =>
      (continua = false <-> opcao = "q"%string) /\
      (opcao <> "nu"%string -> opcao <> "nc"%string ->
         clientes' = clientes /\ contas'' = contas' /\
         length (heap w') = length (heap w)) /\
      (opcao <> "d"%string -> opcao <> "s"%string ->
       opcao <> "nu"%string -> opcao <> "nc"%string ->
         heap w' = heap w /\ relogio w' = relogio w)
  | Levanta _ _ => True
  end.
Proof.
  intros Hin.
  unfold main_iteracao, menu. unfold mbind at 1. unfold IO_bind, input. rewrite Hin.
  set (w1 := mkWorld resto (stdout w) (relogio w) (heap w)).
  assert (Hlen : forall cl co h', transicao clientes contas' (heap w) cl co h' ->
            co = contas' -> length h' = length (heap w)).
  { intros cl co h' Ht. destruct Ht as [|i c r obj obj' t wa wb Hi Hr Hobj Hreg|c Hc Hcs|i c Hi].
    - done.
    - intros _. by rewrite length_insert.
    - done.
    - intros Heq. apply (f_equal length) in Heq. rewrite length_app in Heq. cbn in Heq. lia. }
  repeat case_decide; subst.
  - pose proof (depositar_turno float int clientes contas' w1) as H'.
    unfold ret, mbind, IO_bind, mret, IO_ret.
    destruct (depositar float int clientes w1) as [[] w'|e w']; [|done].
    destruct H' as [_ Ht]. split; [done|]. split; [|done].
    intros _ _. split; [done|]. split; [done|]. by apply (Hlen _ _ _ Ht).
  - pose proof (sacar_turno float int clientes contas' w1) as H'.
    unfold ret, mbind, IO_bind, mret, IO_ret.
    destruct (sacar float int clientes w1) as [[] w'|e w']; [|done].
    destruct H' as [_ Ht]. split; [done|]. split; [|done].
    intros _ _. split; [done|]. split; [done|]. by apply (Hlen _ _ _ Ht).
  - pose proof (exibir_extrato_turno int formato_2f clientes w1) as H'.
    unfold ret, mbind, IO_bind, mret, IO_ret.
    destruct (exibir_extrato int formato_2f clientes w1) as [[] w'|e w']; [|done].
    destruct H' as (_ & Hh & Hr). split; [done|]. split.
    + intros _ _. by rewrite Hh.
    + intros _ _ _ _. done.
  - unfold ret, mbind, IO_bind, mret, IO_ret.
    destruct (criar_cliente clientes w1) as [cl w'|e w']; [|done]. done.
  - unfold ret, mbind, IO_bind, mret, IO_ret.
    destruct (criar_conta _ clientes w1) as [[[r|] cl] w'|e w']; done.
  - unfold ret, mbind, IO_bind, mret, IO_ret. rewrite listar_contas_eq. done.
  - done.
  - cbn. split; [done|]. done.
Qed.

End Menu_opcoes.

(** X17 for the option "lc" and for "q". *)
Lemma main_iteracao_opcoes_witness :
  match main_iteracao float_exemplo int_exemplo formato_exemplo [ana_com_conta] [0%nat]
          (mkWorld ["lc"; "q"]%string [] (relogio mundo_vazio) [conta_nova]) with
  | Retorna (continua, clientes', contas'') w' =>
      (continua = false <-> "lc"%string = "q"%string) /\
      ("lc"%string <> "nu"%string -> "lc"%string <> "nc"%string ->
         clientes' = [ana_com_conta] /\ contas'' = [0%nat] /\
         length (heap w') = length [conta_nova]) /\
      ("lc"%string <> "d"%string -> "lc"%string <> "s"%string ->
       "lc"%string <> "nu"%string -> "lc"%string <> "nc"%string ->
         heap w' = [conta_nova] /\ relogio w' = relogio mundo_vazio)
  | Levanta _ _ => True
  end.
Proof.
  apply (main_iteracao_opcoes float_exemplo int_exemplo formato_exemplo [ana_com_conta] [0%nat]
           (mkWorld ["lc"; "q"]%string [] (relogio mundo_vazio) [conta_nova])
           "lc" ["q"%string]).
  reflexivity.
Defined.
